(** * E-cheque pipeline: extraction retry, naming, and delivery

    A shallow embedding of [processing_component.py] and
    [teams_component.py].

    Conventions.
    - A Python [str] is a [string]: a sequence of characters with the
      code points 0 to 255.  Whitespace and case mapping are those of
      Python on these code points: the whitespace characters are 9-13,
      28-32, 133 and 160; [str.upper] maps [a]-[z] and the letters
      224-254 (but 247) down by 32 and 223 to [SS].  The upper-case forms
      of 181 and 255 have no code below 256; the two characters are
      kept and stand for them.
    - A Python [bytes] payload is a [list byte]; sizes and offsets are [Z].
    - Functions that take [progress_callback] are embedded at its default
      value [None]: no progress message is produced.
    - External collaborators (the recognition service, the token provider,
      the remote document store, [json.loads], PyMuPDF) are parameters or
      oracles of the functions that call them. *)

From Stdlib Require Import String Ascii List ZArith Lia Bool Arith.
From Stdlib Require Import Numbers.DecimalString.
From Stdlib Require Strings.Byte.
From Stdlib Require Import Sorting.Permutation.
From Equations Require Import Equations.
Import ListNotations.

Open Scope list_scope.
Open Scope string_scope.

(** ** Python string primitives *)

Module PyStr.

Definition chr (n : nat) : ascii := ascii_of_nat n.

(** [str.isspace] on one character. *)
Definition is_space (c : ascii) : bool :=
  let n := nat_of_ascii c in
  (((9 <=? n) && (n <=? 13)) || ((28 <=? n) && (n <=? 32))
   || (n =? 133) || (n =? 160))%nat.

(** The letters [a]-[z]. *)
Definition is_lower (c : ascii) : bool :=
  let n := nat_of_ascii c in ((97 <=? n) && (n <=? 122))%nat.

(** The digits [0]-[9]. *)
Definition is_digit (c : ascii) : bool :=
  let n := nat_of_ascii c in ((48 <=? n) && (n <=? 57))%nat.

(** The letters [A]-[Z]. *)
Definition is_upper (c : ascii) : bool :=
  let n := nat_of_ascii c in ((65 <=? n) && (n <=? 90))%nat.

(** The lower-case letters above 127 whose upper-case form is 32 below
    them. *)
Definition is_lower_latin (c : ascii) : bool :=
  let n := nat_of_ascii c in ((224 <=? n) && (n <=? 254) && negb (n =? 247))%nat.

(** The upper-case form of a character that has one of one character. *)
Definition upper_char (c : ascii) : ascii :=
  if is_lower c || is_lower_latin c then ascii_of_nat (nat_of_ascii c - 32) else c.

(** [s.upper()]: character by character, the sharp s (223) becoming
    [SS]. *)
Fixpoint upper (s : string) : string :=
  match s with
  | EmptyString => EmptyString
  | String c r =>
      if Ascii.eqb c (ascii_of_nat 223) then String "S" (String "S" (upper r))
      else String (upper_char c) (upper r)
  end.

(** [s.lstrip()] *)
Fixpoint lstrip (s : string) : string :=
  match s with
  | EmptyString => EmptyString
  | String c r => if is_space c then lstrip r else s
  end.

(** [s.rstrip()] *)
Fixpoint rstrip (s : string) : string :=
  match s with
  | EmptyString => EmptyString
  | String c r =>
      match rstrip r with
      | EmptyString => if is_space c then EmptyString else String c EmptyString
      | r' => String c r'
      end
  end.

(** [s.strip()] *)
Definition strip (s : string) : string := rstrip (lstrip s).

(** [s.split()]: the maximal runs of non-whitespace characters. *)
Fixpoint split (s : string) : list string :=
  match s with
  | EmptyString => []
  | String c r =>
      if is_space c then split r
      else match r with
           | EmptyString => [String c EmptyString]
           | String d _ =>
               if is_space d then String c EmptyString :: split r
               else match split r with
                    | w :: ws => String c w :: ws
                    | [] => [String c EmptyString]
                    end
           end
  end.

(** [sep.join(l)] *)
Fixpoint join (sep : string) (l : list string) : string :=
  match l with
  | [] => EmptyString
  | [w] => w
  | w :: ws => w ++ sep ++ join sep ws
  end.

(** [s.startswith(p)] *)
Definition startswith (s p : string) : bool := String.prefix p s.

(** [needle in s] *)
Fixpoint contains (needle s : string) : bool :=
  String.prefix needle s ||
  match s with
  | EmptyString => false
  | String _ r => contains needle r
  end.

Fixpoint take (n : nat) (s : string) : string :=
  match n, s with
  | S k, String c r => String c (take k r)
  | _, _ => EmptyString
  end.

Fixpoint drop (n : nat) (s : string) : string :=
  match n, s with
  | S k, String _ r => drop k r
  | _, _ => s
  end.

Definition len (s : string) : Z := Z.of_nat (String.length s).

(** [s[:k]] for any integer [k] (a negative [k] counts from the end). *)
Definition slice_to (k : Z) (s : string) : string :=
  if (0 <=? k)%Z then take (Z.to_nat k) s
  else take (Z.to_nat (len s + k)) s.

(** [s[i:k]] for [0 <= i] and any integer [k]. *)
Definition slice (i k : Z) (s : string) : string :=
  let stop := if (0 <=? k)%Z then k else Z.max 0 (len s + k) in
  take (Z.to_nat (stop - i)) (drop (Z.to_nat i) s).

(** [re.sub('[...]', repl, s)] for a character class given as a predicate
    and a one-character replacement. *)
Fixpoint sub_class (cls : ascii -> bool) (repl : ascii) (s : string) : string :=
  match s with
  | EmptyString => EmptyString
  | String c r => String (if cls c then repl else c) (sub_class cls repl r)
  end.

Fixpoint all_chars (p : ascii -> bool) (s : string) : bool :=
  match s with
  | EmptyString => true
  | String c r => p c && all_chars p r
  end.

Fixpoint any_char (p : ascii -> bool) (s : string) : bool :=
  match s with
  | EmptyString => false
  | String c r => p c || any_char p r
  end.

(** [s.endswith(suffix)] *)
Definition endswith (s suffix : string) : bool :=
  (String.length suffix <=? String.length s)%nat
  && (drop (String.length s - String.length suffix) s =? suffix).

Fixpoint rfind_from (c : ascii) (s : string) (i last : Z) : Z :=
  match s with
  | EmptyString => last
  | String d r => rfind_from c r (i + 1) (if Ascii.eqb d c then i else last)
  end.

(** [s.rfind(c)] for a one-character [c]: the last index, or [-1]. *)
Definition rfind (c : ascii) (s : string) : Z := rfind_from c s 0 (-1).

(** [c * n]: the character [c] repeated [n] times. *)
Fixpoint replicate (n : nat) (c : ascii) : string :=
  match n with
  | O => EmptyString
  | S k => String c (replicate k c)
  end.

(** [str(n)] for an integer. *)
Definition str_of_Z (n : Z) : string := NilZero.string_of_int (Z.to_int n).

(** [x in l] for a list of strings. *)
Definition in_list (x : string) (l : list string) : bool :=
  existsb (String.eqb x) l.

End PyStr.

(** ** Python values, exceptions and JSON *)

Abbreviation bytes := (list Byte.byte).

Inductive exn_class :=
| APIRateLimitError
| JSONDecodeError
| KeyError
| TypeError
| AttributeError
| OtherError.

(** An exception object: its class and [str(e)]. *)
Record exn := mkExn { exn_cls : exn_class; exn_str : string }.

Definition exn_class_eqb (a b : exn_class) : bool :=
  match a, b with
  | APIRateLimitError, APIRateLimitError
  | JSONDecodeError, JSONDecodeError
  | KeyError, KeyError
  | TypeError, TypeError
  | AttributeError, AttributeError
  | OtherError, OtherError => true
  | _, _ => false
  end.

(** What [json.loads] returns.  A number keeps its Python [str] and
    whether it is non-zero; an object is the key-value list of the
    resulting [dict] (first binding wins on lookup). *)
#[local] Set Warnings "-register-all".
Inductive json :=
| JNull
| JBool (b : bool)
| JNum (repr : string) (nonzero : bool)
| JStr (s : string)
| JArr (items : list json)
| JObj (fields : list (string * json)).

Coercion JStr : string >-> json.
Coercion JBool : bool >-> json.

Module Py.
Import PyStr.

(** Truth value of an object, as tested by [if x:]. *)
Definition truthy (v : json) : bool :=
  match v with
  | JNull => false
  | JBool b => b
  | JNum _ nz => nz
  | JStr s => negb (s =? "")
  | JArr l => match l with [] => false | _ => true end
  | JObj l => match l with [] => false | _ => true end
  end.

(** [if s:] for an optional string ([None] or a [str]). *)
Definition truthy_opt (o : option string) : bool :=
  match o with
  | None => false
  | Some s => negb (s =? "")
  end.

Fixpoint assoc {A : Type} (k : string) (l : list (string * A)) : option A :=
  match l with
  | [] => None
  | (k', v) :: r => if k' =? k then Some v else assoc k r
  end.

Definition is_str (s : string) (v : json) : bool :=
  match v with
  | JStr s' => s' =? s
  | _ => false
  end.

(** [key in v] for a string [key]: key membership in a dict, element
    membership in a list, substring test in a string, [TypeError]
    otherwise. *)
Definition contains_key (key : string) (v : json) : bool + exn :=
  match v with
  | JObj l => inl (match assoc key l with Some _ => true | None => false end)
  | JArr l => inl (existsb (is_str key) l)
  | JStr s => inl (contains key s)
  | _ => inr (mkExn TypeError "argument is not iterable")
  end.

(** [v[key]] for a string [key]. *)
Definition getitem (v : json) (key : string) : json + exn :=
  match v with
  | JObj l =>
      match assoc key l with
      | Some x => inl x
      | None => inr (mkExn KeyError key)
      end
  | _ => inr (mkExn TypeError "indices must be integers")
  end.

(** [v.get(key, default)] *)
Definition get (v : json) (key : string) (default : json) : json + exn :=
  match v with
  | JObj l =>
      match assoc key l with
      | Some x => inl x
      | None => inl default
      end
  | _ => inr (mkExn AttributeError "object has no attribute 'get'")
  end.

(** [v == s] for a string literal [s]. *)
Definition eq_str (v : json) (s : string) : bool := is_str s v.

End Py.

(** ** processing_component.py *)

Module processing_component.
Import PyStr Py.

Definition MAPPING_COLUMNS : list string := ["Full Name"; "Short Form"].
Definition MAX_RETRIES : nat := 5.
Definition INITIAL_WAIT : Z := 1.
Definition MAX_WAIT : Z := 32.

(** *** The mappings table

    A [pandas.DataFrame] of text columns, in column order.  A cell is a
    string or NaN (an empty CSV field).  A column with a string in it
    holds objects; a column of NaN only is held as numbers, which the
    [.str] accessor rejects. *)

Inductive cell := CStr (s : string) | CNaN.

Definition DataFrame := list (string * list cell).

Definition nrows (df : DataFrame) : nat :=
  match df with
  | [] => 0
  | (_, col) :: _ => List.length col
  end.

(** [df.empty]: some axis has length zero. *)
Definition df_empty (df : DataFrame) : bool :=
  match df with
  | [] => true
  | _ => (nrows df =? 0)%nat
  end.

(** [pd.DataFrame(columns=cols)] *)
Definition empty_frame (cols : list string) : DataFrame :=
  map (fun c => (c, [])) cols.

(** [df[name] = col]: replaces the column in place when [name] exists,
    appends it as the last column otherwise. *)
Fixpoint set_column (name : string) (col : list cell) (df : DataFrame) : DataFrame :=
  match df with
  | [] => [(name, col)]
  | (n, c) :: r => if n =? name then (n, col) :: r else (n, c) :: set_column name col r
  end.

(** The lambda of line 101 after [.str.upper().str.strip()], and the
    same steps on the payee (lines 96-98). *)
Definition standardize (s : string) : string :=
  join " " (split (strip (upper s))).

Definition is_nan (c : cell) : bool :=
  match c with
  | CNaN => true
  | CStr _ => false
  end.

(** [.apply(lambda x: ' '.join(x.split()))] after [.str.upper()] and
    [.str.strip()]: the string methods keep NaN, and the lambda fails on
    it. *)
Fixpoint standardize_cells (col : list cell) : list string + exn :=
  match col with
  | [] => inl []
  | CNaN :: _ => inr (mkExn AttributeError "'float' object has no attribute 'split'")
  | CStr s :: r =>
      match standardize_cells r with
      | inl l => inl (standardize s :: l)
      | inr e => inr e
      end
  end.

(** [series.str.upper().str.strip().apply(lambda x: ' '.join(x.split()))].
    A column with rows that holds no string at all is read from the file
    as a column of numbers, and the [.str] accessor refuses it (the
    text is that of pandas 1 and 2). *)
Definition standardize_column (col : list cell) : list string + exn :=
  match col with
  | [] => inl []
  | _ :: _ =>
      if forallb is_nan col
      then inr (mkExn AttributeError "Can only use .str accessor with string values!")
      else standardize_cells col
  end.

(** Position of the first row whose standardized name equals the key. *)
Fixpoint first_match (key : string) (names : list string) : option nat :=
  match names with
  | [] => None
  | n :: r => if n =? key then Some 0%nat
              else option_map S (first_match key r)
  end.

Definition cell_value (c : cell) : json :=
  match c with
  | CStr s => JStr s
  | CNaN => JNum "nan" true
  end.

(** [get_payee_shortform(payee, mappings_df)]: the value returned (or
    the exception raised) and the frame as the call leaves it. *)
Definition get_payee_shortform (payee : json) (mappings_df : DataFrame)
  : (json + exn) * DataFrame :=
  if df_empty mappings_df then (inl payee, mappings_df) else
  match payee with
  | JStr p =>
      let payee_upper := standardize p in
      match assoc "Full Name" mappings_df with
      | None => (inr (mkExn KeyError "Full Name"), mappings_df)
      | Some full =>
          match standardize_column full with
          | inr e => (inr e, mappings_df)
          | inl names =>
              let df' := set_column "Standardized_Name" (map CStr names) mappings_df in
              match first_match payee_upper names with
              | Some i =>
                  match assoc "Short Form" df' with
                  | None => (inr (mkExn KeyError "Short Form"), df')
                  | Some short => (inl (cell_value (nth i short CNaN)), df')
                  end
              | None => (inl payee, df')
              end
          end
      end
  | _ => (inr (mkExn AttributeError "object has no attribute 'upper'"), mappings_df)
  end.

(** *** Naming *)

(** The character class of line 180: slash (written with an escaping
    backslash), star, question mark, colon, double quote, angle brackets
    and bar.  The backslash itself is not in the class. *)
Definition invalid_char (c : ascii) : bool :=
  existsb (Ascii.eqb c) [chr 47; chr 42; chr 63; chr 58; chr 34; chr 60; chr 62; chr 124].

Definition sanitize_filename (filename : string) : string :=
  sub_class invalid_char "_"%char filename.

Section Naming.

(** [str(v)] inside an f-string, for a value that is not a string. *)
Variable format_value : json -> string.

Definition fmt (v : json) : string :=
  match v with
  | JStr s => s
  | _ => format_value v
  end.

Definition WMC : string := "WEALTH MANAGEMENT CUBE LIMITED".
Definition NOMINEE : string := "WMC NOMINEE LIMITED-CLIENT TRUST ACCOUNT".

Definition generate_filename
  (key_identifier payer payee currency is_trailer_fee is_management_fee : json)
  : string + exn :=
  match payee with
  | JStr p =>
      let sanitized_payee := sanitize_filename p in
      if truthy is_trailer_fee then
        if eq_str payer WMC then
          inl (fmt key_identifier ++ " WMC-" ++ sanitized_payee ++ "_T.pdf")
        else if eq_str payer NOMINEE then
          inl (fmt currency ++ " " ++ fmt key_identifier ++ " " ++ sanitized_payee ++ "_T.pdf")
        else
          inl (sanitized_payee ++ "_" ++ fmt key_identifier ++ "_" ++ fmt currency ++ "_T.pdf")
      else if truthy is_management_fee
              && in_list (upper p) ["OFS"; "OREANA FINANCIAL SERVICES LIMITED"] then
        if eq_str payer WMC then
          inl (fmt key_identifier ++ " WMC-" ++ sanitized_payee ++ " MF.pdf")
        else if eq_str payer NOMINEE then
          inl (fmt currency ++ " " ++ fmt key_identifier ++ " " ++ sanitized_payee ++ " MF.pdf")
        else
          inl (sanitized_payee ++ "_" ++ fmt key_identifier ++ "_" ++ fmt currency ++ " MF.pdf")
      else
        if eq_str payer WMC then
          inl (fmt key_identifier ++ " WMC-" ++ sanitized_payee ++ ".pdf")
        else if eq_str payer NOMINEE then
          inl (fmt currency ++ " " ++ fmt key_identifier ++ " " ++ sanitized_payee ++ ".pdf")
        else
          inl (sanitized_payee ++ "_" ++ fmt key_identifier ++ "_" ++ fmt currency ++ ".pdf")
  | _ => inr (mkExn TypeError "expected string or bytes-like object")
  end.

(** The part of the generated name that does not depend on the fee
    flags (used to state the suffix rule). *)
Definition filename_stem (key_identifier payer currency : json) (payee : string) : string :=
  let sp := sanitize_filename payee in
  if eq_str payer WMC then fmt key_identifier ++ " WMC-" ++ sp
  else if eq_str payer NOMINEE then
    fmt currency ++ " " ++ fmt key_identifier ++ " " ++ sp
  else sp ++ "_" ++ fmt key_identifier ++ "_" ++ fmt currency.

End Naming.

(** *** The retry decorator (tenacity)

    [@retry(retry=..., wait=..., stop=stop_after_attempt(n), reraise=True)]
    calls the function; a result is returned; an exception the [retry]
    predicate rejects is raised at once; otherwise, when the attempt
    number has reached [n], the last exception is raised again, and else
    the decorator sleeps [wait(attempt_number)] and makes the next
    attempt.  Attempts are numbered from 1. *)

Section Tenacity.

Context {St A : Type}.
Variable retry : exn -> bool.
Variable wait : nat -> Z.
Variable max_attempt_number : nat.
Variable sleep : Z -> St -> St.
Variable fn : St -> (A + exn) * St.

Equations? retrying (attempt_number : nat) (st : St) : (A + exn) * St
  by wf (max_attempt_number - attempt_number) lt :=
retrying n st with fn st := {
  | (inl v, st1) := (inl v, st1);
  | (inr e, st1) with retry e := {
    | false := (inr e, st1);
    | true with le_lt_dec max_attempt_number n := {
      | left _ := (inr e, st1);
      | right _ := retrying (S n) (sleep (wait n) st1) } } }.
Proof. lia. Qed.

End Tenacity.

(** [retry_if_exception_type(cls)] *)
Definition retry_if_exception_type (cls : exn_class) (e : exn) : bool :=
  exn_class_eqb (exn_cls e) cls.

(** [wait_exponential(multiplier=m, max=mx)]: [m * 2 ** (attempt - 1)],
    kept between 0 and [mx]. *)
Definition wait_exponential (multiplier max : Z) (attempt_number : nat) : Z :=
  Z.max 0 (Z.min (multiplier * 2 ^ (Z.of_nat attempt_number - 1)) max).

(** *** External collaborators of the processing component *)

(** One call of [model.generate_content]: it raises, or returns a
    response object that is falsy or truthy and whose [.text] is a string
    or raises. *)
Inductive api_outcome :=
| Raises (e : exn)
| Responds (is_truthy : bool) (text : string + exn).

(** Opening and rendering a PDF with PyMuPDF. *)
Inductive render_outcome :=
| NoPages
| Rendered (png : bytes)
| RenderFails (e : exn).

Record env := mkEnv {
  generate_content : nat -> api_outcome;  (* the n-th call made, from 0 *)
  fitz_render : bytes -> render_outcome;
  configure : string -> option exn;       (* genai.configure and the model constructor *)
  json_loads : string -> json + exn;
  format_value : json -> string           (* str(v) for a non-string v *)
}.

(** The mutable state a run touches. *)
Record pstate := mkPState {
  frame : DataFrame;      (* the object bound to mappings_df *)
  api_calls : nat;        (* calls of generate_content made so far *)
  slept : list Z;         (* arguments of time.sleep, oldest first *)
  namings : list (list json)  (* argument lists of generate_filename, oldest first *)
}.

Definition time_sleep (d : Z) (st : pstate) : pstate :=
  mkPState (frame st) (api_calls st) (slept st ++ [d])%list (namings st).

Definition count_call (st : pstate) : pstate :=
  mkPState (frame st) (S (api_calls st)) (slept st) (namings st).

Definition set_frame (df : DataFrame) (st : pstate) : pstate :=
  mkPState df (api_calls st) (slept st) (namings st).

Definition log_naming (args : list json) (st : pstate) : pstate :=
  mkPState (frame st) (api_calls st) (slept st) (namings st ++ [args])%list.

Section Processing.

Variable E : env.

(** Lines 108-123. *)
Definition pdf_to_image (pdf_bytes : bytes) : option bytes * option string :=
  match fitz_render E pdf_bytes with
  | NoPages => (None, Some "Uploaded PDF is empty.")
  | Rendered png => (Some png, None)
  | RenderFails e => (None, Some ("Error converting PDF to image: " ++ exn_str e))
  end.

(** Lines 125-129. *)
Definition is_rate_limit_error (e : exn) : bool :=
  exn_class_eqb (exn_cls e) APIRateLimitError || contains "429" (exn_str e).

(** The body of [call_gemini_api_with_retry] (lines 138-146): one
    attempt. *)
Definition call_gemini_api_attempt (st : pstate) : (string + exn) * pstate :=
  let attempt :=
    match generate_content E (api_calls st) with
    | Raises e => inr e
    | Responds is_truthy text =>
        if negb is_truthy then inr (mkExn APIRateLimitError "Empty response from API")
        else match text with
             | inl t => inl (strip t)
             | inr e => inr e
             end
    end in
  match attempt with
  | inl t => (inl t, count_call st)
  | inr e =>
      if contains "429" (exn_str e)
      then (inr (mkExn APIRateLimitError ("Rate limit exceeded: " ++ exn_str e)), count_call st)
      else (inr e, count_call st)
  end.

(** The decorated function (lines 131-146). *)
Definition call_gemini_api_with_retry (st : pstate) : (string + exn) * pstate :=
  retrying (retry_if_exception_type APIRateLimitError)
           (wait_exponential INITIAL_WAIT MAX_WAIT)
           MAX_RETRIES time_sleep call_gemini_api_attempt 1 st.

(** Lines 148-176. *)
Definition call_gemini_api (api_key : string) (st : pstate)
  : (option string * option string) * pstate :=
  if api_key =? "" then ((None, Some "Missing Gemini API key."), st) else
  match configure E api_key with
  | Some e => ((None, Some ("Error in API configuration: " ++ exn_str e)), st)
  | None =>
      let st1 := time_sleep 1 st in
      match call_gemini_api_with_retry st1 with
      | (inl response_text, st2) => ((Some response_text, None), st2)
      | (inr e, st2) =>
          if exn_class_eqb (exn_cls e) APIRateLimitError then
            ((None, Some ("Rate limit error after " ++ str_of_Z (Z.of_nat MAX_RETRIES)
                          ++ " retries. " ++ "Last error: " ++ exn_str e ++ ". "
                          ++ "Please wait a few minutes before trying again.")), st2)
          else
            ((None, Some ("Unexpected error during API call: " ++ exn_str e)), st2)
      end
  end.

(** The dictionary [process_echeque] returns; the last three keys are
    the ones [process_echeques] adds. *)
Record processed := mkProcessed {
  original_data : json;
  original_payee : json;
  mapped_payee : json;
  generated_filename : string;
  pdf_data : bytes;
  next_step : json;
  original_filename : option string;
  email_subject : option string;
  email_date : option string
}.

Definition required_fields : list string :=
  ["date"; "payee"; "key_identifier"; "payer"; "currency";
   "is_trailer_fee"; "is_management_fee"].

(** [all(field in parsed_json for field in fields)] *)
Fixpoint all_present (parsed_json : json) (fields : list string) : bool + exn :=
  match fields with
  | [] => inl true
  | f :: r =>
      match contains_key f parsed_json with
      | inr e => inr e
      | inl false => inl false
      | inl true => all_present parsed_json r
      end
  end.

(** [[field for field in fields if field not in parsed_json]] *)
Fixpoint missing_fields (parsed_json : json) (fields : list string) : list string + exn :=
  match fields with
  | [] => inl []
  | f :: r =>
      match contains_key f parsed_json with
      | inr e => inr e
      | inl b =>
          match missing_fields parsed_json r with
          | inr e => inr e
          | inl l => inl (if b then l else f :: l)
          end
      end
  end.

Definition Result (A : Type) : Type := pstate -> (A + exn) * pstate.

Definition ret {A} (a : A) : Result A := fun st => (inl a, st).

Definition bind {A B} (c : Result A) (k : A -> Result B) : Result B :=
  fun st => match c st with
            | (inl a, st1) => k a st1
            | (inr e, st1) => (inr e, st1)
            end.

Definition lift {A} (r : A + exn) : Result A := fun st => (r, st).

Notation "x <- c ;; k" := (bind c (fun x => k))
  (at level 61, c at next level, right associativity).

(** Lines 250-258: the payee the name is built from. *)
Definition resolve_payee (payer original_payee : json) : Result json :=
  if negb (eq_str payer NOMINEE) then
    fun st =>
      let (r, df) := get_payee_shortform original_payee (frame st) in
      (r, set_frame df st)
  else ret original_payee.

(** Lines 238-240: the response without its code fence. *)
Definition clean_response_of (raw_response : string) : string :=
  let clean_response := strip raw_response in
  if startswith clean_response "```json" then slice 7 (-3) clean_response
  else clean_response.

(** The [try] block of lines 236-278. *)
Definition process_response (pdf : bytes) (raw_response : option string)
  : Result (option processed * option string) :=
  match raw_response with
  | None => lift (inr (mkExn AttributeError "'NoneType' object has no attribute 'strip'"))
  | Some raw =>
      let clean_response := clean_response_of raw in
      parsed_json <- lift (json_loads E clean_response) ;;
      complete <- lift (all_present parsed_json required_fields) ;;
      if negb complete then
        missing <- lift (missing_fields parsed_json required_fields) ;;
        ret (None, Some ("Missing required fields in API response: " ++ join ", " missing))
      else
        original_payee <- lift (getitem parsed_json "payee") ;;
        payer <- lift (getitem parsed_json "payer") ;;
        shortened_payee <- resolve_payee payer original_payee ;;
        key_identifier <- lift (getitem parsed_json "key_identifier") ;;
        payer <- lift (getitem parsed_json "payer") ;;
        currency <- lift (getitem parsed_json "currency") ;;
        is_trailer_fee <- lift (getitem parsed_json "is_trailer_fee") ;;
        is_management_fee <- lift (getitem parsed_json "is_management_fee") ;;
        filename <-
          (fun st =>
             (generate_filename (format_value E) key_identifier payer shortened_payee
                currency is_trailer_fee is_management_fee,
              log_naming [key_identifier; payer; shortened_payee; currency;
                          is_trailer_fee; is_management_fee] st)) ;;
        next <- lift (get parsed_json "next_step" (JStr "Unknown")) ;;
        ret (Some (mkProcessed parsed_json original_payee shortened_payee filename
                     pdf next None None None), None)
  end.

(** [process_echeque(pdf_data, gemini_api_key, mappings_df)] with the
    table object supplied by the caller (it is [frame st]). *)
Definition process_echeque (pdf : bytes) (gemini_api_key : string) (st : pstate)
  : (option processed * option string) * pstate :=
  let (image_bytes, error) := pdf_to_image pdf in
  if truthy_opt error then ((None, error), st) else
  let '((raw_response, error), st1) := call_gemini_api gemini_api_key st in
  if truthy_opt error then ((None, error), st1) else
  match process_response pdf raw_response st1 with
  | (inl r, st2) => (r, st2)
  | (inr e, st2) =>
      if exn_class_eqb (exn_cls e) JSONDecodeError
      then ((None, Some ("Error parsing JSON response: " ++ exn_str e)), st2)
      else ((None, Some ("Error processing e-cheque: " ++ exn_str e)), st2)
  end.

(** An element of [downloaded_files]. *)
Record file_info := mkFile {
  filename : string;
  content : bytes;
  fi_email_subject : option string;
  fi_email_date : option string
}.

(** An element of the [errors] list. *)
Record failure := mkFailure { failed_filename : string; error_text : string }.

Definition or_unknown (o : option string) : string :=
  match o with Some s => s | None => "Unknown" end.

(** The loop of lines 296-326, from index [i]. *)
Fixpoint process_loop (gemini_api_key : string) (i : nat) (files : list file_info)
  (processed_files : list processed) (errors : list failure) (st : pstate)
  : (list processed * list failure) * pstate :=
  match files with
  | [] => ((processed_files, errors), st)
  | file :: rest =>
      let st0 := if (0 <? i)%nat then time_sleep 2 st else st in
      let '((result, error), st1) := process_echeque (content file) gemini_api_key st0 in
      if truthy_opt error then
        process_loop gemini_api_key (S i) rest processed_files
          (errors ++ [mkFailure (filename file) (or_unknown error)])%list st1
      else
        match result with
        | Some r =>
            let r' := mkProcessed (original_data r) (original_payee r) (mapped_payee r)
                        (generated_filename r) (pdf_data r) (next_step r)
                        (Some (filename file))
                        (Some (or_unknown (fi_email_subject file)))
                        (Some (or_unknown (fi_email_date file))) in
            process_loop gemini_api_key (S i) rest (processed_files ++ [r'])%list errors st1
        | None =>
            process_loop gemini_api_key (S i) rest processed_files
              (errors ++ [mkFailure (filename file)
                            ("Unexpected error: "
                             ++ "'NoneType' object does not support item assignment")])%list
              st1
        end
  end.

(** [load_mappings()] reads the CSV file: a frame, or an error text. *)
Definition initial_frame (loaded : DataFrame + string) : DataFrame :=
  match loaded with
  | inl df => df
  | inr _ => empty_frame MAPPING_COLUMNS
  end.

(** [process_echeques(downloaded_files, gemini_api_key)].  [loaded] is
    what [load_mappings()] returned; the run starts with no call made
    and nothing slept. *)
Definition process_echeques (loaded : DataFrame + string)
  (downloaded_files : list file_info) (gemini_api_key : string)
  : (list processed * list failure) * pstate :=
  process_loop gemini_api_key 0 downloaded_files [] []
    (mkPState (initial_frame loaded) 0 [] []).

End Processing.

End processing_component.

(** ** The naming rules as the specification words them

    These definitions follow the specification's text (sections 3 and
    4.3); the theorems compare them with [generate_filename]. *)

Module Spec.
Import PyStr.

Inductive FeeClass := FeeNone | Trailer | Management.

Definition allow_list : list string := ["OFS"; "OREANA FINANCIAL SERVICES LIMITED"].

(** Case-insensitive equality of two names. *)
Definition ci_equal (a b : string) : bool := upper a =? upper b.

Definition in_allow_list (payee : string) : bool :=
  existsb (ci_equal payee) allow_list.

Definition feeClass (isTrailerFee isManagementFee : bool) (resolvedPayee : string) : FeeClass :=
  if isTrailerFee then Trailer
  else if isManagementFee && in_allow_list resolvedPayee then Management
  else FeeNone.



(** The text of a name without the whitespace around it and with every
    run of whitespace inside it replaced by one space, written character
    by character: [started] says that a character of the name has been
    written, [gap] that whitespace has been passed since. *)
Fixpoint collapse (started gap : bool) (s : string) : string :=
  match s with
  | EmptyString => EmptyString
  | String c r =>
      if is_space c then collapse started true r
      else if started && gap then String " " (String c (collapse true false r))
      else String c (collapse true false r)
  end.

(** Section 4.3, the normalized key: uppercased, trimmed, inner
    whitespace collapsed. *)
Definition normalize (name : string) : string := collapse false false (upper name).


Definition fee_suffix (f : FeeClass) : string :=
  match f with
  | FeeNone => ""
  | Trailer => "_T"
  | Management => " MF"
  end.


End Spec.

(** ** teams_component.py *)

Module teams_component.
Import PyStr Py.

(** *** File names *)

(** The character class of line 16: double quote, star, colon, angle
    brackets, question mark, slash, backslash, bar, hash, percent,
    braces and tilde. *)
Definition invalid_char (c : ascii) : bool :=
  existsb (Ascii.eqb c)
    [chr 34; chr 42; chr 58; chr 60; chr 62; chr 63; chr 47; chr 92;
     chr 124; chr 35; chr 37; chr 123; chr 125; chr 126].

(** [re.sub(r'^\.+', '', s)] *)
Fixpoint strip_leading_dots (s : string) : string :=
  match s with
  | String c r => if Ascii.eqb c "."%char then strip_leading_dots r else s
  | EmptyString => EmptyString
  end.

(** [os.path.splitext]: the extension starts at the last dot of the last
    path component, unless only dots precede it there. *)
Definition splitext (p : string) : string * string :=
  let sepIndex := rfind "/"%char p in
  let dotIndex := rfind "."%char p in
  if (sepIndex <? dotIndex)%Z then
    if all_chars (Ascii.eqb "."%char) (slice (sepIndex + 1) dotIndex p)
    then (p, EmptyString)
    else (take (Z.to_nat dotIndex) p, drop (Z.to_nat dotIndex) p)
  else (p, EmptyString).

(** Lines 13-27. *)
Definition sanitize_filename (filename : string) : string :=
  let sanitized := sub_class invalid_char "_"%char filename in
  let sanitized := strip sanitized in
  let sanitized := strip_leading_dots sanitized in
  if (240 <? len sanitized)%Z then
    let (name_part, ext_part) := splitext sanitized in
    slice_to (240 - len ext_part) name_part ++ ext_part
  else sanitized.

(** The tail [.*\.pdf$] of both patterns: the rest of the name, less one
    final newline, has no newline and ends in [.pdf]. *)
Definition matches_any_pdf (s : string) : bool :=
  let body := if endswith s (String (chr 10) EmptyString)
              then take (String.length s - 1) s else s in
  endswith body ".pdf" && negb (any_char (Ascii.eqb (chr 10)) body).

Fixpoint skip_digits (s : string) : string :=
  match s with
  | String c r => if is_digit c then skip_digits r else s
  | EmptyString => EmptyString
  end.

Definition starts_with_digit (s : string) : bool :=
  match s with
  | String c _ => is_digit c
  | EmptyString => false
  end.

(** [re.match(r'^\d+ WMC-.*\.pdf$', s)] *)
Definition matches_wmc (s : string) : bool :=
  starts_with_digit s
  && let r := skip_digits s in
     startswith r " WMC-" && matches_any_pdf (drop 5 r).

(** [re.match(r'^[A-Z]{3} \d+ .*\.pdf$', s)] *)
Definition matches_nominee (s : string) : bool :=
  match s with
  | String a (String b (String c (String sp r))) =>
      is_upper a && is_upper b && is_upper c && Ascii.eqb sp " "%char
      && starts_with_digit r
      && let r' := skip_digits r in
         startswith r' " " && matches_any_pdf (drop 1 r')
  | _ => false
  end.

(** Lines 151-170: folder id, folder path and folder name. *)
Definition determine_target_folder (filename finance_team_id access_token : string)
  : string * string * string :=
  if matches_wmc filename then
    ("01OU6MNL3KE3XP2T5JMZC244U33CGKOAMH",
     "Finance Staff/Bank/Cashflow/WMC E-cheque", "WMC E-cheque")
  else if matches_nominee filename then
    ("01OU6MNL5F3ZCFDTEACRAJDOX2G4NUMX72",
     "Finance Staff/Bank/E cheque WMC Nominee", "E cheque WMC Nominee")
  else
    ("01OU6MNL3KE3XP2T5JMZC244U33CGKOAMH",
     "Finance Staff/Bank/Cashflow/WMC E-cheque", "WMC E-cheque").

(** *** Calls to the remote store

    Each HTTP call the component makes, with the values interpolated in
    its URL, headers and body. *)

Inductive request :=
| GetSite (access_token team_id : string)
| GetDrives (access_token site_id : string)
| GetChildrenByName (access_token drive_id folder_id name : string)
| PutContentById (access_token drive_id item_id : string) (data : bytes)
| PutContentByPath (access_token drive_id folder_id name : string) (data : bytes)
| PostSessionById (access_token drive_id item_id conflictBehavior : string)
| PostSessionByPath (access_token drive_id folder_id name conflictBehavior : string)
| PutChunk (upload_url : string) (content_length range_start range_end range_total : Z)
           (data : bytes).

Definition graph : string := "https://graph.microsoft.com/v1.0".

Definition url_of (r : request) : string :=
  match r with
  | GetSite _ team => graph ++ "/groups/" ++ team ++ "/sites/root"
  | GetDrives _ site => graph ++ "/sites/" ++ site ++ "/drives"
  | GetChildrenByName _ drive folder name =>
      graph ++ "/drives/" ++ drive ++ "/items/" ++ folder
      ++ "/children?$filter=name eq '" ++ name ++ "'"
  | PutContentById _ drive item _ =>
      graph ++ "/drives/" ++ drive ++ "/items/" ++ item ++ "/content"
  | PutContentByPath _ drive folder name _ =>
      graph ++ "/drives/" ++ drive ++ "/items/" ++ folder ++ ":/" ++ name ++ ":/content"
  | PostSessionById _ drive item _ =>
      graph ++ "/drives/" ++ drive ++ "/items/" ++ item ++ "/createUploadSession"
  | PostSessionByPath _ drive folder name _ =>
      graph ++ "/drives/" ++ drive ++ "/items/" ++ folder ++ ":/" ++ name
      ++ ":/createUploadSession"
  | PutChunk url _ _ _ _ _ => url
  end.



(** What [response.json()] gives, as far as the component reads it: a
    site ([webUrl], [id]), a collection ([value], each element reduced to
    its [id]), an upload session ([uploadUrl]); or no JSON at all. *)
Inductive body :=
| NoJson (decode_error : string)
| SiteInfo (webUrl id : option string)
| Listing (value : option (list string))
| SessionInfo (uploadUrl : option string).

(** [detail] is the text an error message quotes: [json.dumps] of the
    body, or [response.text] when the body is not JSON. *)
Record response := mkResponse { status_code : Z; payload : body; detail : string }.

(** A call returns a response, or [requests] raises. *)
Definition answer : Type := response + string.

(** A run of the component: it returns, or makes a call and goes on with
    the answer. *)
Inductive prog (A : Type) : Type :=
| Ret (a : A)
| Send (r : request) (k : answer -> prog A).

Arguments Ret {A} a.
Arguments Send {A} r k.

Fixpoint bind {A B : Type} (p : prog A) (f : A -> prog B) : prog B :=
  match p with
  | Ret a => f a
  | Send r k => Send r (fun a => bind (k a) f)
  end.

(** Running against a store: the value returned, the calls made in
    order with their answers, and the store afterwards. *)
Fixpoint run {A W : Type} (handler : request -> W -> answer * W) (p : prog A) (w : W)
  : A * list (request * answer) * W :=
  match p with
  | Ret a => (a, [], w)
  | Send r k =>
      let (ans, w1) := handler r w in
      let '(a, trace, w2) := run handler (k ans) w1 in
      (a, (r, ans) :: trace, w2)
  end.

Definition outcome : Type := bool * option string.

(** The handler of line 387-388 around every call. *)
Definition call (r : request) (k : response -> prog outcome) : prog outcome :=
  Send r (fun a =>
    match a with
    | inl resp => k resp
    | inr msg => Ret (false, Some ("SharePoint upload error: " ++ msg))
    end).

(** [response.json()] inside the same [try]. *)
Definition with_json (resp : response) (k : body -> prog outcome) : prog outcome :=
  match payload resp with
  | NoJson msg => Ret (false, Some ("SharePoint upload error: " ++ msg))
  | b => k b
  end.

Definition status_in (resp : response) (codes : list Z) : bool :=
  existsb (Z.eqb (status_code resp)) codes.

Definition http_error (what : string) (resp : response) : outcome :=
  (false, Some (what ++ str_of_Z (status_code resp) ++ " - " ++ detail resp)).

Definition site_url_of (b : body) : string :=
  match b with SiteInfo (Some u) _ => u | _ => EmptyString end.

Definition site_id_of (b : body) : option string :=
  match b with SiteInfo _ i => i | _ => None end.

Definition value_of (b : body) : list string :=
  match b with Listing (Some l) => l | _ => [] end.

Definition upload_url_of (b : body) : option string :=
  match b with SessionInfo u => u | _ => None end.

Definition or_none (o : option string) : string :=
  match o with Some s => s | None => "None" end.

Definition small_limit : Z := 4 * 1024 * 1024.
Definition chunk_size : nat := Z.to_nat (1 * 1024 * 1024).

Lemma chunk_size_pos : (0 < chunk_size)%nat.
Proof. unfold chunk_size. lia. Qed.


#[global] Opaque chunk_size.

(** The loop of lines 350-384, with [uploaded] bytes sent so far. *)
Equations? upload_chunks (upload_url : string) (file_data : bytes) (uploaded : nat)
  : prog outcome by wf (List.length file_data - uploaded) lt :=
upload_chunks upload_url file_data uploaded
  with lt_dec uploaded (List.length file_data) := {
  | right _ := Ret (false, Some "Upload completed but unexpected response received");
  | left _ :=
      let total_size := List.length file_data in
      let chunk_data := firstn chunk_size (skipn uploaded file_data) in
      let chunk_length := List.length chunk_data in
      let start := uploaded in
      let end_ := (Z.of_nat uploaded + Z.of_nat chunk_length - 1)%Z in
      call (PutChunk upload_url (Z.of_nat chunk_length) (Z.of_nat start) end_
              (Z.of_nat total_size) chunk_data)
        (fun chunk_response =>
           if negb (status_in chunk_response [200; 201; 202]%Z) then
             Ret (http_error ("Error uploading chunk " ++ str_of_Z (Z.of_nat start)
                              ++ "-" ++ str_of_Z end_ ++ ": ") chunk_response)
           else if status_in chunk_response [200; 201]%Z then Ret (true, None)
           else upload_chunks upload_url file_data (uploaded + chunk_length)) }.
Proof.
  subst chunk_length chunk_data.
  rewrite length_firstn, length_skipn.
  pose proof chunk_size_pos.
  lia.
Qed.

(** Lines 254-386: the transfer, once the probe has set
    [existing_file_id]. *)
Definition transfer (access_token drive_id folder_id file_to_upload : string)
  (file_data : bytes) (existing_file_id : option string) : prog outcome :=
  if (Z.of_nat (List.length file_data) <? small_limit)%Z then
    if truthy_opt existing_file_id then
      call (PutContentById access_token drive_id (or_none existing_file_id) file_data)
        (fun upload_response =>
           if status_in upload_response [200; 201]%Z then Ret (true, None)
           else Ret (http_error "Failed to update content: " upload_response))
    else
      call (PutContentByPath access_token drive_id folder_id file_to_upload file_data)
        (fun upload_response =>
           if status_in upload_response [200; 201]%Z then Ret (true, None)
           else Ret (http_error "Failed to upload content: " upload_response))
  else
    let session :=
      if truthy_opt existing_file_id
      then PostSessionById access_token drive_id (or_none existing_file_id) "replace"
      else PostSessionByPath access_token drive_id folder_id file_to_upload "replace" in
    call session (fun session_response =>
      if negb (status_code session_response =? 200)%Z then
        Ret (http_error "Failed to create upload session: " session_response)
      else
      with_json session_response (fun session_json =>
      let upload_url := upload_url_of session_json in
      if negb (truthy_opt upload_url) then
        Ret (false, Some "No upload URL returned in session response")
      else upload_chunks (or_none upload_url) file_data 0)).

(** Lines 246-252: [existing_file_id] after the probe was answered with
    JSON [check_json] and status 200. *)
Definition first_id (check_json : body) : option string :=
  match value_of check_json with
  | [] => None
  | item_id :: _ => Some item_id
  end.

(** Lines 172-388. *)
Definition upload_with_sharepoint_api
  (access_token finance_team_id folder_path : string) (file_data : bytes)
  (filename folder_id : string) : prog outcome :=
  call (GetSite access_token finance_team_id) (fun response =>
  if negb (status_code response =? 200)%Z then
    Ret (http_error "Error getting SharePoint site: " response)
  else
  with_json response (fun site_info =>
  let site_url := site_url_of site_info in
  let site_id := site_id_of site_info in
  if negb (truthy site_url) || negb (truthy_opt site_id) then
    Ret (false, Some "Error: Could not determine SharePoint site URL or ID")
  else
  call (GetDrives access_token (or_none site_id)) (fun drive_response =>
  if negb (status_code drive_response =? 200)%Z then
    Ret (http_error "Failed to get drives: " drive_response)
  else
  with_json drive_response (fun drives_json =>
  match value_of drives_json with
  | [] => Ret (false, Some "No drives found for site")
  | drive_id :: _ =>
  let safe_filename := sanitize_filename filename in
  let file_to_upload := safe_filename in
  call (GetChildrenByName access_token drive_id folder_id file_to_upload)
    (fun check_response =>
  if (status_code check_response =? 200)%Z then
    with_json check_response (fun check_json =>
      transfer access_token drive_id folder_id file_to_upload file_data
        (first_id check_json))
  else
    transfer access_token drive_id folder_id file_to_upload file_data None)
  end)))).

(** The one request of a single-shot transfer (lines 259-290). *)
Definition single_request (access_token drive_id folder_id file_to_upload : string)
  (file_data : bytes) (existing_file_id : option string) : request :=
  if truthy_opt existing_file_id
  then PutContentById access_token drive_id (or_none existing_file_id) file_data
  else PutContentByPath access_token drive_id folder_id file_to_upload file_data.

(** The request that opens an upload session (lines 310-329). *)
Definition session_request (access_token drive_id folder_id file_to_upload : string)
  (existing_file_id : option string) : request :=
  if truthy_opt existing_file_id
  then PostSessionById access_token drive_id (or_none existing_file_id) "replace"
  else PostSessionByPath access_token drive_id folder_id file_to_upload "replace".

(** The upload URL an answer to the session request provides: status
    200 and a non-empty [uploadUrl]. *)
Definition session_url (a : answer) : option string :=
  match a with
  | inl resp =>
      if (status_code resp =? 200)%Z then
        match payload resp with
        | NoJson _ => None
        | b => if truthy_opt (upload_url_of b) then upload_url_of b else None
        end
      else None
  | inr _ => None
  end.

(** What the probe's answer makes of [existing_file_id]; [None] also
    when the answer ends the call. *)
Definition existing_of (probe : answer) : option string :=
  match probe with
  | inl resp => if (status_code resp =? 200)%Z then first_id (payload resp) else None
  | inr _ => None
  end.

(** The answers to the probe that end the call: [requests] raised, or
    status 200 without a JSON body. *)
Definition probe_aborts (probe : answer) : bool :=
  match probe with
  | inl resp =>
      (status_code resp =? 200)%Z
      && match payload resp with NoJson _ => true | _ => false end
  | inr _ => true
  end.

(** A store that accepts every chunk without completing the upload. *)
Definition accept_all (r : request) (w : unit) : answer * unit :=
  (inl (mkResponse 202 (NoJson EmptyString) EmptyString), tt).

(** The chunk requests the loop makes from offset [uploaded] as long as
    each one is accepted. *)
Definition chunk_plan (upload_url : string) (file_data : bytes) (uploaded : nat)
  : list request :=
  map fst (snd (fst (run accept_all (upload_chunks upload_url file_data uploaded) tt))).

(** An answer that makes the chunk loop go on. *)
Definition accepted (a : answer) : bool :=
  match a with
  | inl resp => (status_code resp =? 202)%Z
  | inr _ => false
  end.

Definition is_chunk (r : request) : bool :=
  match r with PutChunk _ _ _ _ _ _ => true | _ => false end.

Definition data_of (r : request) : bytes :=
  match r with
  | PutChunk _ _ _ _ _ d => d
  | PutContentById _ _ _ d | PutContentByPath _ _ _ _ d => d
  | _ => []
  end.



(** Requests that write to the store. *)
Definition is_write (r : request) : bool :=
  match r with
  | GetSite _ _ | GetDrives _ _ | GetChildrenByName _ _ _ _ => false
  | _ => true
  end.

(** The item name a request carries, if any. *)
Definition name_of (r : request) : option string :=
  match r with
  | GetChildrenByName _ _ _ name
  | PutContentByPath _ _ _ name _
  | PostSessionByPath _ _ _ name _ => Some name
  | _ => None
  end.

(** Lines 496-516. *)
Definition upload_file (access_token drive_id folder_id : string) (file_data : bytes)
  (filename finance_team_id folder_path : string) : prog outcome :=
  upload_with_sharepoint_api access_token finance_team_id folder_path file_data
    filename folder_id.

(** An element of [upload_results]. *)
Record upload_result := mkResult {
  res_filename : string;
  res_original_filename : string;
  success : bool;
  error : option string;
  target_folder : string;
  res_folder_id : string
}.

(** The loop of lines 532-573. *)
Fixpoint upload_loop (token finance_team_id : string) (files : list processing_component.processed)
  (upload_results : list upload_result) : prog (list upload_result) :=
  match files with
  | [] => Ret upload_results
  | file_info :: rest =>
      let original_filename := processing_component.generated_filename file_info in
      let '(target_folder_id, folder_path, folder_name) :=
        determine_target_folder original_filename finance_team_id token in
      bind (upload_file token "None" target_folder_id
              (processing_component.pdf_data file_info)
              original_filename finance_team_id folder_path)
        (fun '(ok, err) =>
           upload_loop token finance_team_id rest
             (upload_results ++
              [mkResult original_filename
                 (processing_component.or_unknown (processing_component.original_filename file_info))
                 ok err folder_name target_folder_id])%list)
  end.

(** [upload_files_to_teams]: [token_result] is what [ensure_valid_token]
    returned (token, expiry, error). *)
Definition upload_files_to_teams (files_to_upload : list processing_component.processed)
  (finance_team_id : string) (token_result : option string * Z * option string)
  : prog (option (list upload_result) * option string * option string * Z) :=
  let '(token, expires_at, err) := token_result in
  if truthy_opt err then Ret (None, err, token, expires_at)
  else
    bind (upload_loop (or_none token) finance_team_id files_to_upload [])
      (fun upload_results => Ret (Some upload_results, None, token, expires_at)).

End teams_component.

(** ** The remote document store *)

(** Modelled from the spec: the remote document store is an external
    service (section 6); this is the four-operation contract the
    delivery protocol relies on -- children of a folder filtered by exact
    name, content written by item id or by folder and name, an upload
    session with a declared conflict behaviour, and range writes against
    a session URL that commit when the last byte arrives.  Site and drive
    lookups answer from fixed tables; any bearer token is accepted. *)
Module GraphStore.
Import PyStr Py teams_component.

Record drive_item := mkItem {
  item_drive : string;
  item_parent : string;
  item_name : string;
  item_id : string;
  item_content : bytes
}.

Inductive target :=
| ById (drive item : string)
| ByPath (drive folder name : string).

Record session := mkSession {
  session_url : string;
  session_target : target;
  session_conflict : string;
  received : bytes
}.

Record store := mkStore {
  sites : list (string * (string * string));   (* team -> (webUrl, site id) *)
  drives : list (string * list string);        (* site id -> drive ids *)
  items : list drive_item;
  sessions : list session;
  issued : nat                                 (* ids and URLs issued so far *)
}.

Definition named (drive folder name : string) (it : drive_item) : bool :=
  (item_drive it =? drive) && (item_parent it =? folder) && (item_name it =? name).

Definition has_id (drive id : string) (it : drive_item) : bool :=
  (item_drive it =? drive) && (item_id it =? id).

Definition children_named (drive folder name : string) (l : list drive_item)
  : list drive_item := filter (named drive folder name) l.

Definition set_content (data : bytes) (it : drive_item) : drive_item :=
  mkItem (item_drive it) (item_parent it) (item_name it) (item_id it) data.

Definition write_where (p : drive_item -> bool) (data : bytes) (l : list drive_item)
  : list drive_item := map (fun it => if p it then set_content data it else it) l.

Definition fresh_id (s : store) : string := "item-" ++ str_of_Z (Z.of_nat (issued s)).
Definition fresh_url (s : store) : string :=
  "https://upload.example/session-" ++ str_of_Z (Z.of_nat (issued s)).

Definition reply (code : Z) (b : body) : answer := inl (mkResponse code b EmptyString).

Definition with_items (l : list drive_item) (s : store) : store :=
  mkStore (sites s) (drives s) l (sessions s) (issued s).

Definition find_session (url : string) (l : list session) : option session :=
  find (fun ses => session_url ses =? url) l.

Definition drop_session (url : string) (l : list session) : list session :=
  filter (fun ses => negb (session_url ses =? url)) l.

(** The items after the whole content is written to a target, [fresh]
    being the id given to a new item. *)
Definition written (t : target) (data : bytes) (fresh : string) (l : list drive_item)
  : list drive_item :=
  match t with
  | ById drive id => write_where (has_id drive id) data l
  | ByPath drive folder name =>
      match children_named drive folder name l with
      | _ :: _ => write_where (named drive folder name) data l
      | [] => (l ++ [mkItem drive folder name fresh data])%list
      end
  end.

(** Writing the whole content to a target: the answer and the store. *)
Definition commit (t : target) (conflict : string) (data : bytes) (s : store)
  : answer * store :=
  match t with
  | ById drive id =>
      if existsb (has_id drive id) (items s)
      then (reply 200 (SiteInfo None (Some id)),
            with_items (written t data (fresh_id s) (items s)) s)
      else (reply 404 (NoJson "itemNotFound"), s)
  | ByPath drive folder name =>
      match children_named drive folder name (items s) with
      | it :: _ =>
          if conflict =? "replace"
          then (reply 200 (SiteInfo None (Some (item_id it))),
                with_items (written t data (fresh_id s) (items s)) s)
          else (reply 409 (NoJson "nameAlreadyExists"), s)
      | [] =>
          (reply 201 (SiteInfo None (Some (fresh_id s))),
           mkStore (sites s) (drives s) (written t data (fresh_id s) (items s))
             (sessions s) (S (issued s)))
      end
  end.

Definition open_session (t : target) (conflict : string) (s : store) : answer * store :=
  (reply 200 (SessionInfo (Some (fresh_url s))),
   mkStore (sites s) (drives s) (items s)
     (mkSession (fresh_url s) t conflict [] :: sessions s) (S (issued s))).

Definition handle (r : request) (s : store) : answer * store :=
  match r with
  | GetSite _ team =>
      match assoc team (sites s) with
      | Some (url, id) => (reply 200 (SiteInfo (Some url) (Some id)), s)
      | None => (reply 404 (NoJson "itemNotFound"), s)
      end
  | GetDrives _ site =>
      match assoc site (drives s) with
      | Some ds => (reply 200 (Listing (Some ds)), s)
      | None => (reply 404 (NoJson "itemNotFound"), s)
      end
  | GetChildrenByName _ drive folder name =>
      (reply 200 (Listing (Some (map item_id (children_named drive folder name (items s))))), s)
  | PutContentById _ drive id data => commit (ById drive id) "replace" data s
  | PutContentByPath _ drive folder name data =>
      commit (ByPath drive folder name) "replace" data s
  | PostSessionById _ drive id conflict =>
      if existsb (has_id drive id) (items s)
      then open_session (ById drive id) conflict s
      else (reply 404 (NoJson "itemNotFound"), s)
  | PostSessionByPath _ drive folder name conflict =>
      open_session (ByPath drive folder name) conflict s
  | PutChunk url clen start end_ total data =>
      match find_session url (sessions s) with
      | None => (reply 404 (NoJson "itemNotFound"), s)
      | Some ses =>
          if ((start =? Z.of_nat (List.length (received ses)))
              && (clen =? Z.of_nat (List.length data))
              && (end_ =? start + clen - 1) && (0 <? clen) && (end_ <? total))%Z
          then
            let got := (received ses ++ data)%list in
            if (Z.of_nat (List.length got) =? total)%Z then
              commit (session_target ses) (session_conflict ses) got
                (mkStore (sites s) (drives s) (items s)
                   (drop_session url (sessions s)) (issued s))
            else
              (reply 202 (NoJson EmptyString),
               mkStore (sites s) (drives s) (items s)
                 (mkSession url (session_target ses) (session_conflict ses) got
                    :: drop_session url (sessions s)) (issued s))
          else (reply 416 (NoJson "invalidRange"), s)
      end
  end.

(** A store in good order: no two items of a folder share a name, and
    every item has a non-empty id. *)
Definition key (it : drive_item) : string * string * string :=
  (item_drive it, item_parent it, item_name it).

(** A target the store can write to: an id names an item of the drive. *)
Definition writable (t : target) (l : list drive_item) : Prop :=
  match t with
  | ById drive id => existsb (has_id drive id) l = true
  | ByPath _ _ _ => True
  end.

(** The target the transfer writes to, given [existing_file_id]. *)
Definition target_of (drive folder name : string) (existing : option string) : target :=
  if truthy_opt existing then ById drive (or_none existing) else ByPath drive folder name.

(** [existing_file_id] as the probe reports it from the items. *)
Definition probed (drive folder name : string) (l : list drive_item) : option string :=
  match children_named drive folder name l with
  | it :: _ => Some (item_id it)
  | [] => None
  end.

(** The drive a team's files go to: the first drive of its site, when
    the site is known and its URL and id are not empty. *)
Definition drive_of (s : store) (team : string) : option string :=
  match assoc team (sites s) with
  | Some (url, site) =>
      if negb (url =? "") && negb (site =? "") then
        match assoc site (drives s) with
        | Some (drive :: _) => Some drive
        | _ => None
        end
      else None
  | None => None
  end.

Definition items_ok (l : list drive_item) : Prop :=
  NoDup (map key l) /\ Forall (fun it => item_id it <> EmptyString) l.

Definition well_formed (s : store) : Prop :=
  NoDup (map key (items s)) /\ Forall (fun it => item_id it <> EmptyString) (items s).

End GraphStore.

(** ** Auxiliary notions used in the statements *)

Module Aux.
Import PyStr Py processing_component.

(** The failures the retry controller treats as rate-limited: an
    exception [is_rate_limit_error] accepts, or a falsy response. *)
Definition rate_limited (o : api_outcome) : bool :=
  match o with
  | Raises e => is_rate_limit_error e
  | Responds false _ => true
  | Responds true (inl _) => false
  | Responds true (inr e) => is_rate_limit_error e
  end.

(** How many of [f 0], ..., [f (n-1)] hold in a row from [f 0]. *)
Fixpoint leading (f : nat -> bool) (n : nat) : nat :=
  match n with
  | O => O
  | S k => if f O then S (leading (fun i => f (S i)) k) else O
  end.

(** Whether a result of the decorated body would be retried. *)
Definition retried (r : string + exn) : bool :=
  match r with
  | inl _ => false
  | inr e => retry_if_exception_type APIRateLimitError e
  end.

Definition has_key (fields : list (string * json)) (f : string) : bool :=
  match assoc f fields with
  | Some _ => true
  | None => false
  end.

(** The required fields a parsed object lacks, in the order checked. *)
Definition lacking (fields : list (string * json)) : list string :=
  filter (fun f => negb (has_key fields f)) required_fields.


(** A word of a normalized key: not empty, no whitespace, no lower-case
    letter. *)
Definition key_word (w : string) : Prop :=
  w <> EmptyString /\ any_char is_space w = false /\ any_char is_lower w = false.



(** The elements of [l] whose flag is [b]. *)
Fixpoint pick {A : Type} (b : bool) (flags : list bool) (l : list A) : list A :=
  match flags, l with
  | f :: fs, x :: xs => if Bool.eqb f b then x :: pick b fs xs else pick b fs xs
  | _, _ => []
  end.

Definition sum_Z (l : list Z) : Z := fold_right Z.add 0%Z l.

(** The state after [a] more calls of the service and the sleeps [ws]. *)
Definition advance (st : pstate) (a : nat) (ws : list Z) : pstate :=
  mkPState (frame st) (api_calls st + a) (slept st ++ ws)%list (namings st).

(** The backoff of the decorator at line 133. *)
Definition backoff (attempt_number : nat) : Z :=
  wait_exponential INITIAL_WAIT MAX_WAIT attempt_number.

(** The state in which the file at index [i] of a batch is processed:
    two seconds after [st] for every file but the first (lines 302-303). *)
Definition entered (i : nat) (st : pstate) : pstate :=
  if (0 <? i)%nat then time_sleep 2 st else st.

(** What [process_echeque] returns for the files of a batch, one call
    per file in the order of the list, each call made in the state the
    call before it left; [i] is the index of the first file and [st]
    the state before it. *)
Fixpoint outcomes (E : env) (key : string) (i : nat) (files : list file_info)
  (st : pstate) : list (option processed * option string) :=
  match files with
  | [] => []
  | f :: rest =>
      let r := process_echeque E (content f) key (entered i st) in
      fst r :: outcomes E key (S i) rest (snd r)
  end.

(** The state after those calls. *)
Fixpoint settled (E : env) (key : string) (i : nat) (files : list file_info)
  (st : pstate) : pstate :=
  match files with
  | [] => st
  | f :: rest =>
      settled E key (S i) rest (snd (process_echeque E (content f) key (entered i st)))
  end.

(** A record with the name, the subject and the date of its file on it
    (lines 316-318). *)
Definition stamped (f : file_info) (r : processed) : processed :=
  mkProcessed (original_data r) (original_payee r) (mapped_payee r)
    (generated_filename r) (pdf_data r) (next_step r)
    (Some (filename f))
    (Some (or_unknown (fi_email_subject f)))
    (Some (or_unknown (fi_email_date f))).

(** Whether a call of [process_echeque] returned a record. *)
Definition succeeded (o : option processed * option string) : bool :=
  match o with
  | (Some _, None) => true
  | _ => false
  end.

(** The records of the files whose call returned a record and no error,
    each stamped with its file. *)
Fixpoint records (l : list (file_info * (option processed * option string)))
  : list processed :=
  match l with
  | [] => []
  | (f, (Some r, None)) :: rest => stamped f r :: records rest
  | _ :: rest => records rest
  end.

(** The failure records of the files whose call returned an error: the
    name of the file and the error text of the call. *)
Fixpoint failures (l : list (file_info * (option processed * option string)))
  : list failure :=
  match l with
  | [] => []
  | (f, (_, Some e)) :: rest => mkFailure (filename f) e :: failures rest
  | _ :: rest => failures rest
  end.

(** What the calls of [upload_file] for the files of a batch return
    and request, one call per file in the order of the list, each call
    made on the store the call before it left. *)
Fixpoint deliveries {W : Type}
  (handler : teams_component.request -> W -> teams_component.answer * W)
  (token team : string) (files : list processed) (w : W)
  : list (teams_component.outcome * list (teams_component.request * teams_component.answer)) :=
  match files with
  | [] => []
  | f :: rest =>
      let '(folder_id, folder_path, _) :=
        teams_component.determine_target_folder (generated_filename f) team token in
      let r := teams_component.run handler
                 (teams_component.upload_file token "None" folder_id (pdf_data f)
                    (generated_filename f) team folder_path) w in
      fst r :: deliveries handler token team rest (snd r)
  end.

(** The store after those calls. *)
Fixpoint delivered {W : Type}
  (handler : teams_component.request -> W -> teams_component.answer * W)
  (token team : string) (files : list processed) (w : W) : W :=
  match files with
  | [] => w
  | f :: rest =>
      let '(folder_id, folder_path, _) :=
        teams_component.determine_target_folder (generated_filename f) team token in
      delivered handler token team rest
        (snd (teams_component.run handler
                (teams_component.upload_file token "None" folder_id (pdf_data f)
                   (generated_filename f) team folder_path) w))
  end.

(** The result record of a file whose upload returned [(ok, err)]: the
    generated name, the name of the source file, what the upload
    returned, and the folder chosen for the generated name
    (lines 561-568). *)
Definition result_of (token team : string) (f : processed)
  (o : teams_component.outcome) : teams_component.upload_result :=
  let '(folder_id, _, folder_name) :=
    teams_component.determine_target_folder (generated_filename f) team token in
  teams_component.mkResult (generated_filename f) (or_unknown (original_filename f))
    (fst o) (snd o) folder_name folder_id.

End Aux.

(** ** Concrete collaborators for the worked examples *)

Module Demo.
Import processing_component.

(** A recognition service that answers every call with HTTP 429. *)
Definition always_429 : nat -> api_outcome :=
  fun _ => Raises (mkExn OtherError "HTTP 429 Too Many Requests").

Definition no_json : string -> json + exn :=
  fun _ => inr (mkExn JSONDecodeError "Expecting value: line 1 column 1 (char 0)").

Definition env_429 : env :=
  mkEnv always_429 (fun b => Rendered b) (fun _ => None) no_json (fun _ => "?").

Definition start : pstate := mkPState [] 0 [] [].

(** Scenario A without [next_step]. *)
Definition scenario_A : json :=
  JObj [("date", JStr "2024-05-02"); ("payee", JStr "AAM Advisory");
        ("key_identifier", JStr "000495");
        ("payer", JStr "WEALTH MANAGEMENT CUBE LIMITED");
        ("currency", JStr "HKD"); ("is_trailer_fee", JBool false);
        ("is_management_fee", JBool false)].

(** Scenario D: every field but [key_identifier]. *)
Definition scenario_D : json :=
  JObj [("date", JStr "2024-05-02"); ("payee", JStr "AAM Advisory");
        ("payer", JStr "WEALTH MANAGEMENT CUBE LIMITED");
        ("currency", JStr "HKD"); ("is_trailer_fee", JBool false);
        ("is_management_fee", JBool false); ("next_step", JStr "Process Payment")].

(** A [json.loads] that knows three texts. *)
Definition loads (s : string) : json + exn :=
  match Py.assoc s [("<A>", scenario_A); ("<D>", scenario_D); ("<L>", JArr [])] with
  | Some v => inl v
  | None => no_json s
  end.

Definition aliases : processing_component.DataFrame :=
  [("Full Name", [CStr "Oreana Financial Services Limited"; CStr "aam  advisory"]);
   ("Short Form", [CStr "OFS"; CStr "AAM"])].


(** A recognition service whose second answer is not JSON. *)
Definition env_second_garbled : env :=
  mkEnv (fun n => if (n =? 1)%nat then Responds true (inl "oops")
                  else Responds true (inl "```json<A>```"))
        (fun b => Rendered b) (fun _ => None) loads (fun _ => "?").

(** Three documents of one message. *)
Definition three_files : list file_info :=
  [mkFile "a.pdf" [Byte.x25] (Some "E-cheque") (Some "2 May 2024");
   mkFile "b.pdf" [Byte.x50] (Some "E-cheque") None;
   mkFile "c.pdf" [Byte.x44] None None].

(** A recognition service that always answers with the fenced text [t]. *)
Definition env_text (t : string) : env :=
  mkEnv (fun _ => Responds true (inl ("```json" ++ t ++ "```")))
        (fun b => Rendered b) (fun _ => None) loads (fun _ => "?").

(** A name with a dot and a space in front. *)
Definition dotted_name : string := ". a.pdf".

(** A name whose extension is 301 characters long. *)
Definition long_extension : string := "a." ++ PyStr.replicate 300 "b"%char.

(** A name of 250 characters without extension and with a space at
    position 240. *)
Definition long_name : string :=
  PyStr.replicate 239 "a"%char ++ " " ++ PyStr.replicate 10 "b"%char.

(** A store with one team site, one drive and no item. *)
Definition empty_store : GraphStore.store :=
  GraphStore.mkStore [("team", ("https://sp.example/sites/finance", "site1"))]
    [("site1", ["drive1"])] [] [] 0.

Definition two_bytes : bytes := [Byte.x25; Byte.x50].

(** The empty store behind a connection whose first call times out;
    the number counts the calls made. *)
Definition flaky (r : teams_component.request) (w : nat * GraphStore.store)
  : teams_component.answer * (nat * GraphStore.store) :=
  let (n, s) := w in
  if (n =? 0)%nat then (inr "timed out", (S n, s))
  else let (a, s') := GraphStore.handle r s in (a, (S n, s')).

(** Two processed records ready for delivery. *)
Definition two_records : list processed :=
  [mkProcessed JNull JNull JNull "000495 WMC-AAM.pdf" two_bytes JNull
     (Some "a.pdf") None None;
   mkProcessed JNull JNull JNull "HKD 000496 AAM.pdf" two_bytes JNull
     None None None].


End Demo.

From Stdlib Require Import Sorting.Sorted.

(** ** Folders, names and costs: auxiliary notions *)

Module Route.
Import PyStr Py.

(** The two destinations of [determine_target_folder]. *)
Definition wmc_folder : string * string * string :=
  ("01OU6MNL3KE3XP2T5JMZC244U33CGKOAMH",
   "Finance Staff/Bank/Cashflow/WMC E-cheque", "WMC E-cheque").

Definition nominee_folder : string * string * string :=
  ("01OU6MNL5F3ZCFDTEACRAJDOX2G4NUMX72",
   "Finance Staff/Bank/E cheque WMC Nominee", "E cheque WMC Nominee").

Definition newline (c : ascii) : bool := Ascii.eqb (chr 10) c.

End Route.

(** ** What a run costs *)

Module Cost.
Import processing_component.

(** A step that neither calls the recognition service nor sleeps. *)
Definition quiet {A : Type} (c : Result A) : Prop :=
  forall st : pstate,
    api_calls (snd (c st)) = api_calls st /\ slept (snd (c st)) = slept st.

(** The calls made and the seconds slept between two states. *)
Definition calls_between (st st' : pstate) : Z :=
  Z.of_nat (api_calls st') - Z.of_nat (api_calls st).

Definition slept_between (st st' : pstate) : Z :=
  Aux.sum_Z (slept st') - Aux.sum_Z (slept st).

End Cost.

(** ** Worked examples for the alias table *)

Module Table.
Import processing_component.

(** An alias table whose second row has no full name. *)
Definition blank_row : DataFrame :=
  [("Full Name", [CStr "Oreana Financial Services Limited"; CNaN]);
   ("Short Form", [CStr "OFS"; CStr "AAM"])].

(** An alias table without any full name. *)
Definition blank_column : DataFrame :=
  [("Full Name", [CNaN; CNaN]);
   ("Short Form", [CStr "OFS"; CStr "AAM"])].

End Table.

(** ** Delivery names *)

Module Names.
Import PyStr teams_component.

(** The name after the first three steps of [sanitize_filename] (lines
    16-22), before its length is looked at. *)
Definition cleaned (filename : string) : string :=
  strip_leading_dots (strip (sub_class invalid_char "_"%char filename)).

(** The extension [os.path.splitext] finds in the cleaned name. *)
Definition extension (filename : string) : string :=
  snd (splitext (cleaned filename)).

End Names.

(** ** What a delivery reports *)

Module Delivery.
Import PyStr Py teams_component.

(** Requests that carry bytes of the payload. *)
Definition carries_data (r : request) : bool :=
  match r with
  | PutContentById _ _ _ _ | PutContentByPath _ _ _ _ _ | PutChunk _ _ _ _ _ _ => true
  | _ => false
  end.

(** An answer that acknowledges a write: status 200 or 201 to a request
    that carries data. *)
Definition confirms (r : request) (a : answer) : bool :=
  carries_data r
  && match a with
     | inl resp => status_in resp [200; 201]%Z
     | inr _ => false
     end.

(** A run of the component reports honestly: it ends in failure with an
    error text, or in success right after an acknowledged write. *)
Fixpoint honest (p : prog outcome) : Prop :=
  match p with
  | Ret (false, Some msg) => msg <> EmptyString
  | Ret _ => False
  | Send r k =>
      forall a : answer,
        (k a = Ret (true, None) /\ confirms r a = true) \/ honest (k a)
  end.

(** An outcome as the caller sees it: success without error, or failure
    with an error text. *)
Definition consistent (ok : bool) (err : option string) : Prop :=
  (ok = true /\ err = None)
  \/ (ok = false /\ exists msg, err = Some msg /\ msg <> EmptyString).

(** A store that answers every request with status 202 and no body. *)
Definition always_202 (r : request) (n : nat) : answer * nat :=
  (inl (mkResponse 202 (NoJson EmptyString) EmptyString), S n).

End Delivery.

Module Batch.
Import PyStr Py teams_component.

(** What the result record of a file must hold: the generated name, the
    name of the source file, the folder [determine_target_folder] gives
    for the generated name, and a consistent outcome. *)
Definition record_of (token team : string) (f : processing_component.processed)
  (r : upload_result) : Prop :=
  res_filename r = processing_component.generated_filename f
  /\ res_original_filename r
     = processing_component.or_unknown (processing_component.original_filename f)
  /\ res_folder_id r
     = fst (fst (determine_target_folder
                   (processing_component.generated_filename f) team token))
  /\ target_folder r
     = snd (determine_target_folder (processing_component.generated_filename f) team token)
  /\ Delivery.consistent (success r) (error r).

End Batch.

(** ** teams_component.py: tokens

    Clock readings, expiry times and lifetimes are whole seconds.  The
    identity provider is an oracle: what the [n]-th acquisition for an
    application returns (or raises), construction of the application
    included. *)

Module teams_token.
Import PyStr Py teams_component.

(** The dictionary [acquire_token_for_client] returns, as far as it is
    read: each of the four keys is present or not. *)
Record token_result := mkTokenResult {
  access_token : option string;
  expires_in : option Z;
  error : option string;
  error_description : option string
}.

Inductive msal_app :=
| ConfidentialClientApplication (client_id authority client_credential : string).

Definition provider : Type := msal_app -> nat -> token_result + exn.

(** [token, expires_at, app, error] *)
Definition token_tuple : Type := option string * Z * option msal_app * option string.

Section Tokens.

Variable acquire_token_for_client : provider.
Variable current_time : Z.   (* time.time() *)

(** Lines 35-62.  The state is the number of acquisitions made. *)
Definition ensure_valid_token (client_id client_secret tenant_id : string)
  (current_token : option string) (token_expires_at : Z) (acquired : nat)
  : (token_tuple + exn) * nat :=
  if negb (truthy_opt current_token) || (token_expires_at <? current_time + 300)%Z then
    let authority := "https://login.microsoftonline.com/" ++ tenant_id in
    let app := ConfidentialClientApplication client_id authority client_secret in
    match acquire_token_for_client app acquired with
    | inr e => (inr e, S acquired)
    | inl result =>
        match access_token result with
        | Some new_token =>
            let new_expires_at :=
              (current_time + match expires_in result with Some d => d | None => 3600 end)%Z in
            (inl (Some new_token, new_expires_at, Some app, None), S acquired)
        | None =>
            match error result with
            | Some err =>
                let error_msg :=
                  "Authentication error: " ++ err ++ " - "
                  ++ or_none (error_description result) in
                (inl (None, 0%Z, None, Some error_msg), S acquired)
            | None => (inl (current_token, token_expires_at, None, None), S acquired)
            end
        end
    end
  else (inl (current_token, token_expires_at, None, None), acquired).

(** Lines 577-586. *)
Definition authenticate_teams (client_id client_secret tenant_id : string) (acquired : nat)
  : token_tuple * nat :=
  match ensure_valid_token client_id client_secret tenant_id None 0 acquired with
  | (inl (token, expires_at, app, error), n) =>
      if truthy_opt error then ((None, 0%Z, None, error), n)
      else ((token, expires_at, app, None), n)
  | (inr e, n) => ((None, 0%Z, None, Some ("Authentication error: " ++ exn_str e)), n)
  end.

(** Lines 518-575 with the token step in place: the run against the
    store, unless the token step raises. *)
Definition upload_files_to_teams (files_to_upload : list processing_component.processed)
  (client_id client_secret tenant_id finance_team_id : string)
  (access_token : option string) (token_expires_at : Z) (acquired : nat)
  : (prog (option (list upload_result) * option string * option string * Z) + exn) * nat :=
  match ensure_valid_token client_id client_secret tenant_id access_token
          token_expires_at acquired with
  | (inl (token, expires_at, _, error), n) =>
      (inl (teams_component.upload_files_to_teams files_to_upload finance_team_id
              (token, expires_at, error)), n)
  | (inr e, n) => (inr e, n)
  end.

End Tokens.

(** The token of the [Authorization] header of a request, if it has
    one. *)
Definition token_of (r : request) : option string :=
  match r with
  | GetSite tok _ | GetDrives tok _ | GetChildrenByName tok _ _ _
  | PutContentById tok _ _ _ | PutContentByPath tok _ _ _ _
  | PostSessionById tok _ _ _ | PostSessionByPath tok _ _ _ _ => Some tok
  | PutChunk _ _ _ _ _ _ => None
  end.

(** Every request of a run is made with the token [tok] or without a
    token. *)
Fixpoint bears {A : Type} (tok : string) (p : prog A) : Prop :=
  match p with
  | Ret _ => True
  | Send r k =>
      (token_of r = None \/ token_of r = Some tok) /\ forall a : answer, bears tok (k a)
  end.

(** Whether the current token is still good for five minutes. *)
Definition still_valid (current_time : Z) (current_token : option string)
  (token_expires_at : Z) : bool :=
  truthy_opt current_token && (current_time + 300 <=? token_expires_at)%Z.

(** A provider that issues the token [fresh] for an hour. *)
Definition issuing : provider :=
  fun _ _ => inl (mkTokenResult (Some "fresh") (Some 3600%Z) None None).

End teams_token.

(** ** Python objects: more primitives *)

Module PyObj.
Import PyStr Py.

Definition is_upper_latin (c : ascii) : bool :=
  let n := nat_of_ascii c in ((192 <=? n) && (n <=? 222) && negb (n =? 215))%nat.

(** [str.lower] on one character: [A]-[Z] and the letters 192-222 (but
    215) up by 32. *)
Definition lower_char (c : ascii) : ascii :=
  if is_upper c || is_upper_latin c then ascii_of_nat (nat_of_ascii c + 32) else c.

(** [s.lower()] *)
Fixpoint lower (s : string) : string :=
  match s with
  | EmptyString => EmptyString
  | String c r => String (lower_char c) (lower r)
  end.

(** [v.lower()] *)
Definition py_lower (v : json) : string + exn :=
  match v with
  | JStr s => inl (lower s)
  | _ => inr (mkExn AttributeError "object has no attribute 'lower'")
  end.

(** [len(v)] *)
Definition py_len (v : json) : nat + exn :=
  match v with
  | JStr s => inl (String.length s)
  | JArr l => inl (List.length l)
  | JObj l => inl (List.length l)
  | _ => inr (mkExn TypeError "object has no len()")
  end.

Fixpoint chars (s : string) : list json :=
  match s with
  | EmptyString => []
  | String c r => JStr (String c EmptyString) :: chars r
  end.

(** The elements [for x in v] goes through: those of a list, the keys of
    a dict, the characters of a string. *)
Definition py_iter (v : json) : list json + exn :=
  match v with
  | JArr l => inl l
  | JObj l => inl (map (fun kv => JStr (fst kv)) l)
  | JStr s => inl (chars s)
  | _ => inr (mkExn TypeError "object is not iterable")
  end.

(** [v[0]] *)
Definition py_first (v : json) : json + exn :=
  match v with
  | JArr (x :: _) => inl x
  | JArr [] => inr (mkExn OtherError "list index out of range")
  | JStr (String c _) => inl (JStr (String c EmptyString))
  | JStr EmptyString => inr (mkExn OtherError "string index out of range")
  | JObj _ => inr (mkExn KeyError "0")
  | _ => inr (mkExn TypeError "object is not subscriptable")
  end.

(** Sequencing of steps that may raise. *)
Definition and_then {A B : Type} (r : A + exn) (k : A -> B + exn) : B + exn :=
  match r with
  | inl a => k a
  | inr e => inr e
  end.

(** [[f(x) for x in l]]: the first exception ends it. *)
Fixpoint map_raise {A B : Type} (f : A -> B + exn) (l : list A) : list B + exn :=
  match l with
  | [] => inl []
  | x :: r =>
      match f x with
      | inr e => inr e
      | inl y =>
          match map_raise f r with
          | inr e => inr e
          | inl ys => inl (y :: ys)
          end
      end
  end.

(** [[x for x in l if p(x)]] and [[x for x in l if not p(x)]] for a test
    that may raise. *)
Fixpoint filter_raise {A : Type} (p : A -> bool + exn) (keep : bool) (l : list A)
  : list A + exn :=
  match l with
  | [] => inl []
  | x :: r =>
      match p x with
      | inr e => inr e
      | inl b =>
          match filter_raise p keep r with
          | inr e => inr e
          | inl ys => inl (if Bool.eqb b keep then x :: ys else ys)
          end
      end
  end.

(** [list.sort(key=...)] on elements paired with their keys: the sort is
    stable, so its result is the one of insertion from the right. *)
Fixpoint insert {A : Type} (kx : string * A) (l : list (string * A)) : list (string * A) :=
  match l with
  | [] => [kx]
  | ky :: r =>
      if (fst kx <=? fst ky)%string then kx :: ky :: r else ky :: insert kx r
  end.

Fixpoint sort_pairs {A : Type} (l : list (string * A)) : list (string * A) :=
  match l with
  | [] => []
  | kx :: r => insert kx (sort_pairs r)
  end.

(** The order of the keys. *)
Definition key_le {A : Type} (a b : string * A) : Prop :=
  (fst a <=? fst b)%string = true.

(** [l.sort(key=key)]: the keys are computed first, and an exception of
    [key] leaves the call. *)
Definition sort_by {A : Type} (key : A -> string + exn) (l : list A) : list A + exn :=
  match map_raise (fun x => and_then (key x) (fun k => inl (k, x))) l with
  | inl pairs => inl (map snd (sort_pairs pairs))
  | inr e => inr e
  end.

End PyObj.

(** ** Programs that call a service *)

Module Io.

Section Programs.

Context {Q R : Type}.

(** A run returns, or asks the service and goes on with the answer. *)
Inductive io (A : Type) : Type :=
| Done (a : A)
| Ask (q : Q) (k : R -> io A).

Arguments Done {A} a.
Arguments Ask {A} q k.

(** Running against a service with state [W]: the value returned, the
    questions asked with their answers, and the state afterwards. *)
Fixpoint run {A W : Type} (service : Q -> W -> R * W) (p : io A) (w : W)
  : A * list (Q * R) * W :=
  match p with
  | Done a => (a, [], w)
  | Ask q k =>
      let (r, w1) := service q w in
      let '(a, trace, w2) := run service (k r) w1 in
      (a, (q, r) :: trace, w2)
  end.

End Programs.

Arguments io Q R A : clear implicits.
Arguments Done {Q R A} a.
Arguments Ask {Q R A} q k.

End Io.

(** ** teams_component.py: looking around *)

Module teams_browse.
Import PyStr Py PyObj Io.

(** [requests.get(url, headers)] with the bearer token of the
    [Authorization] header. *)
Inductive request := Get (url access_token : string).

(** A response: its status code and what [response.json()] returns or
    raises. *)
Record response := mkResponse { status_code : Z; json_of : json + exn }.

Definition answer : Type := response + exn.

Definition prog : Type -> Type := io request answer.

Definition graph : string := "https://graph.microsoft.com/v1.0".

(** A call inside a [try] whose handler returns [failed e]. *)
Definition get {A : Type} (url access_token : string) (failed : exn -> A)
  (k : response -> prog A) : prog A :=
  Ask (Get url access_token) (fun a =>
    match a with
    | inl resp => k resp
    | inr e => Done (failed e)
    end).

(** A step inside the same [try]. *)
Definition attempt {A B : Type} (r : B + exn) (failed : exn -> A) (k : B -> prog A)
  : prog A :=
  match r with
  | inl b => k b
  | inr e => Done (failed e)
  end.

Definition endpoints : list string :=
  [graph ++ "/teams";
   graph ++ "/groups?$filter=resourceProvisioningOptions/Any(x:x eq 'Team')";
   graph ++ "/groups?$select=id,displayName,description"].

(** The loop of lines 79-85 over the endpoints still to try. *)
Fixpoint get_teams_loop (access_token : string) (endpoints : list string)
  : prog (option json * option string) :=
  let failed e := (None, Some ("Failed to get teams: " ++ exn_str e)) in
  match endpoints with
  | [] => Done (None, Some "Failed to retrieve teams data from all endpoints")
  | endpoint :: rest =>
      get endpoint access_token failed (fun response =>
      if (status_code response =? 200)%Z then
        attempt (json_of response) failed (fun data =>
        attempt (contains_key "value" data) failed (fun has_value =>
        if has_value then
          attempt (getitem data "value") failed (fun value =>
          attempt (py_len value) failed (fun n =>
          if (0 <? n)%nat then Done (Some value, None)
          else get_teams_loop access_token rest))
        else get_teams_loop access_token rest))
      else get_teams_loop access_token rest)
  end.

(** Lines 64-90. *)
Definition get_teams (access_token : string) : prog (option json * option string) :=
  get_teams_loop access_token endpoints.

Section Formatting.

(** [str(v)] inside an f-string, for a value that is not a string. *)
Variable format_value : json -> string.

Definition fmt (v : json) : string :=
  match v with
  | JStr s => s
  | _ => format_value v
  end.

(** The two lookups the listing functions start with (lines 101-124 and
    597-620): the site of the team and the first drive of the site.
    [site_error] and [drives_error] are the prefixes of the status
    messages, [no_drives] is the message for an empty list. *)
Definition first_drive {A : Type} (access_token team_id : string)
  (failed : exn -> A) (stopped : string -> A)
  (site_error drives_error no_drives : string) (k : json -> prog A) : prog A :=
  get (graph ++ "/groups/" ++ team_id ++ "/sites/root") access_token failed (fun response =>
  if negb (status_code response =? 200)%Z then
    Done (stopped (site_error ++ str_of_Z (status_code response)))
  else
  attempt (and_then (json_of response) (fun j => getitem j "id")) failed (fun site_id =>
  get (graph ++ "/sites/" ++ fmt site_id ++ "/drives") access_token failed (fun response =>
  if negb (status_code response =? 200)%Z then
    Done (stopped (drives_error ++ str_of_Z (status_code response)))
  else
  attempt (and_then (json_of response) (fun j => getitem j "value")) failed (fun drives =>
  if negb (truthy drives) then Done (stopped no_drives)
  else
  attempt (and_then (py_first drives) (fun d => getitem d "id")) failed k)))).

(** The key of the two sorts (lines 140-141). *)
Definition name_key (x : json) : string + exn :=
  and_then (getitem x "name") py_lower.

(** Lines 136-143: folders first, then files, each sorted by name
    without regard to case. *)
Definition arrange (items : json) : list json + exn :=
  and_then (py_iter items) (fun l =>
  and_then (filter_raise (contains_key "folder") true l) (fun folders =>
  and_then (filter_raise (contains_key "folder") false l) (fun files =>
  and_then (sort_by name_key folders) (fun folders =>
  and_then (sort_by name_key files) (fun files =>
  inl (folders ++ files)%list))))).

(** Lines 92-149: drive id, items, error. *)
Definition get_team_drive_folders (access_token team_id parent_folder_id : string)
  : prog (option json * option (list json) * option string) :=
  let failed e :=
    (None, None, Some ("Failed to get team drive folders: " ++ exn_str e)) in
  first_drive access_token team_id failed (fun msg => (None, None, Some msg))
    "Error getting team site: " "Error getting site drives: "
    "No drives found in the team site" (fun drive_id =>
  get (graph ++ "/drives/" ++ fmt drive_id ++ "/items/" ++ parent_folder_id ++ "/children")
    access_token failed (fun response =>
  if negb (status_code response =? 200)%Z then
    Done (Some drive_id, None,
          Some ("Error getting folder items: " ++ str_of_Z (status_code response)))
  else
  attempt (and_then (and_then (json_of response) (fun j => getitem j "value")) arrange)
    failed (fun all_items =>
  Done (Some drive_id, Some all_items, None)))).

(** Lines 588-629: drive id, the two folder ids, error. *)
Definition get_finance_team_folders (access_token finance_team_id : string)
  : prog (option json * option string * option string * option string) :=
  let failed e :=
    (None, None, None, Some ("Failed to get Finance Team folders: " ++ exn_str e)) in
  first_drive access_token finance_team_id failed (fun msg => (None, None, None, Some msg))
    "Error getting Finance Team site: " "Error getting site drives: "
    "No drives found in the Finance Team site" (fun drive_id =>
  let wmc_folder_id := "01OU6MNL3KE3XP2T5JMZC244U33CGKOAMH" in
  let client_trust_folder_id := "01OU6MNL5F3ZCFDTEACRAJDOX2G4NUMX72" in
  Done (Some drive_id, Some wmc_folder_id, Some client_trust_folder_id, None)).

End Formatting.

(** The key of an element, the empty string when it has none. *)
Definition key_of (x : json) : string :=
  match name_key x with
  | inl k => k
  | inr _ => EmptyString
  end.

(** The order of the sorts: by key, the smaller or equal first. *)
Definition by_name (a b : json) : Prop := (key_of a <=? key_of b)%string = true.

Definition is_folder (x : json) : Prop := contains_key "folder" x = inl true.
Definition is_file (x : json) : Prop := contains_key "folder" x = inl false.

End teams_browse.

(** ** Worked example for the listing *)

Module Listing.
Import PyStr Py PyObj Io teams_browse.

Definition site : json := JObj [("id", JStr "site1")].
Definition drives : json := JObj [("value", JArr [JObj [("id", JStr "drive1")]])].

Definition report : json := JObj [("name", JStr "b.pdf")].
Definition zeta : json := JObj [("name", JStr "Zeta"); ("folder", JObj [])].
Definition alpha : json := JObj [("name", JStr "alpha"); ("folder", JObj [])].

Definition children : json := JObj [("value", JArr [report; zeta; alpha])].

(** A service that answers the [n]-th request with the [n]-th of the
    three documents above, and with status 404 after that. *)
Definition canned (r : request) (n : nat) : answer * nat :=
  (inl match n with
       | 0%nat => mkResponse 200 (inl site)
       | 1%nat => mkResponse 200 (inl drives)
       | 2%nat => mkResponse 200 (inl children)
       | _ => mkResponse 404 (inl JNull)
       end, S n).

End Listing.

(** ** gmail_component.py

    The mail service and the file system are what the programs ask: a
    listing of messages, a message, an attachment, the writing of a
    file.  [execute()] returns the decoded answer or raises; writing
    returns or raises.  [base64.urlsafe_b64decode] is a parameter.  The
    paging loop of [search_echeque_emails] runs as long as the service
    names a next page; the embedding gives it the number of further
    pages it may ask for and returns [None] when that does not
    suffice. *)

Module gmail_component.
Import PyStr Py PyObj Io.

Inductive request :=
| ListMessages (q : string) (pageToken : option json)
| GetMessage (id : json)
| GetAttachment (messageId id : json)
| WriteFile (path : string) (data : bytes).

Definition answer : Type := json + exn.

Definition prog : Type -> Type := io request answer.

Fixpoint bind {A B : Type} (p : prog A) (f : A -> prog B) : prog B :=
  match p with
  | Done a => f a
  | Ask q k => Ask q (fun r => bind (k r) f)
  end.

(** A call inside a [try] whose handler returns [failed e]. *)
Definition ask {A : Type} (q : request) (failed : exn -> A) (k : json -> prog A) : prog A :=
  Ask q (fun a =>
    match a with
    | inl v => k v
    | inr e => Done (failed e)
    end).

(** A step inside the same [try]. *)
Definition attempt {A B : Type} (r : B + exn) (failed : exn -> A) (k : B -> prog A)
  : prog A :=
  match r with
  | inl b => k b
  | inr e => Done (failed e)
  end.

(** [os.path.join(a, b)] *)
Definition path_join (a b : string) : string :=
  if startswith b "/" then b
  else if (a =? "") || endswith a "/" then a ++ b
  else a ++ "/" ++ b.

(** Lines 12-30: [build] is what constructing the credentials and the
    service raises, if anything.  The service object itself is what the
    programs below ask. *)
Definition get_gmail_service (build : option exn) : bool * option string :=
  match build with
  | None => (true, None)
  | Some e => (false, Some ("Gmail service initialization error: " ++ exn_str e))
  end.

(** The query of line 42, from the two formatted dates. *)
Definition query (start_date_str end_date_str : string) : string :=
  "subject:" ++ String (chr 34) ("BOCHK e-Cheque" ++ String (chr 34)
  (" after:" ++ start_date_str ++ " before:" ++ end_date_str)).

(** [messages.extend(more)], where evaluating [more] may raise. *)
Definition extend (messages : json) (more : json + exn) : json + exn :=
  match messages with
  | JArr l =>
      and_then more (fun m => and_then (py_iter m) (fun ms => inl (JArr (l ++ ms)%list)))
  | _ => inr (mkExn AttributeError "object has no attribute 'extend'")
  end.

(** The loop of lines 50-53 with [fuel] further pages allowed. *)
Fixpoint more_pages (fuel : nat) (q : string) (result messages : json)
  : prog (option (option json * option string)) :=
  let failed e := Some (None, Some ("Error searching emails: " ++ exn_str e)) in
  attempt (contains_key "nextPageToken" result) failed (fun has_next =>
  if has_next then
    match fuel with
    | O => Done None
    | S fuel' =>
        attempt (getitem result "nextPageToken") failed (fun page_token =>
        ask (ListMessages q (Some page_token)) failed (fun result' =>
        attempt (extend messages (get result' "messages" (JArr []))) failed
          (fun messages' => more_pages fuel' q result' messages')))
    end
  else Done (Some (Some messages, None))).

(** Lines 32-57. *)
Definition search_echeque_emails (fuel : nat) (start_date_str end_date_str : string)
  : prog (option (option json * option string)) :=
  let failed e := Some (None, Some ("Error searching emails: " ++ exn_str e)) in
  let q := query start_date_str end_date_str in
  ask (ListMessages q None) failed (fun result =>
  attempt (get result "messages" (JArr [])) failed (fun messages =>
  more_pages fuel q result messages)).

(** The dictionary [get_email_details] returns. *)
Record email_details := mkDetails {
  id : json;
  subject : json;
  sender : json;
  date : json;
  message : json
}.

(** [next((header['value'] for header in headers if header['name'] == name), default)] *)
Fixpoint first_header (name : string) (headers : list json) (default : json) : json + exn :=
  match headers with
  | [] => inl default
  | header :: rest =>
      and_then (getitem header "name") (fun n =>
      if eq_str n name then getitem header "value"
      else first_header name rest default)
  end.

(** Lines 59-78. *)
Definition get_email_details (msg_id : json) : prog (option email_details * option string) :=
  let failed e := (None, Some ("Error getting email details: " ++ exn_str e)) in
  ask (GetMessage msg_id) failed (fun message =>
  attempt (and_then (getitem message "payload") (fun p => getitem p "headers")) failed
    (fun headers =>
  attempt (and_then (py_iter headers) (fun l => first_header "Subject" l (JStr "No Subject")))
    failed (fun subject =>
  attempt (and_then (py_iter headers) (fun l => first_header "From" l (JStr "Unknown")))
    failed (fun sender =>
  attempt (and_then (py_iter headers) (fun l => first_header "Date" l (JStr "Unknown")))
    failed (fun date =>
  Done (Some (mkDetails msg_id subject sender date message), None)))))).

(** An element of the list [download_attachments] returns. *)
Record attachment := mkAttachment {
  filename : string;
  path : string;
  size : nat;
  content : bytes
}.

Section Downloads.

Variable urlsafe_b64decode : json -> bytes + exn.

(** The test of line 100. *)
Definition is_attachment (part : json) : bool + exn :=
  and_then (get part "filename" JNull) (fun f =>
  if negb (truthy f) then inl false else
  and_then (get part "body" JNull) (fun b =>
  if negb (truthy b) then inl false else
  and_then (and_then (getitem part "body") (fun body => get body "attachmentId" JNull))
    (fun a => inl (truthy a)))).

(** The file name [os.path.join] accepts: a string. *)
Definition as_path (filename : json) : string + exn :=
  match filename with
  | JStr s => inl s
  | _ => inr (mkExn TypeError "expected str, bytes or os.PathLike object")
  end.

(** The loop of lines 99-120. *)
Fixpoint download_parts (msg_id : json) (download_dir : string) (parts : list json)
  (attachments : list attachment) : prog (option (list attachment) * option string) :=
  let failed e := (None, Some ("Error downloading attachments: " ++ exn_str e)) in
  match parts with
  | [] => Done (Some attachments, None)
  | part :: rest =>
      attempt (is_attachment part) failed (fun wanted =>
      if wanted then
        attempt (and_then (getitem part "body") (fun b => getitem b "attachmentId")) failed
          (fun attachment_id =>
        attempt (getitem part "filename") failed (fun filename =>
        ask (GetAttachment msg_id attachment_id) failed (fun attachment =>
        attempt (and_then (getitem attachment "data") urlsafe_b64decode) failed
          (fun file_data =>
        attempt (as_path filename) failed (fun filename =>
        let filepath := path_join download_dir filename in
        ask (WriteFile filepath file_data) failed (fun _ =>
        download_parts msg_id download_dir rest
          (attachments
           ++ [mkAttachment filename filepath (List.length file_data) file_data])%list))))))
      else download_parts msg_id download_dir rest attachments)
  end.

(** Lines 80-124, for the dictionary [get_email_details] made. *)
Definition download_attachments (message : email_details) (download_dir : string)
  : prog (option (list attachment) * option string) :=
  let failed e := (None, Some ("Error downloading attachments: " ++ exn_str e)) in
  let msg_id := id message in
  let with_data (message_data : json) :=
    attempt (and_then (getitem message_data "payload") (contains_key "parts")) failed
      (fun has_parts =>
    if negb has_parts then Done (Some [], None)
    else
      attempt (and_then (and_then (getitem message_data "payload")
                           (fun p => getitem p "parts")) py_iter) failed
        (fun parts => download_parts msg_id download_dir parts [])) in
  match gmail_component.message message with
  | JObj _ => with_data (gmail_component.message message)
  | _ => ask (GetMessage msg_id) failed with_data
  end.

(** An element of [downloaded_files]. *)
Record download := mkDownload {
  email_subject : json;
  email_date : json;
  email_sender : json;
  dl_filename : string;
  dl_path : string;
  dl_size : nat;
  dl_content : bytes
}.

Definition record (d : email_details) (a : attachment) : download :=
  mkDownload (subject d) (date d) (sender d) (filename a) (path a) (size a) (content a).

(** What the call gives: its pair, or the exception that leaves it. *)
Definition outcome : Type := (option (list download) * option string) + exn.

(** The loop of lines 161-185. *)
Fixpoint download_messages (temp_dir : string) (messages : list json)
  (downloaded_files : list download) : prog outcome :=
  match messages with
  | [] => Done (inl (Some downloaded_files, None))
  | msg :: rest =>
      match getitem msg "id" with
      | inr e => Done (inr e)
      | inl msg_id =>
          bind (get_email_details msg_id) (fun '(email_details, error) =>
          if truthy_opt error then download_messages temp_dir rest downloaded_files
          else
            match email_details with
            | None =>
                (* [download_attachments] fails on [None] inside its [try] *)
                download_messages temp_dir rest downloaded_files
            | Some details =>
                bind (download_attachments details temp_dir) (fun '(attachments, error) =>
                if truthy_opt error then download_messages temp_dir rest downloaded_files
                else
                  match attachments with
                  | None => Done (inr (mkExn TypeError "'NoneType' object is not iterable"))
                  | Some l =>
                      download_messages temp_dir rest
                        (downloaded_files ++ map (record details) l)%list
                  end)
            end)
      end
  end.

(** Lines 126-187.  [temp_dir] is what [tempfile.mkdtemp()] returned;
    the result is [None] when the paging loop was cut short. *)
Definition search_and_download_echeques (fuel : nat) (build : option exn)
  (temp_dir start_date_str end_date_str : string) : prog (option outcome) :=
  let '(service, error) := get_gmail_service build in
  if truthy_opt error then Done (Some (inl (None, error)))
  else
    bind (search_echeque_emails fuel start_date_str end_date_str) (fun found =>
    match found with
    | None => Done None
    | Some (messages, error) =>
        if truthy_opt error then Done (Some (inl (None, error)))
        else
          match messages with
          | None => Done (Some (inl (Some [], Some "No e-cheques found in the date range.")))
          | Some messages =>
              if negb (truthy messages)
              then Done (Some (inl (Some [], Some "No e-cheques found in the date range.")))
              else
                match py_len messages with
                | inr e => Done (Some (inr e))
                | inl _ =>
                    match py_iter messages with
                    | inr e => Done (Some (inr e))
                    | inl l => bind (download_messages temp_dir l []) (fun r => Done (Some r))
                    end
                end
          end
    end).

End Downloads.

(** The elements a page of the listing adds to the messages. *)
Definition page_items (page : json) : list json :=
  match and_then (get page "messages" (JArr [])) py_iter with
  | inl l => l
  | inr _ => []
  end.

Definition has_next (page : json) : bool :=
  match contains_key "nextPageToken" page with
  | inl b => b
  | inr _ => false
  end.

(** The requests of a paging run: the first without a page token, each
    next one with the token of the page before, up to the first page
    that names no next page. *)
Fixpoint paged (q : string) (token : option json) (pages : list json)
  (requests : list request) : Prop :=
  match pages, requests with
  | page :: pages', r :: requests' =>
      r = ListMessages q token
      /\ if has_next page
         then exists t, getitem page "nextPageToken" = inl t
                        /\ paged q (Some t) pages' requests'
         else pages' = [] /\ requests' = []
  | _, _ => False
  end.

(** The messages of a run of pages: what the first page holds under
    [messages], extended by the elements of the later pages. *)
Definition collected (pages : list json) : json :=
  match pages with
  | [] => JArr []
  | first :: rest =>
      match get first "messages" (JArr []), rest with
      | inl messages, [] => messages
      | inl (JArr l), _ => JArr (l ++ flat_map page_items rest)%list
      | _, _ => JNull
      end
  end.

(** An attachment record that is backed by the run: its size is the
    length of its content, its name is not empty, its path is the
    directory joined with the name, and the content was written to that
    path. *)
Definition backed (download_dir : string) (trace : list (request * answer))
  (name file_path : string) (file_size : nat) (data : bytes) : Prop :=
  file_size = List.length data
  /\ name <> EmptyString
  /\ file_path = path_join download_dir name
  /\ In (WriteFile file_path data) (map fst trace).

Definition backed_attachment (download_dir : string) (trace : list (request * answer))
  (a : attachment) : Prop :=
  backed download_dir trace (filename a) (path a) (size a) (content a).

Definition backed_download (download_dir : string) (trace : list (request * answer))
  (d : download) : Prop :=
  backed download_dir trace (dl_filename d) (dl_path d) (dl_size d) (dl_content d).

(** A mail service with two pages of one message each; the messages
    have one PDF attachment each. *)
Definition two_pages (r : request) (n : nat) : answer * nat :=
  (match r with
   | ListMessages _ None =>
       inl (JObj [("messages", JArr [JObj [("id", JStr "m1")]]);
                  ("nextPageToken", JStr "p2")])
   | ListMessages _ (Some _) =>
       inl (JObj [("messages", JArr [JObj [("id", JStr "m2")]])])
   | GetMessage msg_id =>
       inl (JObj [("payload",
                   JObj [("headers", JArr [JObj [("name", JStr "Subject");
                                                 ("value", JStr "BOCHK e-Cheque")]]);
                         ("parts", JArr [JObj [("filename", JStr "cheque.pdf");
                                               ("body", JObj [("attachmentId", msg_id)])]])])])
   | GetAttachment _ _ => inl (JObj [("data", JStr "JVBERi0=")])
   | WriteFile _ _ => inl JNull
   end, S n).

(** A decoder that knows one text. *)
Definition decode (v : json) : bytes + exn :=
  match v with
  | JStr "JVBERi0=" => inl [Byte.x25; Byte.x50; Byte.x44; Byte.x46; Byte.x2d]
  | _ => inr (mkExn OtherError "Incorrect padding")
  end.

End gmail_component.

Module Mailbox.
Import PyStr Py PyObj Io gmail_component.

(** A message of the listing that has an id. *)
Definition has_id (msg : json) : Prop := exists i, getitem msg "id" = inl i.


End Mailbox.
(** * Properties *)

(** ** Python string primitives *)

Example upper_ex : PyStr.upper "Oreana 9z" = "OREANA 9Z".
Proof. reflexivity. Qed.
Example split_ex : PyStr.split "  ab   c d " = ["ab"; "c"; "d"].
Proof. reflexivity. Qed.
Example strip_ex : PyStr.strip "  a b  " = "a b".
Proof. reflexivity. Qed.
Example slice_ex : PyStr.slice 7 (-3) "```json{}```" = "{}".
Proof. reflexivity. Qed.
Example str_of_Z_ex : PyStr.str_of_Z 1048575 = "1048575".
Proof. reflexivity. Qed.

(** ** Naming (processing_component.generate_filename) *)

Section NamingFacts.
Import PyStr Py processing_component.

Variable format_value : json -> string.

Lemma append_assoc (a b c : string) : (a ++ b) ++ c = a ++ (b ++ c).
Proof. induction a as [|x a IH]; simpl; [reflexivity | now rewrite IH]. Qed.

Lemma append_nil_r (a : string) : a ++ "" = a.
Proof. induction a as [|x a IH]; simpl; [reflexivity | now rewrite IH]. Qed.

(** The allow-list test of line 197 is the case-insensitive membership
    test of the specification. *)
Lemma allow_list_test (p : string) :
  in_list (upper p) ["OFS"; "OREANA FINANCIAL SERVICES LIMITED"] = Spec.in_allow_list p.
Proof. reflexivity. Qed.

Lemma generate_filename_stem (k payer cur t m : json) (payee : string) :
  generate_filename format_value k payer payee cur t m
  = inl (filename_stem format_value k payer cur payee
         ++ Spec.fee_suffix (Spec.feeClass (truthy t) (truthy m) payee) ++ ".pdf").
Proof.
  unfold generate_filename, filename_stem, Spec.feeClass.
  rewrite allow_list_test.
  destruct (truthy t); [|destruct (truthy m && Spec.in_allow_list payee)];
    destruct (eq_str payer WMC); try destruct (eq_str payer NOMINEE);
    cbn [Spec.fee_suffix]; rewrite ?append_assoc; reflexivity.
Qed.

End NamingFacts.

(** C3. Fee classification.  For fixed key, payer, payee and currency
    the generated name is a stem followed by the suffix of the fee class
    and [.pdf], where the class is Trailer whenever the trailer flag is
    set (whatever the management flag), Management when only the
    management flag is set and the payee is, ignoring case, on the
    allow-list, and None otherwise.  The three suffixes are pairwise
    different, both flags set give the [_T] suffix, and the management
    flag with a payee off the allow-list gives no suffix. *)
Theorem fee_classification :
  forall (format_value : json -> string) (key_identifier payer currency : json)
         (payee : string),
  exists stem : string,
    (forall t m : json,
        processing_component.generate_filename format_value
          key_identifier payer payee currency t m
        = inl (stem ++ Spec.fee_suffix
                         (Spec.feeClass (Py.truthy t) (Py.truthy m) payee) ++ ".pdf"))
    /\ (forall m : bool,
        processing_component.generate_filename format_value
          key_identifier payer payee currency true m
        = inl (stem ++ "_T.pdf"))
    /\ processing_component.generate_filename format_value
          key_identifier payer payee currency false true
        = inl (stem ++ (if Spec.in_allow_list payee then " MF" else "") ++ ".pdf")
    /\ (forall m : bool, Spec.feeClass true m payee = Spec.Trailer)
    /\ (forall t m : bool,
        Spec.feeClass t m payee = Spec.Management
        <-> t = false /\ m = true /\ Spec.in_allow_list payee = true)
    /\ (forall f g, Spec.fee_suffix f = Spec.fee_suffix g -> f = g).
Proof.
  intros fv k payer cur payee.
  exists (processing_component.filename_stem fv k payer cur payee).
  split; [|split; [|split; [|split; [|split]]]].
  - intros t m. apply generate_filename_stem.
  - intros m. rewrite generate_filename_stem. reflexivity.
  - rewrite generate_filename_stem. unfold Spec.feeClass. cbn [Py.truthy andb].
    destruct (Spec.in_allow_list payee); reflexivity.
  - reflexivity.
  - intros t m. unfold Spec.feeClass.
    destruct t, m, (Spec.in_allow_list payee); cbn; split;
      try discriminate; try (intros (? & ? & ?); discriminate); auto.
  - intros [] []; cbn; intros H; try reflexivity; discriminate.
Qed.

(** The theorem on payee [OFS] paid by the first payer: both flags give
    the trailer suffix, the management flag alone the management
    suffix. *)
Lemma fee_classification_witness :
  exists stem : string,
    processing_component.generate_filename (fun _ => "") "000495"
      "WEALTH MANAGEMENT CUBE LIMITED" "OFS" "HKD" true true
    = inl (stem ++ "_T.pdf")
    /\ processing_component.generate_filename (fun _ => "") "000495"
         "WEALTH MANAGEMENT CUBE LIMITED" "OFS" "HKD" false true
       = inl (stem ++ " MF" ++ ".pdf")
    /\ Spec.feeClass false true "OFS" = Spec.Management.
Proof.
  destruct (fee_classification (fun _ => "") "000495"
              "WEALTH MANAGEMENT CUBE LIMITED" "HKD" "OFS")
    as (stem & _ & Htrailer & Hmanagement & _ & Hiff & _).
  exists stem. split; [exact (Htrailer true)|]. split; [exact Hmanagement|].
  apply Hiff. repeat split; reflexivity.
Defined.


(** ** File names on the delivery side *)

Example sanitize_ex1 :
  teams_component.sanitize_filename "a:b/c?.pdf" = "a_b_c_.pdf".
Proof. reflexivity. Qed.
Example splitext_ex1 : teams_component.splitext "a.b.pdf" = ("a.b", ".pdf").
Proof. reflexivity. Qed.
Example splitext_ex2 : teams_component.splitext "...pdf" = ("...pdf", "").
Proof. reflexivity. Qed.
Example folder_ex1 :
  teams_component.determine_target_folder "000495 WMC-AAM Advisory.pdf" "t" "k"
  = ("01OU6MNL3KE3XP2T5JMZC244U33CGKOAMH",
     "Finance Staff/Bank/Cashflow/WMC E-cheque", "WMC E-cheque").
Proof. reflexivity. Qed.
Example folder_ex2 :
  teams_component.determine_target_folder "HKD 100671 Cheung Wilma Veronica.pdf" "t" "k"
  = ("01OU6MNL5F3ZCFDTEACRAJDOX2G4NUMX72",
     "Finance Staff/Bank/E cheque WMC Nominee", "E cheque WMC Nominee").
Proof. reflexivity. Qed.

(** ** The retry controller *)

Section RetryFacts.
Import PyStr Py processing_component Aux.

Lemma retrying_eq {St A} retry wait mx sleep (fn : St -> (A + exn) * St) n st :
  retrying retry wait mx sleep fn n st =
  match fn st with
  | (inl v, st1) => (inl v, st1)
  | (inr e, st1) =>
      if retry e then
        if (mx <=? n)%nat then (inr e, st1)
        else retrying retry wait mx sleep fn (S n) (sleep (wait n) st1)
      else (inr e, st1)
  end.
Proof.
  simp retrying. destruct (fn st) as [[v|e] st1]; cbn; [reflexivity|].
  destruct (retry e); cbn; [|reflexivity].
  destruct (le_lt_dec mx n); cbn; destruct (Nat.leb_spec mx n); try lia; reflexivity.
Qed.

Variable E : env.

(** One attempt consumes one call of the service and nothing else. *)
Lemma attempt_state (st : pstate) :
  snd (call_gemini_api_attempt E st) = count_call st.
Proof.
  unfold call_gemini_api_attempt.
  destruct (generate_content E (api_calls st)) as [e|[] [t|e]]; cbn;
    try destruct (contains "429" (exn_str e)); reflexivity.
Qed.

(** The result of an attempt depends on the state only through the
    number of calls made. *)
Lemma attempt_result (st st' : pstate) :
  api_calls st = api_calls st' ->
  fst (call_gemini_api_attempt E st) = fst (call_gemini_api_attempt E st').
Proof.
  intros H. unfold call_gemini_api_attempt. rewrite H.
  destruct (generate_content E (api_calls st')) as [e|[] [t|e]]; cbn;
    try destruct (contains "429" (exn_str e)); reflexivity.
Qed.

(** An attempt fails with the retried class exactly on a rate-limited
    outcome. *)
Lemma attempt_retried (st : pstate) :
  retried (fst (call_gemini_api_attempt E st))
  = rate_limited (generate_content E (api_calls st)).
Proof.
  unfold call_gemini_api_attempt, rate_limited, is_rate_limit_error, retried,
    retry_if_exception_type.
  destruct (generate_content E (api_calls st)) as [e|[] [t|e]]; cbn;
    try reflexivity;
    destruct (contains "429" (exn_str e)) eqn:H; cbn;
    rewrite ?orb_true_r, ?orb_false_r; reflexivity.
Qed.

Lemma attempt_split (st : pstate) :
  call_gemini_api_attempt E st = (fst (call_gemini_api_attempt E st), count_call st).
Proof. rewrite <- attempt_state. apply surjective_pairing. Qed.

Lemma leading_le (f : nat -> bool) (n : nat) : (leading f n <= n)%nat.
Proof.
  revert f. induction n as [|n IH]; intros f; cbn; [lia|].
  destruct (f 0%nat); [specialize (IH (fun i => f (S i)))|]; lia.
Qed.

Lemma leading_ext (m : nat) (f g : nat -> bool) :
  (forall i, f i = g i) -> leading f m = leading g m.
Proof.
  revert f g. induction m as [|m IHm]; intros f g H; cbn; [reflexivity|].
  rewrite H. destruct (g 0%nat); [|reflexivity].
  f_equal. apply IHm. intros i. apply H.
Qed.

Lemma pstate_eta (st : pstate) :
  st = mkPState (frame st) (api_calls st) (slept st) (namings st).
Proof. destruct st; reflexivity. Qed.

(** The decorator from attempt [n] with [k] retries still allowed. *)
Lemma retrying_from (k n : nat) (st : pstate) :
  (n + k = MAX_RETRIES)%nat ->
  let a := leading (fun i => rate_limited (generate_content E (api_calls st + i))) k in
  retrying (retry_if_exception_type APIRateLimitError) backoff MAX_RETRIES
    time_sleep (call_gemini_api_attempt E) n st
  = (fst (call_gemini_api_attempt E (advance st a (map backoff (seq n a)))),
     advance st (S a) (map backoff (seq n a))).
Proof.
  revert n st. induction k as [|k IH]; intros n st Hn a; subst a;
    rewrite retrying_eq, (attempt_split st); cbn [leading seq map].
  - assert (Hst : fst (call_gemini_api_attempt E (advance st 0 []))
                  = fst (call_gemini_api_attempt E st))
      by (apply attempt_result; cbn; lia).
    rewrite Hst.
    assert (Hadv : advance st 1 [] = count_call st)
      by (unfold advance, count_call; rewrite app_nil_r; f_equal; lia).
    rewrite Hadv.
    destruct (fst (call_gemini_api_attempt E st)) as [t|e]; [reflexivity|].
    destruct (retry_if_exception_type APIRateLimitError e); [|reflexivity].
    replace (MAX_RETRIES <=? n)%nat with true
      by (symmetry; apply Nat.leb_le; lia).
    reflexivity.
  - pose proof (attempt_retried st) as Hr.
    replace (api_calls st + 0)%nat with (api_calls st) by lia.
    destruct (rate_limited (generate_content E (api_calls st))); cbn [seq map].
    + destruct (fst (call_gemini_api_attempt E st)) as [t|e]; [discriminate Hr|].
      cbn in Hr. rewrite Hr.
      replace (MAX_RETRIES <=? n)%nat with false
        by (symmetry; apply Nat.leb_gt; lia).
      rewrite (IH (S n) (time_sleep (backoff n) (count_call st))) by lia.
      cbn [api_calls time_sleep count_call].
      set (a := leading _ k).
      set (a' := leading _ k).
      assert (Ha : a = a').
      { subst a a'. apply leading_ext. intros i. do 2 f_equal. lia. }
      rewrite <- Ha. clear Ha a'.
      f_equal.
      * apply attempt_result. cbn. lia.
      * unfold advance. cbn. rewrite <- app_assoc. cbn. f_equal. lia.
    + assert (Hst : fst (call_gemini_api_attempt E (advance st 0 []))
                    = fst (call_gemini_api_attempt E st))
        by (apply attempt_result; cbn; lia).
      rewrite Hst.
      assert (Hadv : advance st 1 [] = count_call st)
        by (unfold advance, count_call; rewrite app_nil_r; f_equal; lia).
      rewrite Hadv.
      destruct (fst (call_gemini_api_attempt E st)) as [t|e]; [reflexivity|].
      cbn in Hr. rewrite Hr. reflexivity.
Qed.

End RetryFacts.

Lemma backoff_values (a : nat) :
  (a <= 4)%nat -> map Aux.backoff (seq 1 a) = firstn a [1; 2; 4; 8]%Z.
Proof.
  intros H.
  destruct a as [|[|[|[|[|a]]]]]; try reflexivity; lia.
Qed.

Lemma backoff_formula (n : nat) :
  (1 <= n)%nat -> Aux.backoff n = Z.min (2 ^ (Z.of_nat n - 1)) 32.
Proof.
  intros H. unfold Aux.backoff, processing_component.wait_exponential,
    processing_component.INITIAL_WAIT, processing_component.MAX_WAIT.
  assert (0 < 2 ^ (Z.of_nat n - 1))%Z by (apply Z.pow_pos_nonneg; lia).
  lia.
Qed.

Lemma leading_all (f : nat -> bool) (n : nat) :
  (forall i, (i < n)%nat -> f i = true) -> Aux.leading f n = n.
Proof.
  revert f. induction n as [|n IH]; intros f H; cbn; [reflexivity|].
  rewrite (H 0%nat) by lia. f_equal. apply IH. intros i Hi. apply H. lia.
Qed.

Lemma retry_run (E : processing_component.env) (st : processing_component.pstate) :
  let a := Aux.leading
             (fun i => Aux.rate_limited
                         (processing_component.generate_content E
                            (processing_component.api_calls st + i))) 4 in
  processing_component.call_gemini_api_with_retry E st
  = (fst (processing_component.call_gemini_api_attempt E
            (Aux.advance st a (firstn a [1; 2; 4; 8]%Z))),
     Aux.advance st (S a) (firstn a [1; 2; 4; 8]%Z)).
Proof.
  intros a. unfold processing_component.call_gemini_api_with_retry.
  change (processing_component.wait_exponential processing_component.INITIAL_WAIT
            processing_component.MAX_WAIT) with Aux.backoff.
  rewrite (retrying_from E 4 1 st) by reflexivity.
  fold a. rewrite backoff_values by apply leading_le. reflexivity.
Qed.

(** C5 (as amended).  The decorated call makes one attempt more than
    the number of rate-limited outcomes met in a row, and never more
    than five; before each retry it sleeps the backoff of the attempt
    that failed, [min (2^(n-1)) 32], so the sleeps are a prefix of
    1, 2, 4, 8; what it returns is the result of its last attempt.  An
    attempt is retried exactly when its outcome is rate-limited (an
    exception with a 429 indicator, or a falsy response).  When the
    first five outcomes are all rate-limited, five attempts are made
    with the four sleeps 1, 2, 4, 8 between them, the error of the
    fifth attempt is raised, and [call_gemini_api] reports it inside its
    rate-limit message.  When the first outcome is not rate-limited, it
    is returned after one attempt and no sleep. *)
Theorem retry_controller :
  forall (E : processing_component.env) (st : processing_component.pstate),
  let limited i :=
    Aux.rate_limited (processing_component.generate_content E
                        (processing_component.api_calls st + i)) in
  let a := Aux.leading limited 4 in
  processing_component.call_gemini_api_with_retry E st
  = (fst (processing_component.call_gemini_api_attempt E
            (Aux.advance st a (firstn a [1; 2; 4; 8]%Z))),
     Aux.advance st (S a) (firstn a [1; 2; 4; 8]%Z))
  /\ (S a <= processing_component.MAX_RETRIES)%nat
  /\ (forall st' : processing_component.pstate,
        Aux.retried (fst (processing_component.call_gemini_api_attempt E st'))
        = Aux.rate_limited (processing_component.generate_content E
                              (processing_component.api_calls st')))
  /\ (forall n : nat, (1 <= n)%nat ->
        Aux.backoff n = Z.min (2 ^ (Z.of_nat n - 1)) 32)
  /\ ((forall i, (i < 5)%nat -> limited i = true) ->
      exists e : exn,
        processing_component.call_gemini_api_with_retry E st
        = (inr e, Aux.advance st 5 [1; 2; 4; 8]%Z)
        /\ exn_cls e = APIRateLimitError
        /\ fst (processing_component.call_gemini_api_attempt E
                  (Aux.advance st 4 [1; 2; 4; 8]%Z)) = inr e
        /\ forall key : string,
             key <> "" -> processing_component.configure E key = None ->
             fst (processing_component.call_gemini_api E key st)
             = (None,
                Some ("Rate limit error after 5 retries. Last error: "
                      ++ exn_str e
                      ++ ". Please wait a few minutes before trying again.")))
  /\ (limited 0%nat = false ->
      processing_component.call_gemini_api_with_retry E st
      = (fst (processing_component.call_gemini_api_attempt E st), Aux.advance st 1 [])).
Proof.
  intros E st limited a.
  split; [apply retry_run|].
  split; [pose proof (leading_le limited 4); unfold processing_component.MAX_RETRIES; subst a; lia|].
  split; [intros st'; apply attempt_retried|].
  split; [apply backoff_formula|].
  split.
  - intros Hall.
    assert (Ha : a = 4%nat) by (apply leading_all; intros i Hi; apply Hall; lia).
    pose proof (retry_run E st) as Hrun. cbv zeta in Hrun. fold limited in Hrun.
    fold a in Hrun. rewrite Ha in Hrun. cbn [firstn] in Hrun.
    pose proof (attempt_retried E (Aux.advance st 4 [1; 2; 4; 8]%Z)) as Hr.
    cbn [processing_component.api_calls Aux.advance] in Hr.
    fold (limited 4%nat) in Hr. rewrite (Hall 4%nat) in Hr by lia.
    destruct (fst (processing_component.call_gemini_api_attempt E
                     (Aux.advance st 4 [1; 2; 4; 8]%Z))) as [t|e] eqn:Hlast;
      [discriminate Hr|].
    exists e. split; [exact Hrun|].
    assert (Hcls : exn_cls e = APIRateLimitError).
    { cbn in Hr. unfold processing_component.retry_if_exception_type in Hr.
      destruct (exn_cls e); try discriminate Hr; reflexivity. }
    split; [exact Hcls|]. split; [reflexivity|].
    intros key Hkey Hconf. unfold processing_component.call_gemini_api.
    destruct (String.eqb_spec key ""); [contradiction|].
    rewrite Hconf.
    pose proof (retry_run E (processing_component.time_sleep 1 st)) as Hrun1.
    cbv zeta in Hrun1.
    cbn [processing_component.api_calls processing_component.time_sleep] in Hrun1.
    fold limited in Hrun1. fold a in Hrun1. rewrite Ha in Hrun1. cbn [firstn] in Hrun1.
    assert (Hsame :
      fst (processing_component.call_gemini_api_attempt E
             (Aux.advance (processing_component.time_sleep 1 st) 4 [1; 2; 4; 8]%Z))
      = inr e).
    { rewrite <- Hlast. apply attempt_result. reflexivity. }
    rewrite Hsame in Hrun1. rewrite Hrun1. rewrite Hcls. reflexivity.
  - intros H0.
    pose proof (retry_run E st) as Hrun. cbv zeta in Hrun. fold limited in Hrun.
    assert (Ha : a = 0%nat).
    { subst a. cbn. rewrite H0. reflexivity. }
    fold a in Hrun. rewrite Ha in Hrun. cbn [firstn] in Hrun.
    rewrite Hrun. f_equal. apply attempt_result. cbn. lia.
Qed.

(** The theorem applied to a service that always answers 429. *)
Lemma retry_controller_witness :
  exists e : exn,
    processing_component.call_gemini_api_with_retry Demo.env_429 Demo.start
    = (inr e, Aux.advance Demo.start 5 [1; 2; 4; 8]%Z)
    /\ exn_cls e = APIRateLimitError.
Proof.
  destruct (retry_controller Demo.env_429 Demo.start)
    as (_ & _ & _ & _ & Hall & _).
  destruct Hall as (e & H1 & H2 & _).
  - intros i Hi. reflexivity.
  - exists e. split; assumption.
Defined.

(** C5 as stated fails: against a service that is rate-limited on every
    call, five attempts are made but only four backoff sleeps, 1, 2, 4
    and 8 (15 in total), not 1, 2, 4, 8 and 16. *)
Lemma retry_delays_counterexample :
  let st := snd (processing_component.call_gemini_api_with_retry Demo.env_429 Demo.start) in
  processing_component.api_calls st = 5%nat
  /\ processing_component.slept st = [1; 2; 4; 8]%Z
  /\ processing_component.slept st <> [1; 2; 4; 8; 16]%Z
  /\ Aux.sum_Z (processing_component.slept st) = 15%Z
  /\ Aux.sum_Z (processing_component.slept st) <> (1 + 2 + 4 + 8 + 16)%Z.
Proof.
  vm_compute. repeat split; try reflexivity; intros H; discriminate H.
Qed.

(** ** The required-field gate *)

Section GateFacts.
Import PyStr Py processing_component Aux.

Lemma all_present_obj (fields : list (string * json)) (l : list string) :
  all_present (JObj fields) l = inl (forallb (has_key fields) l).
Proof.
  induction l as [|f l IH]; cbn; [reflexivity|].
  unfold has_key at 1. destruct (assoc f fields); cbn; [exact IH | reflexivity].
Qed.

Lemma missing_fields_obj (fields : list (string * json)) (l : list string) :
  missing_fields (JObj fields) l = inl (filter (fun f => negb (has_key fields f)) l).
Proof.
  induction l as [|f l IH]; cbn; [reflexivity|].
  rewrite IH. unfold has_key. destruct (assoc f fields); reflexivity.
Qed.

Lemma forallb_filter_nil {A} (p : A -> bool) (l : list A) :
  forallb p l = true <-> filter (fun x => negb (p x)) l = [].
Proof.
  induction l as [|x l IH]; cbn; [tauto|].
  destruct (p x); cbn; [exact IH|]. split; discriminate.
Qed.

(** On a list or a string the membership tests do not fail. *)
Lemma membership_total (v : json) (l : list string) :
  (exists items, v = JArr items) \/ (exists s, v = JStr s) ->
  (exists b, all_present v l = inl b) /\ (exists m, missing_fields v l = inl m).
Proof.
  intros Hv. induction l as [|f l [[b Hb] [m Hm]]]; cbn.
  - split; eexists; reflexivity.
  - assert (Hc : exists c, contains_key f v = inl c)
      by (destruct Hv as [[i ->]|[s ->]]; eexists; reflexivity).
    destruct Hc as [c Hc]. rewrite Hc, Hb, Hm.
    split; [destruct c|]; eexists; reflexivity.
Qed.

Lemma bind_lift_inl {A B} (a : A) (k : A -> Result B) (st : pstate) :
  bind (lift (inl a)) k st = k a st.
Proof. reflexivity. Qed.

Lemma bind_lift_inr {A B} (e : exn) (k : A -> Result B) (st : pstate) :
  bind (lift (inr e)) k st = (inr e, st).
Proof. reflexivity. Qed.

End GateFacts.

(** C6 (as amended).  Once the page is rendered and the service has
    answered with a text, the outcome is decided by what [json.loads]
    makes of the text without its code fence: when it raises, the call
    returns the parse error that quotes the exception; when it gives an
    object that lacks some of [date], [payee], [key_identifier],
    [payer], [currency], [is_trailer_fee], [is_management_fee], the call
    returns the missing-fields error that lists exactly the lacking ones
    in that order; when it gives anything that is not an object, the
    call returns an error.  In the three cases no record is returned and
    the state is the one the service call left: no name was generated
    and the table was not consulted. *)
Theorem required_field_gate :
  forall (E : processing_component.env) (pdf : bytes) (key raw : string)
         (st st1 : processing_component.pstate),
    Py.truthy_opt (snd (processing_component.pdf_to_image E pdf)) = false ->
    processing_component.call_gemini_api E key st = ((Some raw, None), st1) ->
    match processing_component.json_loads E
            (processing_component.clean_response_of raw) with
    | inr e =>
        processing_component.process_echeque E pdf key st
        = ((None,
            Some ((if exn_class_eqb (exn_cls e) JSONDecodeError
                   then "Error parsing JSON response: "
                   else "Error processing e-cheque: ") ++ exn_str e)), st1)
    | inl (JObj fields) =>
        Aux.lacking fields <> [] ->
        processing_component.process_echeque E pdf key st
        = ((None,
            Some ("Missing required fields in API response: "
                  ++ PyStr.join ", " (Aux.lacking fields))), st1)
    | inl _ =>
        exists msg : string,
          processing_component.process_echeque E pdf key st = ((None, Some msg), st1)
    end.
Proof.
  intros E pdf key raw st st1 Himg Hcall.
  unfold processing_component.process_echeque.
  destruct (processing_component.pdf_to_image E pdf) as [img err].
  cbn [snd] in Himg. rewrite Himg, Hcall. cbn [Py.truthy_opt].
  unfold processing_component.process_response.
  destruct (processing_component.json_loads E
              (processing_component.clean_response_of raw)) as [v|e].
  - rewrite bind_lift_inl.
    destruct v as [ |b|r nz|s|items|fields].
    + eexists. cbn. reflexivity.
    + eexists. cbn. reflexivity.
    + eexists. cbn. reflexivity.
    + destruct (membership_total (JStr s) processing_component.required_fields)
        as [[b Hb] [m Hm]]; [right; eexists; reflexivity|].
      rewrite Hb, bind_lift_inl. destruct b; cbn [negb].
      * eexists. cbn. reflexivity.
      * rewrite Hm, bind_lift_inl. eexists. reflexivity.
    + destruct (membership_total (JArr items) processing_component.required_fields)
        as [[b Hb] [m Hm]]; [left; eexists; reflexivity|].
      rewrite Hb, bind_lift_inl. destruct b; cbn [negb].
      * eexists. cbn. reflexivity.
      * rewrite Hm, bind_lift_inl. eexists. reflexivity.
    + intros Hlack. rewrite all_present_obj, bind_lift_inl.
      destruct (forallb (Aux.has_key fields) processing_component.required_fields) eqn:Hall.
      * apply forallb_filter_nil in Hall. contradiction.
      * cbn [negb]. rewrite missing_fields_obj, bind_lift_inl. reflexivity.
  - rewrite bind_lift_inr.
    destruct (exn_class_eqb (exn_cls e) JSONDecodeError); reflexivity.
Qed.

(** Scenario D: the answer lacks [key_identifier]. *)
Lemma required_field_gate_witness :
  processing_component.process_echeque (Demo.env_text "<D>") [] "key" Demo.start
  = ((None, Some "Missing required fields in API response: key_identifier"),
     processing_component.mkPState [] 1 [1%Z] []).
Proof.
  refine (required_field_gate (Demo.env_text "<D>") [] "key" "```json<D>```"
            Demo.start (processing_component.mkPState [] 1 [1%Z] []) _ _ _).
  - reflexivity.
  - vm_compute. reflexivity.
  - vm_compute. discriminate.
Defined.

(** C6 as stated fails: [next_step] is not among the fields checked.  An
    answer with the seven checked fields and no [next_step] is named and
    returned as a record whose [next_step] is [Unknown]. *)
Lemma next_step_not_required_counterexample :
  exists (r : processing_component.processed) (st : processing_component.pstate),
    Py.contains_key "next_step" Demo.scenario_A = inl false
    /\ processing_component.process_echeque (Demo.env_text "<A>") [] "key" Demo.start
       = ((Some r, None), st)
    /\ processing_component.generated_filename r = "000495 WMC-AAM Advisory.pdf"
    /\ processing_component.next_step r = JStr "Unknown"
    /\ List.length (processing_component.namings st) = 1%nat.
Proof.
  do 2 eexists. vm_compute. repeat split; reflexivity.
Qed.

(** ** The alias table *)

Section TableFacts.
Import PyStr Py processing_component Aux.

Lemma assoc_set_column_ne (name c : string) (col : list cell) (df : DataFrame) :
  c <> name -> assoc c (set_column name col df) = assoc c df.
Proof.
  intros Hc. induction df as [|[n v] df IH]; cbn.
  - destruct (String.eqb_spec name c); [congruence | reflexivity].
  - destruct (String.eqb_spec n name) as [->|Hn]; cbn.
    + destruct (String.eqb_spec name c); [congruence | reflexivity].
    + destruct (String.eqb_spec n c); [reflexivity | exact IH].
Qed.






End TableFacts.

Section FrameFacts.
Import PyStr Py processing_component Aux.

Variable E : env.






(** The service call touches neither the frame nor the naming log. *)
Lemma call_gemini_api_frame (key : string) (st : pstate) :
  frame (snd (call_gemini_api E key st)) = frame st
  /\ namings (snd (call_gemini_api E key st)) = namings st.
Proof.
  unfold call_gemini_api.
  destruct (key =? ""); [split; reflexivity|].
  destruct (configure E key); [split; reflexivity|].
  rewrite retry_run.
  set (a := leading _ 4).
  destruct (fst (call_gemini_api_attempt E _)) as [t|e];
    [|destruct (exn_class_eqb (exn_cls e) APIRateLimitError)];
    split; reflexivity.
Qed.



End FrameFacts.



(** ** Normalized keys *)

Section NormalizeFacts.
Import PyStr Py processing_component Aux.

Lemma upper_char_not_lower (c : ascii) : is_lower (upper_char c) = false.
Proof. destruct c as [[] [] [] [] [] [] [] []]; reflexivity. Qed.

Lemma upper_no_lower (s : string) : any_char is_lower (upper s) = false.
Proof.
  induction s as [|c s IH]; cbn [upper]; [reflexivity|].
  destruct (Ascii.eqb c (ascii_of_nat 223)); cbn [any_char].
  - rewrite IH. reflexivity.
  - rewrite upper_char_not_lower, IH. reflexivity.
Qed.

Lemma lstrip_none (p : ascii -> bool) (s : string) :
  any_char p s = false -> any_char p (lstrip s) = false.
Proof.
  induction s as [|c s IH]; cbn; [reflexivity|].
  intros H. apply orb_false_iff in H as [Hc Hs].
  destruct (is_space c); [apply IH; exact Hs|]. cbn. rewrite Hc, Hs. reflexivity.
Qed.

Lemma rstrip_none (p : ascii -> bool) (s : string) :
  any_char p s = false -> any_char p (rstrip s) = false.
Proof.
  induction s as [|c s IH]; cbn; [reflexivity|].
  intros H. apply orb_false_iff in H as [Hc Hs]. specialize (IH Hs).
  destruct (rstrip s) as [|d r].
  - destruct (is_space c); cbn; [reflexivity | rewrite Hc; reflexivity].
  - cbn in *. rewrite Hc. exact IH.
Qed.

(** Every word of [split] is non-empty, free of whitespace, and free of
    whatever its source is free of. *)
Lemma split_words (p : ascii -> bool) (s : string) :
  any_char p s = false ->
  Forall (fun w => w <> EmptyString /\ any_char is_space w = false
                   /\ any_char p w = false) (split s).
Proof.
  induction s as [|c r IH]; intros Hp; [constructor|].
  cbn in Hp. apply orb_false_iff in Hp as [Hc Hr]. specialize (IH Hr).
  cbn [split]. destruct (is_space c) eqn:Hsp; [exact IH|].
  destruct r as [|d r'].
  - constructor; [|constructor]. cbn. rewrite Hsp, Hc. repeat split. discriminate.
  - destruct (is_space d) eqn:Hd.
    + constructor; [|exact IH]. cbn. rewrite Hsp, Hc. repeat split. discriminate.
    + destruct (split (String d r')) as [|w ws].
      * constructor; [|constructor]. cbn. rewrite Hsp, Hc. repeat split. discriminate.
      * inversion IH as [|? ? (Hw1 & Hw2 & Hw3) Hws]; subst.
        constructor; [|exact Hws]. cbn. rewrite Hsp, Hc, Hw2, Hw3.
        repeat split. discriminate.
Qed.


Lemma split_cons (c : ascii) (r : string) :
  split (String c r)
  = if is_space c then split r
    else match r with
         | EmptyString => [String c EmptyString]
         | String d _ =>
             if is_space d then String c EmptyString :: split r
             else match split r with
                  | w :: ws => String c w :: ws
                  | [] => [String c EmptyString]
                  end
         end.
Proof. reflexivity. Qed.

Lemma split_starts (c : ascii) (r : string) :
  is_space c = false -> split (String c r) <> [].
Proof.
  intros Hc. rewrite split_cons, Hc.
  destruct r as [|d r']; [discriminate|].
  destruct (is_space d); [discriminate|].
  destruct (split (String d r')); discriminate.
Qed.

(** Whitespace around a text changes none of its words. *)
Lemma split_lstrip (s : string) : split (lstrip s) = split s.
Proof.
  induction s as [|c r IH]; [reflexivity|].
  cbn [lstrip]. rewrite (split_cons c r).
  destruct (is_space c) eqn:Hc; [exact IH|].
  rewrite split_cons, Hc. reflexivity.
Qed.

Lemma rstrip_head (c : ascii) (r : string) (d : ascii) (r' : string) :
  rstrip (String c r) = String d r' -> d = c.
Proof.
  cbn [rstrip]. destruct (rstrip r).
  - destruct (is_space c); [discriminate|]. intros H. injection H as H _. congruence.
  - intros H. injection H as H _. congruence.
Qed.

Lemma split_rstrip (s : string) : split (rstrip s) = split s.
Proof.
  induction s as [|c r IH]; [reflexivity|].
  cbn [rstrip]. destruct (rstrip r) as [|e rr] eqn:Hr.
  - cbn [split] in IH. rewrite (split_cons c r), <- IH.
    destruct (is_space c) eqn:Hc; [reflexivity|].
    rewrite split_cons, Hc.
    destruct r as [|d r']; [reflexivity|].
    destruct (is_space d) eqn:Hd; [reflexivity|].
    exfalso. apply (split_starts d r' Hd). symmetry. exact IH.
  - rewrite (split_cons c r), (split_cons c (String e rr)), IH.
    destruct (is_space c); [reflexivity|].
    destruct r as [|d r']; [discriminate Hr|].
    rewrite (rstrip_head d r' e rr Hr). reflexivity.
Qed.

(** The words of a text, joined by single spaces, are the text written
    out character by character without the whitespace around it and
    with one space for every run of whitespace inside it. *)
Lemma collapse_split (s : string) :
  forall started gap : bool,
    Spec.collapse started gap s
    = match split s with
      | [] => EmptyString
      | ws =>
          (if started && (gap || match s with
                                 | String c _ => is_space c
                                 | EmptyString => false
                                 end)
           then " " else EmptyString) ++ join " " ws
      end.
Proof.
  induction s as [|c r IH]; intros started gap; [reflexivity|].
  cbn [Spec.collapse]. rewrite (split_cons c r).
  destruct (is_space c) eqn:Hc.
  - rewrite IH. destruct (split r); [reflexivity|].
    rewrite !orb_true_r. reflexivity.
  - rewrite orb_false_r.
    assert (Hjoin : String c (Spec.collapse true false r)
                    = join " " (match r with
                                | EmptyString => [String c EmptyString]
                                | String d _ =>
                                    if is_space d then String c EmptyString :: split r
                                    else match split r with
                                         | w :: ws => String c w :: ws
                                         | [] => [String c EmptyString]
                                         end
                                end)).
    { rewrite IH. destruct r as [|d r']; [reflexivity|].
      cbn [andb orb]. destruct (is_space d) eqn:Hd.
      - destruct (split (String d r')) as [|w ws]; reflexivity.
      - pose proof (split_starts d r' Hd) as Hne.
        destruct (split (String d r')) as [|w ws]; [congruence|].
        destruct ws; reflexivity. }
    destruct r as [|d r'].
    + destruct (started && gap); rewrite Hjoin; reflexivity.
    + destruct (is_space d) eqn:Hd.
      * destruct (started && gap); rewrite Hjoin; reflexivity.
      * pose proof (split_starts d r' Hd) as Hne.
        destruct (split (String d r')) as [|w ws] eqn:Hs; [congruence|].
        destruct (started && gap); rewrite Hjoin; reflexivity.
Qed.

Lemma upper_char_twice (c : ascii) : upper_char (upper_char c) = upper_char c.
Proof. destruct c as [[] [] [] [] [] [] [] []]; reflexivity. Qed.

Lemma upper_char_sharp (c : ascii) :
  Ascii.eqb c (ascii_of_nat 223) = false ->
  Ascii.eqb (upper_char c) (ascii_of_nat 223) = false.
Proof. destruct c as [[] [] [] [] [] [] [] []]; intros H; try reflexivity; discriminate H. Qed.

Lemma upper_char_space (c : ascii) : is_space (upper_char c) = is_space c.
Proof. destruct c as [[] [] [] [] [] [] [] []]; reflexivity. Qed.

(** Upper case of upper case is upper case. *)
Lemma upper_twice (s : string) : upper (upper s) = upper s.
Proof.
  induction s as [|c s IH]; [reflexivity|].
  cbn [upper]. destruct (Ascii.eqb c (ascii_of_nat 223)) eqn:Hc.
  - cbn. rewrite IH. reflexivity.
  - cbn [upper]. rewrite (upper_char_sharp c Hc), upper_char_twice, IH. reflexivity.
Qed.

(** Upper case and the collapse of whitespace do not disturb each
    other. *)
Lemma upper_collapse (s : string) :
  forall started gap : bool,
    upper (Spec.collapse started gap s) = Spec.collapse started gap (upper s).
Proof.
  induction s as [|c s IH]; intros started gap; [reflexivity|].
  cbn [upper Spec.collapse].
  destruct (Ascii.eqb c (ascii_of_nat 223)) eqn:Hc.
  - apply Ascii.eqb_eq in Hc. subst c.
    change (is_space (ascii_of_nat 223)) with false. cbn [Spec.collapse].
    change (is_space "S"%char) with false. cbn [andb].
    destruct (started && gap); cbn; rewrite IH; reflexivity.
  - cbn [Spec.collapse]. rewrite upper_char_space.
    destruct (is_space c); [apply IH|].
    destruct (started && gap); cbn [upper]; rewrite ?Hc, IH; reflexivity.
Qed.


(** The key the code computes is the normalized key of the
    specification. *)
Lemma standardize_normalize (s : string) : standardize s = Spec.normalize s.
Proof.
  unfold standardize, Spec.normalize, strip.
  rewrite split_rstrip, split_lstrip, collapse_split.
  destruct (split (upper s)); reflexivity.
Qed.







End NormalizeFacts.

Section RecordFacts.
Import PyStr Py processing_component Aux.

Variable E : env.

(** What a returned record was built from. *)
Lemma process_response_record (pdf : bytes) (raw : option string)
  (st1 st2 : pstate) (r : processed) (err : option string) :
  process_response E pdf raw st1 = (inl (Some r, err), st2) ->
  exists (payer key_identifier currency t m : json) (st' : pstate),
    getitem (original_data r) "payee" = inl (original_payee r)
    /\ getitem (original_data r) "payer" = inl payer
    /\ getitem (original_data r) "key_identifier" = inl key_identifier
    /\ getitem (original_data r) "currency" = inl currency
    /\ getitem (original_data r) "is_trailer_fee" = inl t
    /\ getitem (original_data r) "is_management_fee" = inl m
    /\ resolve_payee payer (original_payee r) st1 = (inl (mapped_payee r), st')
    /\ generate_filename (format_value E) key_identifier payer (mapped_payee r)
         currency t m = inl (generated_filename r)
    /\ st2 = log_naming [key_identifier; payer; mapped_payee r; currency; t; m] st'.
Proof.
  unfold process_response. destruct raw as [raw|]; [|discriminate].
  unfold bind, lift, ret.
  destruct (json_loads E (clean_response_of raw)) as [parsed|]; [|discriminate].
  destruct (all_present parsed required_fields) as [[]|]; cbn [negb];
    [| destruct (missing_fields parsed required_fields); discriminate | discriminate].
  destruct (getitem parsed "payee") as [payee|] eqn:Hpayee; [|discriminate].
  destruct (getitem parsed "payer") as [payer|] eqn:Hpayer; [|discriminate].
  destruct (resolve_payee payer payee st1) as [[short|] st'] eqn:Hres; [|discriminate].
  destruct (getitem parsed "key_identifier") as [k|] eqn:Hk; [|discriminate].
  destruct (getitem parsed "currency") as [cur|] eqn:Hcur; [|discriminate].
  destruct (getitem parsed "is_trailer_fee") as [t|] eqn:Ht; [|discriminate].
  destruct (getitem parsed "is_management_fee") as [m|] eqn:Hm; [|discriminate].
  destruct (generate_filename (format_value E) k payer short cur t m) as [fname|] eqn:Hg;
    [|discriminate].
  destruct (get parsed "next_step" (JStr "Unknown")) as [next|]; [|discriminate].
  intros H. injection H as Hr _ Hst. subst r st2. cbn.
  exists payer, k, cur, t, m, st'. repeat split; assumption.
Qed.


End RecordFacts.



(** ** Batches *)

Section OutcomeFacts.
Import PyStr Py processing_component Aux.

Variable E : env.

Lemma pdf_to_image_shape (pdf : bytes) :
  (exists png, pdf_to_image E pdf = (Some png, None))
  \/ (exists msg, pdf_to_image E pdf = (None, Some msg) /\ msg <> EmptyString).
Proof.
  unfold pdf_to_image. destruct (fitz_render E pdf) as [|png|e].
  - right. eexists. split; [reflexivity | discriminate].
  - left. eexists. reflexivity.
  - right. eexists. split; [reflexivity | discriminate].
Qed.

Lemma call_gemini_api_shape (key : string) (st : pstate) :
  (exists t, fst (call_gemini_api E key st) = (Some t, None))
  \/ (exists msg, fst (call_gemini_api E key st) = (None, Some msg) /\ msg <> EmptyString).
Proof.
  unfold call_gemini_api. destruct (key =? "").
  - right. eexists. split; [reflexivity | discriminate].
  - destruct (configure E key) as [e|].
    + right. eexists. split; [reflexivity | discriminate].
    + destruct (call_gemini_api_with_retry E (time_sleep 1 st)) as [[t|e] st2].
      * left. eexists. reflexivity.
      * right. destruct (exn_class_eqb (exn_cls e) APIRateLimitError);
          eexists; (split; [reflexivity | discriminate]).
Qed.

Lemma process_response_shape (pdf : bytes) (raw : option string) (st : pstate) :
  match fst (process_response E pdf raw st) with
  | inl (Some r, None) => pdf_data r = pdf /\ original_filename r = None
  | inl (None, Some msg) => msg <> EmptyString
  | inl _ => False
  | inr _ => True
  end.
Proof.
  unfold process_response. destruct raw as [raw|]; [|exact I].
  unfold bind, lift, ret.
  destruct (json_loads E (clean_response_of raw)) as [parsed|]; [|exact I].
  destruct (all_present parsed required_fields) as [[]|]; cbn [negb]; [| |exact I].
  2:{ destruct (missing_fields parsed required_fields); [|exact I]. cbn. discriminate. }
  destruct (getitem parsed "payee") as [payee|]; [|exact I].
  destruct (getitem parsed "payer") as [payer|]; [|exact I].
  destruct (resolve_payee payer payee st) as [[short|] st']; [|exact I].
  destruct (getitem parsed "key_identifier") as [k|]; [|exact I].
  destruct (getitem parsed "currency") as [cur|]; [|exact I].
  destruct (getitem parsed "is_trailer_fee") as [t|]; [|exact I].
  destruct (getitem parsed "is_management_fee") as [m|]; [|exact I].
  destruct (generate_filename (format_value E) k payer short cur t m) as [fname|];
    [|exact I].
  destruct (get parsed "next_step" (JStr "Unknown")) as [next|]; [|exact I].
  cbn. split; reflexivity.
Qed.

Lemma process_echeque_shape (pdf : bytes) (key : string) (st : pstate) :
  (exists r, fst (process_echeque E pdf key st) = (Some r, None)
             /\ pdf_data r = pdf /\ original_filename r = None)
  \/ (exists msg, fst (process_echeque E pdf key st) = (None, Some msg)
                  /\ msg <> EmptyString).
Proof.
  unfold process_echeque.
  destruct (pdf_to_image_shape pdf) as [(png & ->) | (msg & -> & Hmsg)].
  2:{ cbn [truthy_opt]. apply String.eqb_neq in Hmsg. rewrite Hmsg. cbn.
      right. exists msg. split; [reflexivity|]. apply String.eqb_neq. exact Hmsg. }
  cbn [truthy_opt].
  destruct (call_gemini_api_shape key st) as [(t & Ht) | (msg & Ht & Hmsg)];
    destruct (call_gemini_api E key st) as [[raw e] st1]; cbn [fst] in Ht;
    injection Ht as -> ->.
  2:{ cbn [truthy_opt]. apply String.eqb_neq in Hmsg. rewrite Hmsg. cbn.
      right. exists msg. split; [reflexivity|]. apply String.eqb_neq. exact Hmsg. }
  cbn [truthy_opt].
  pose proof (process_response_shape pdf (Some t) st1) as Hp.
  destruct (process_response E pdf (Some t) st1) as [[[[r|] [msg|]]|e] st2];
    cbn [fst] in Hp; try contradiction.
  - left. exists r. cbn. destruct Hp. repeat split; assumption.
  - right. exists msg. split; [reflexivity | exact Hp].
  - right. destruct (exn_class_eqb (exn_cls e) JSONDecodeError);
      eexists; (split; [reflexivity | discriminate]).
Qed.

End OutcomeFacts.

Section BatchFacts.
Import PyStr Py processing_component Aux.

Variable E : env.

(** A call of [process_echeque] returns a record and no error, or no
    record and an error text. *)
Lemma outcomes_shape (key : string) (files : list file_info) :
  forall i st,
    List.length (outcomes E key i files st) = List.length files
    /\ Forall (fun o => (exists r, o = (Some r, None))
                        \/ (exists msg, o = (None, Some msg) /\ msg <> EmptyString))
         (outcomes E key i files st).
Proof.
  induction files as [|f files IH]; intros i st; cbn [outcomes]; [split; constructor|].
  destruct (IH (S i) (snd (process_echeque E (content f) key (entered i st)))) as [Hl Hall].
  split; [cbn [List.length]; rewrite Hl; reflexivity|].
  constructor; [|exact Hall].
  destruct (process_echeque_shape E (content f) key (entered i st))
    as [(r & Hr & _) | (msg & Hr & Hmsg)].
  - left. exists r. exact Hr.
  - right. exists msg. split; assumption.
Qed.

(** The loop appends, for every file in turn, the stamped record of its
    call or the failure record with the error text of its call. *)
Lemma process_loop_entries (key : string) (files : list file_info) :
  forall i acc errs st,
    process_loop E key i files acc errs st
    = (((acc ++ records (combine files (outcomes E key i files st)))%list,
        (errs ++ failures (combine files (outcomes E key i files st)))%list),
       settled E key i files st).
Proof.
  induction files as [|f files IH]; intros i acc errs st;
    cbn [process_loop outcomes settled combine records failures].
  - rewrite !app_nil_r. reflexivity.
  - fold (entered i st).
    destruct (process_echeque_shape E (content f) key (entered i st))
      as [(r & Hr & _) | (msg & Hr & Hmsg)];
      destruct (process_echeque E (content f) key (entered i st)) as [[result err] st1];
      cbn [fst snd] in *; injection Hr as -> ->.
    + cbn [truthy_opt records failures]. rewrite IH, <- app_assoc. reflexivity.
    + cbn [truthy_opt]. apply String.eqb_neq in Hmsg. rewrite Hmsg. cbn [negb].
      cbn [records failures or_unknown]. rewrite IH, <- app_assoc. reflexivity.
Qed.

(** The processed records are those of the files whose call succeeded,
    the failure records those of the others. *)
Lemma records_names (files : list file_info) :
  forall outs : list (option processed * option string),
    Forall (fun o => (exists r, o = (Some r, None))
                      \/ (exists msg, o = (None, Some msg) /\ msg <> EmptyString)) outs ->
    map original_filename (records (combine files outs))
    = map (fun f => Some (filename f)) (pick true (map succeeded outs) files)
    /\ map failed_filename (failures (combine files outs))
       = map filename (pick false (map succeeded outs) files).
Proof.
  induction files as [|f files IH]; intros outs Hall.
  - destruct outs as [|o outs]; split; reflexivity.
  - destruct outs as [|o outs]; [split; reflexivity|].
    inversion Hall as [|? ? Ho Hrest]; subst.
    destruct (IH outs Hrest) as [H1 H2].
    destruct Ho as [(r & ->) | (msg & -> & _)]; cbn; rewrite H1, H2; split; reflexivity.
Qed.

Lemma pick_lengths {A} (flags : list bool) (l : list A) :
  List.length flags = List.length l ->
  (List.length (pick true flags l) + List.length (pick false flags l))%nat = List.length l.
Proof.
  revert l. induction flags as [|b flags IH]; intros [|x l] H; cbn in *; try lia.
  injection H as H. specialize (IH l H). destruct b; cbn; lia.
Qed.

End BatchFacts.

Section RunFacts.
Import teams_component.

Context {W : Type}.
Variable handler : request -> W -> answer * W.

Lemma run_bind {A B} (p : prog A) (f : A -> prog B) (w : W) :
  run handler (bind p f) w
  = let '(a, t1, w1) := run handler p w in
    let '(b, t2, w2) := run handler (f a) w1 in
    (b, (t1 ++ t2)%list, w2).
Proof.
  revert w. induction p as [a|r k IH]; intros w; cbn.
  - destruct (run handler (f a) w) as [[b t2] w2]. reflexivity.
  - destruct (handler r w) as [ans w1]. rewrite IH.
    destruct (run handler (k ans) w1) as [[a t1] w1'].
    destruct (run handler (f a) w1') as [[b t2] w2]. reflexivity.
Qed.

(** The upload loop appends, for every file in turn, the result record
    of its call of [upload_file], and asks what the calls ask. *)
Lemma upload_loop_entries (token team : string)
  (files : list processing_component.processed) :
  forall (acc : list upload_result) (w : W),
    run handler (upload_loop token team files acc) w
    = ((acc ++ map (fun fo => Aux.result_of token team (fst fo) (fst (snd fo)))
                 (combine files (Aux.deliveries handler token team files w)))%list,
       concat (map snd (Aux.deliveries handler token team files w)),
       Aux.delivered handler token team files w).
Proof.
  induction files as [|f files IH]; intros acc w;
    cbn [upload_loop Aux.deliveries Aux.delivered].
  - cbn. rewrite app_nil_r. reflexivity.
  - destruct (determine_target_folder (processing_component.generated_filename f) team token)
      as [[fid fpath] fname] eqn:Hfolder.
    rewrite run_bind.
    destruct (run handler (upload_file token "None" fid (processing_component.pdf_data f)
                             (processing_component.generated_filename f) team fpath) w)
      as [[[ok err] t1] w1].
    rewrite IH. cbn [fst snd combine map concat].
    assert (Hr : Aux.result_of token team f (ok, err)
                 = mkResult (processing_component.generated_filename f)
                     (processing_component.or_unknown
                        (processing_component.original_filename f))
                     ok err fname fid)
      by (unfold Aux.result_of; rewrite Hfolder; reflexivity).
    rewrite Hr, <- app_assoc. reflexivity.
Qed.

Lemma deliveries_length (token team : string)
  (files : list processing_component.processed) :
  forall w : W, List.length (Aux.deliveries handler token team files w) = List.length files.
Proof.
  induction files as [|f files IH]; intros w; cbn [Aux.deliveries]; [reflexivity|].
  destruct (determine_target_folder (processing_component.generated_filename f) team token)
    as [[fid fpath] fname].
  cbn [List.length]. rewrite IH. reflexivity.
Qed.

Lemma results_fields (token team : string) :
  forall (files : list processing_component.processed)
         (outs : list (outcome * list (request * answer))),
    List.length outs = List.length files ->
    let results := map (fun fo => Aux.result_of token team (fst fo) (fst (snd fo)))
                     (combine files outs) in
    map res_filename results = map processing_component.generated_filename files
    /\ map res_original_filename results
       = map (fun f => processing_component.or_unknown
                         (processing_component.original_filename f)) files
    /\ map success results = map (fun o => fst (fst o)) outs
    /\ map error results = map (fun o => snd (fst o)) outs.
Proof.
  induction files as [|f files IH]; intros [|o outs] H; try discriminate H.
  - repeat split.
  - injection H as H. specialize (IH outs H). cbv zeta in *.
    destruct IH as (H1 & H2 & H3 & H4).
    cbn [combine map fst snd]. rewrite H1, H2, H3, H4.
    unfold Aux.result_of.
    destruct (determine_target_folder (processing_component.generated_filename f) team token)
      as [[fid fpath] fname].
    repeat split.
Qed.

End RunFacts.

(** C9.  A batch calls [process_echeque] once per file, in input order,
    each call in the state the call before it left (two seconds later
    for every file but the first), whatever the calls before it
    returned.  Every call returns a record and no error, or no record
    and an error text.  The processed records that [process_echeques]
    returns are the records of the calls that returned one, in input
    order, each with the name, subject and date of its file on it; the
    failure records are, in input order, the name of each file whose
    call returned an error together with exactly that error text.  So
    every file is in exactly one of the two lists: the files whose call
    succeeded are the processed ones, the others the failed ones.  With
    a token at hand the upload loop calls [upload_file] once per file in
    input order, each call on the store the call before it left, and
    returns one result record per file holding the generated name, the
    name of the source file, and the success flag and the error that
    the call for that file returned; it asks the store exactly what
    those calls ask. *)
Theorem batch_isolation :
  (forall (E : processing_component.env)
          (loaded : processing_component.DataFrame + string)
          (files : list processing_component.file_info) (key : string),
      let st0 := processing_component.mkPState
                   (processing_component.initial_frame loaded) 0 [] [] in
      let outs := Aux.outcomes E key 0 files st0 in
      let flags := map Aux.succeeded outs in
      let done := fst (fst (processing_component.process_echeques E loaded files key)) in
      let failed := snd (fst (processing_component.process_echeques E loaded files key)) in
      List.length outs = List.length files
      /\ Forall (fun o => (exists r, o = (Some r, None))
                          \/ (exists msg, o = (None, Some msg) /\ msg <> EmptyString)) outs
      /\ done = Aux.records (combine files outs)
      /\ failed = Aux.failures (combine files outs)
      /\ snd (processing_component.process_echeques E loaded files key)
         = Aux.settled E key 0 files st0
      /\ map processing_component.original_filename done
         = map (fun f => Some (processing_component.filename f))
               (Aux.pick true flags files)
      /\ map processing_component.failed_filename failed
         = map processing_component.filename (Aux.pick false flags files)
      /\ (List.length done + List.length failed)%nat = List.length files)
  /\ (forall (W : Type) (handler : teams_component.request -> W -> teams_component.answer * W)
             (w : W) (files : list processing_component.processed)
             (team : string) (token : option string) (expires_at : Z),
        let tok := teams_component.or_none token in
        let outs := Aux.deliveries handler tok team files w in
        let results := map (fun fo => Aux.result_of tok team (fst fo) (fst (snd fo)))
                         (combine files outs) in
        teams_component.run handler
          (teams_component.upload_files_to_teams files team (token, expires_at, None)) w
        = ((Some results, None, token, expires_at),
           concat (map snd outs),
           Aux.delivered handler tok team files w)
        /\ List.length outs = List.length files
        /\ map teams_component.res_filename results
           = map processing_component.generated_filename files
        /\ map teams_component.res_original_filename results
           = map (fun f => processing_component.or_unknown
                             (processing_component.original_filename f)) files
        /\ map teams_component.success results = map (fun o => fst (fst o)) outs
        /\ map teams_component.error results = map (fun o => snd (fst o)) outs
        /\ List.length results = List.length files).
Proof.
  split.
  - intros E loaded files key st0 outs flags done failed.
    destruct (outcomes_shape E key files 0 st0) as [Hlen Hshape].
    fold outs in Hlen, Hshape.
    assert (Hloop : processing_component.process_echeques E loaded files key
                    = ((Aux.records (combine files outs),
                        Aux.failures (combine files outs)),
                       Aux.settled E key 0 files st0)).
    { unfold processing_component.process_echeques.
      rewrite process_loop_entries. reflexivity. }
    subst done failed. rewrite Hloop. cbn [fst snd].
    destruct (records_names files outs Hshape) as [Hdone Hfailed].
    split; [exact Hlen|]. split; [exact Hshape|].
    split; [reflexivity|]. split; [reflexivity|]. split; [reflexivity|].
    split; [exact Hdone|]. split; [exact Hfailed|].
    assert (Hflags : List.length flags = List.length files)
      by (subst flags; rewrite length_map; exact Hlen).
    pose proof (pick_lengths flags files Hflags) as Hl.
    apply (f_equal (@List.length _)) in Hdone, Hfailed.
    rewrite !length_map in Hdone, Hfailed. fold flags in Hdone, Hfailed. lia.
  - intros W handler w files team token expires_at tok outs results.
    pose proof (deliveries_length handler tok team files w) as Hlen. fold outs in Hlen.
    destruct (results_fields tok team files outs Hlen) as (H1 & H2 & H3 & H4).
    fold results in H1, H2, H3, H4.
    split; [|split; [exact Hlen|split; [exact H1|split; [exact H2|split;
            [exact H3|split; [exact H4|]]]]]].
    + unfold teams_component.upload_files_to_teams. cbn [Py.truthy_opt].
      rewrite run_bind. fold tok. rewrite upload_loop_entries. cbn [app].
      fold outs. fold results. cbn. rewrite app_nil_r. reflexivity.
    + apply (f_equal (@List.length _)) in H1. rewrite !length_map in H1. exact H1.
Qed.

(** The theorem on two batches.  Of three documents the second gets an
    answer that is not JSON: the first and the third are processed, and
    the failure record of the second holds the parse error.  Of two
    records the first is sent while the connection times out: its
    result holds the failure and its text, and the second is
    delivered. *)
Lemma batch_isolation_witness :
  (map processing_component.original_filename
     (fst (fst (processing_component.process_echeques Demo.env_second_garbled
                  (inl Demo.aliases) Demo.three_files "key")))
   = [Some "a.pdf"; Some "c.pdf"]
   /\ snd (fst (processing_component.process_echeques Demo.env_second_garbled
                  (inl Demo.aliases) Demo.three_files "key"))
      = [processing_component.mkFailure "b.pdf"
           "Error parsing JSON response: Expecting value: line 1 column 1 (char 0)"])
  /\ fst (fst (teams_component.run Demo.flaky
                 (teams_component.upload_files_to_teams Demo.two_records "team"
                    (Some "tok", 0%Z, None))
                 (0%nat, Demo.empty_store)))
     = (Some [teams_component.mkResult "000495 WMC-AAM.pdf" "a.pdf" false
                (Some "SharePoint upload error: timed out") "WMC E-cheque"
                "01OU6MNL3KE3XP2T5JMZC244U33CGKOAMH";
              teams_component.mkResult "HKD 000496 AAM.pdf" "Unknown" true None
                "E cheque WMC Nominee" "01OU6MNL5F3ZCFDTEACRAJDOX2G4NUMX72"],
        None, Some "tok", 0%Z).
Proof.
  destruct batch_isolation as [Hp Hu]. split.
  - pose proof (Hp Demo.env_second_garbled (inl Demo.aliases) Demo.three_files "key") as H.
    cbv zeta in H. destruct H as (_ & _ & Hdone & Hfailed & _).
    rewrite Hdone, Hfailed. split; vm_compute; reflexivity.
  - pose proof (Hu _ Demo.flaky (0%nat, Demo.empty_store) Demo.two_records "team"
                  (Some "tok") 0%Z) as H.
    cbv zeta in H. destruct H as (Hrun & _).
    rewrite Hrun. vm_compute. reflexivity.
Defined.

(** ** The chunk loop *)

Section ChunkFacts.
Import PyStr Py teams_component.

(** The chunk sent at offset [up]. *)
Lemma upload_chunks_eq (url : string) (data : bytes) (up : nat) :
  upload_chunks url data up
  = if (up <? List.length data)%nat then
      let chunk_data := firstn chunk_size (skipn up data) in
      let chunk_length := List.length chunk_data in
      let end_ := (Z.of_nat up + Z.of_nat chunk_length - 1)%Z in
      call (PutChunk url (Z.of_nat chunk_length) (Z.of_nat up) end_
              (Z.of_nat (List.length data)) chunk_data)
        (fun chunk_response =>
           if negb (status_in chunk_response [200; 201; 202]%Z) then
             Ret (http_error ("Error uploading chunk " ++ str_of_Z (Z.of_nat up)
                              ++ "-" ++ str_of_Z end_ ++ ": ") chunk_response)
           else if status_in chunk_response [200; 201]%Z then Ret (true, None)
           else upload_chunks url data (up + chunk_length))
    else Ret (false, Some "Upload completed but unexpected response received").
Proof.
  destruct (Nat.ltb_spec up (List.length data)) as [H|H];
    simp upload_chunks;
    destruct (lt_dec up (List.length data)) as [H'|H']; try lia; reflexivity.
Qed.

Lemma chunk_length_eq (data : bytes) (up : nat) :
  List.length (firstn chunk_size (skipn up data))
  = Nat.min chunk_size (List.length data - up).
Proof. rewrite length_firstn, length_skipn. reflexivity. Qed.

Lemma firstn_min_length {A} (n : nat) (l : list A) :
  firstn (Nat.min n (List.length l)) l = firstn n l.
Proof.
  destruct (Nat.le_gt_cases n (List.length l)) as [H|H].
  - replace (Nat.min n (List.length l)) with n by lia. reflexivity.
  - replace (Nat.min n (List.length l)) with (List.length l) by lia.
    rewrite firstn_all, firstn_all2 by lia. reflexivity.
Qed.

Lemma chunk_appends (data : bytes) (up : nat) :
  (firstn up data ++ firstn chunk_size (skipn up data))%list
  = firstn (up + List.length (firstn chunk_size (skipn up data))) data.
Proof.
  rewrite chunk_length_eq. revert data.
  induction up as [|u IH]; intros data.
  - cbn [firstn skipn app Nat.add]. rewrite Nat.sub_0_r.
    symmetry. apply firstn_min_length.
  - destruct data as [|x d]; [rewrite !firstn_nil; reflexivity|].
    cbn [firstn skipn app Nat.add List.length Nat.sub]. f_equal. apply IH.
Qed.

(** The plan, one chunk at a time. *)
Lemma chunk_plan_eq (url : string) (data : bytes) (up : nat) :
  chunk_plan url data up
  = if (up <? List.length data)%nat then
      let chunk_data := firstn chunk_size (skipn up data) in
      let chunk_length := List.length chunk_data in
      PutChunk url (Z.of_nat chunk_length) (Z.of_nat up)
        (Z.of_nat up + Z.of_nat chunk_length - 1) (Z.of_nat (List.length data)) chunk_data
      :: chunk_plan url data (up + chunk_length)
    else [].
Proof.
  unfold chunk_plan at 1. rewrite upload_chunks_eq.
  destruct (up <? List.length data)%nat; [|reflexivity].
  cbv zeta. unfold call.
  cbn [run accept_all status_in status_code existsb Z.eqb Pos.eqb orb negb].
  unfold chunk_plan.
  destruct (run accept_all
              (upload_chunks url data (up + List.length (firstn chunk_size (skipn up data)))) tt)
    as [[res t] w]. reflexivity.
Qed.

End ChunkFacts.

Section PlanFacts.
Import PyStr Py teams_component.

Lemma chunk_plan_done (url : string) (data : bytes) (up : nat) :
  (List.length data <= up)%nat -> chunk_plan url data up = [].
Proof.
  intros H. rewrite chunk_plan_eq.
  destruct (Nat.ltb_spec up (List.length data)); [lia | reflexivity].
Qed.


(** The chunks of the plan, put together, are the rest of the payload. *)
Lemma chunk_plan_covers (url : string) (data : bytes) :
  forall (n up : nat),
    (List.length data - up <= n)%nat ->
    concat (map data_of (chunk_plan url data up)) = skipn up data.
Proof.
  induction n as [|n IH]; intros up Hn.
  - rewrite chunk_plan_done by lia. rewrite skipn_all2 by lia. reflexivity.
  - rewrite chunk_plan_eq.
    destruct (Nat.ltb_spec up (List.length data)) as [Hlt|Hge];
      [|rewrite skipn_all2 by lia; reflexivity].
    cbv zeta. pose proof (chunk_length_eq data up) as Hlen.
    pose proof chunk_size_pos as Hpos.
    cbn [map concat data_of]. rewrite IH by lia.
    rewrite Hlen, Nat.add_comm, <- skipn_skipn.
    rewrite <- (length_skipn up data), <- (firstn_min_length chunk_size (skipn up data)).
    set (m := Nat.min chunk_size (List.length (skipn up data))).
    apply firstn_skipn.
Qed.

Section AnyStore.

Context {W : Type}.
Variable handler : request -> W -> answer * W.

(** Against any store the chunk requests made are an initial part of the
    plan, and the whole plan unless the store's last answer ended it. *)
Lemma chunk_run_prefix (url : string) (data : bytes) :
  forall (n up : nat) (w : W),
    (List.length data - up <= n)%nat ->
    exists rest,
      chunk_plan url data up
      = (map fst (snd (fst (run handler (upload_chunks url data up) w))) ++ rest)%list
      /\ (rest = []
          \/ exists pre r a,
               snd (fst (run handler (upload_chunks url data up) w)) = (pre ++ [(r, a)])%list
               /\ accepted a = false).
Proof.
  induction n as [|n IH]; intros up w Hn.
  - rewrite chunk_plan_done by lia. rewrite upload_chunks_eq.
    destruct (Nat.ltb_spec up (List.length data)); [lia|]. cbn. exists []. auto.
  - rewrite chunk_plan_eq, upload_chunks_eq.
    destruct (Nat.ltb_spec up (List.length data)) as [Hlt|Hge];
      [|cbn; exists []; auto].
    cbv zeta. pose proof (chunk_length_eq data up) as Hlen.
    pose proof chunk_size_pos as Hpos.
    set (c := firstn chunk_size (skipn up data)) in *.
    set (req := PutChunk url _ _ _ _ c).
    unfold call. cbn [run].
    destruct (handler req w) as [[resp|msg] w1].
    + unfold status_in. cbn [existsb].
      destruct (status_code resp =? 200)%Z eqn:H200;
        [|destruct (status_code resp =? 201)%Z eqn:H201;
          [|destruct (status_code resp =? 202)%Z eqn:H202]];
        cbn [orb negb run fst snd map app].
      * exists (chunk_plan url data (up + List.length c)). split; [reflexivity|].
        right. exists [], req, (inl resp). split; [reflexivity|].
        cbn. apply Z.eqb_eq in H200. rewrite H200. reflexivity.
      * exists (chunk_plan url data (up + List.length c)). split; [reflexivity|].
        right. exists [], req, (inl resp). split; [reflexivity|].
        cbn. apply Z.eqb_eq in H201. rewrite H201. reflexivity.
      * destruct (IH (up + List.length c)%nat w1) as (rest & Hplan & Hrest); [lia|].
        destruct (run handler (upload_chunks url data (up + List.length c)) w1)
          as [[res t] w2].
        cbn [fst snd map app] in *. exists rest. split; [rewrite Hplan; reflexivity|].
        destruct Hrest as [->|(pre & r & a & Ht & Ha)]; [left; reflexivity|].
        right. exists ((req, inl resp) :: pre), r, a. rewrite Ht. split; [reflexivity|exact Ha].
      * exists (chunk_plan url data (up + List.length c)). split; [reflexivity|].
        right. exists [], req, (inl resp). split; [reflexivity|].
        cbn. exact H202.
    + cbn [run fst snd map app].
      exists (chunk_plan url data (up + List.length c)). split; [reflexivity|].
      right. exists [], req, (inr msg). split; reflexivity.
Qed.

End AnyStore.

End PlanFacts.

Section FullChunks.
Import PyStr Py teams_component.




End FullChunks.

(** ** The transfer against any store *)

Section TransferFacts.
Import PyStr Py teams_component.

Context {W : Type}.
Variable handler : request -> W -> answer * W.

Lemma transfer_small (tok drive folder name : string) (data : bytes)
  (existing : option string) (w : W) :
  (Z.of_nat (List.length data) < small_limit)%Z ->
  exists a,
    snd (fst (run handler (transfer tok drive folder name data existing) w))
    = [(single_request tok drive folder name data existing, a)].
Proof.
  intros Hlt. unfold transfer, single_request.
  destruct (Z.ltb_spec (Z.of_nat (List.length data)) small_limit) as [_|H]; [|lia].
  destruct (truthy_opt existing); unfold call; cbn [run];
    match goal with |- context [handler ?r w] => destruct (handler r w) as [[resp|msg] w1] end;
    try destruct (status_in resp [200; 201]%Z); cbn; eexists; reflexivity.
Qed.

Lemma transfer_large (tok drive folder name : string) (data : bytes)
  (existing : option string) (w : W) :
  (small_limit <= Z.of_nat (List.length data))%Z ->
  exists a w1,
    handler (session_request tok drive folder name existing) w = (a, w1)
    /\ snd (fst (run handler (transfer tok drive folder name data existing) w))
       = (session_request tok drive folder name existing, a)
         :: match session_url a with
            | Some url => snd (fst (run handler (upload_chunks url data 0) w1))
            | None => []
            end.
Proof.
  intros Hge. unfold transfer.
  destruct (Z.ltb_spec (Z.of_nat (List.length data)) small_limit) as [H|_]; [lia|].
  cbv zeta. fold (session_request tok drive folder name existing).
  set (req := session_request tok drive folder name existing).
  unfold call. cbn [run].
  destruct (handler req w) as [a w1]. exists a, w1. split; [reflexivity|].
  destruct a as [resp|msg]; [|reflexivity].
  unfold session_url, with_json.
  destruct (status_code resp =? 200)%Z; cbn [negb]; [|reflexivity].
  destruct (payload resp) as [e|u i|v|u]; cbn [upload_url_of truthy_opt negb];
    try reflexivity.
  destruct u as [url|]; cbn [truthy_opt negb]; [|reflexivity].
  destruct (negb (url =? "")); cbn [negb or_none]; [|reflexivity].
  destruct (run handler (upload_chunks url data 0) w1) as [[res t] w2]. reflexivity.
Qed.

End TransferFacts.

Ltac stop_early :=
  left;
  cbn [teams_component.run fst snd teams_component.site_url_of
       teams_component.site_id_of teams_component.value_of
       Py.truthy Py.truthy_opt negb orb String.eqb];
  unfold teams_component.http_error;
  repeat split;
  [ let H := fresh in intros H; discriminate H
  | cbn [List.length]; lia
  | repeat first
      [ apply Forall_nil
      | apply Forall_cons;
        [ split; [reflexivity | first [left; reflexivity | right; reflexivity]] | ] ] ].

Section ShapeFacts.
Import PyStr Py teams_component.

Context {W : Type}.
Variable handler : request -> W -> answer * W.

(** A call either ends before anything is written, having made at most
    the three lookups, or makes the three lookups -- the last being the
    probe for the sanitized name -- and then the transfer. *)
Lemma upload_shape (tok team path : string) (data : bytes) (filename folder : string) (w : W) :
  let safe := sanitize_filename filename in
  let result := run handler (upload_with_sharepoint_api tok team path data filename folder) w in
  (fst (fst result) <> (true, None)
   /\ (List.length (snd (fst result)) <= 3)%nat
   /\ Forall (fun ra => is_write (fst ra) = false
                        /\ (name_of (fst ra) = None \/ name_of (fst ra) = Some safe))
        (snd (fst result)))
  \/ exists a1 a2 site drive probe w3,
       probe_aborts probe = false
       /\ snd (fst result)
          = ((GetSite tok team, a1) :: (GetDrives tok site, a2)
             :: (GetChildrenByName tok drive folder safe, probe)
             :: snd (fst (run handler (transfer tok drive folder safe data
                                         (existing_of probe)) w3)))%list
       /\ fst (fst result)
          = fst (fst (run handler (transfer tok drive folder safe data
                                     (existing_of probe)) w3))
       /\ snd result
          = snd (run handler (transfer tok drive folder safe data (existing_of probe)) w3).
Proof.
  intros safe result. subst result.
  unfold upload_with_sharepoint_api, call, with_json. cbn [run].
  destruct (handler (GetSite tok team) w) as [[r1|m1] w1]; [|stop_early].
  destruct (status_code r1 =? 200)%Z; cbn [negb]; [|stop_early].
  destruct (payload r1) as [e|u i|v|u]; [stop_early| |stop_early|stop_early].
  cbn [site_url_of site_id_of].
  match goal with
  | |- context [run handler (if ?b then _ else _) _] => destruct b
  end; [stop_early|].
  cbn [run].
  destruct (handler (GetDrives tok (or_none i)) w1) as [[r2|m2] w2]; [|stop_early].
  destruct (status_code r2 =? 200)%Z; cbn [negb]; [|stop_early].
  destruct (payload r2) as [e|u2 i2|v|u2]; cbn [value_of];
    [stop_early|stop_early| |stop_early].
  destruct v as [[|drive ds]|]; [stop_early| |stop_early].
  cbn [run]. fold safe.
  destruct (handler (GetChildrenByName tok drive folder safe) w2) as [[r3|m3] w3] eqn:Hprobe;
    [|stop_early].
  destruct (status_code r3 =? 200)%Z eqn:H3.
  - destruct (payload r3) as [e|u3 i3|v3|u3] eqn:Hp3; [stop_early| | |];
      right; exists (inl r1), (inl r2), (or_none i), drive, (inl r3), w3;
      unfold probe_aborts, existing_of; rewrite H3, Hp3;
      match goal with
      | |- context [run handler (transfer ?a ?b ?c ?d ?e ?f) w3] =>
          destruct (run handler (transfer a b c d e f) w3) as [[res t] w4]
      end; cbn [fst snd andb]; repeat split.
  - right. exists (inl r1), (inl r2), (or_none i), drive, (inl r3), w3.
    unfold probe_aborts, existing_of. rewrite H3.
    destruct (run handler (transfer tok drive folder safe data None) w3)
      as [[res t] w4]. cbn [fst snd andb]. repeat split.
Qed.

End ShapeFacts.

(** ** Sanitized names *)

Section SanitizeFacts.
Import PyStr Py teams_component.

Lemma any_char_append (p : ascii -> bool) (a b : string) :
  any_char p (a ++ b) = any_char p a || any_char p b.
Proof.
  induction a as [|c a IH]; cbn; [reflexivity|]. rewrite IH, orb_assoc. reflexivity.
Qed.

Lemma take_none (p : ascii -> bool) (n : nat) (s : string) :
  any_char p s = false -> any_char p (take n s) = false.
Proof.
  revert n. induction s as [|c s IH]; intros [|n] H; cbn in *; try reflexivity.
  apply orb_false_iff in H as [Hc Hs]. rewrite Hc. cbn. apply IH. exact Hs.
Qed.

Lemma drop_none (p : ascii -> bool) (n : nat) (s : string) :
  any_char p s = false -> any_char p (drop n s) = false.
Proof.
  revert n. induction s as [|c s IH]; intros [|n] H; cbn in *; try assumption; try reflexivity.
  apply orb_false_iff in H as [Hc Hs]. apply IH. exact Hs.
Qed.

Lemma strip_leading_dots_none (p : ascii -> bool) (s : string) :
  any_char p s = false -> any_char p (strip_leading_dots s) = false.
Proof.
  induction s as [|c s IH]; cbn; [reflexivity|].
  intros H. destruct (Ascii.eqb c "."); [|exact H].
  apply orb_false_iff in H as [_ Hs]. apply IH. exact Hs.
Qed.

Lemma sub_class_none (p : ascii -> bool) (r : ascii) (s : string) :
  p r = false -> any_char p (sub_class p r s) = false.
Proof.
  intros Hr. induction s as [|c s IH]; cbn; [reflexivity|].
  rewrite IH, orb_false_r. destruct (p c) eqn:Hc; [exact Hr | exact Hc].
Qed.

(** No character of the forbidden class is left in a sanitized name. *)
Lemma sanitize_no_invalid (filename : string) :
  any_char invalid_char (sanitize_filename filename) = false.
Proof.
  unfold sanitize_filename.
  set (s := strip_leading_dots (strip (sub_class invalid_char "_" filename))).
  assert (Hs : any_char invalid_char s = false).
  { subst s. apply strip_leading_dots_none. unfold strip.
    apply rstrip_none, lstrip_none, sub_class_none. reflexivity. }
  destruct (240 <? len s)%Z; [|exact Hs].
  unfold splitext.
  destruct (rfind "/" s <? rfind "." s)%Z;
    [destruct (all_chars _ _)|]; unfold slice_to.
  - rewrite append_nil_r.
    destruct (0 <=? 240 - len "")%Z; apply take_none; exact Hs.
  - rewrite any_char_append.
    rewrite (drop_none _ _ _ Hs), orb_false_r.
    destruct (0 <=? _)%Z; apply take_none, take_none; exact Hs.
  - rewrite append_nil_r.
    destruct (0 <=? 240 - len "")%Z; apply take_none; exact Hs.
Qed.

End SanitizeFacts.

Section NameFacts.
Import PyStr Py teams_component.

Lemma chunk_plan_chunks (url : string) (data : bytes) :
  forall (n up : nat),
    (List.length data - up <= n)%nat ->
    Forall (fun r => is_chunk r = true) (chunk_plan url data up).
Proof.
  induction n as [|n IH]; intros up Hn.
  - rewrite chunk_plan_done by lia. constructor.
  - rewrite chunk_plan_eq.
    destruct (Nat.ltb_spec up (List.length data)) as [Hlt|Hge]; [|constructor].
    cbv zeta. pose proof (chunk_length_eq data up) as Hlen.
    pose proof chunk_size_pos as Hpos.
    constructor; [reflexivity|]. apply IH. lia.
Qed.

Context {W : Type}.
Variable handler : request -> W -> answer * W.

Lemma chunk_run_chunks (url : string) (data : bytes) (w : W) :
  Forall (fun ra : request * answer => is_chunk (fst ra) = true)
    (snd (fst (run handler (upload_chunks url data 0) w))).
Proof.
  destruct (chunk_run_prefix handler url data (List.length data) 0 w) as (rest & Hplan & _);
    [lia|].
  pose proof (chunk_plan_chunks url data (List.length data) 0 ltac:(lia)) as Hall.
  rewrite Hplan in Hall. apply Forall_app in Hall as [Hall _].
  rewrite Forall_map in Hall. exact Hall.
Qed.

(** Every request of the transfer writes, and carries the name it was
    given or none. *)
Lemma transfer_requests (tok drive folder name : string) (data : bytes)
  (existing : option string) (w : W) :
  Forall (fun ra : request * answer =>
            is_write (fst ra) = true
            /\ (name_of (fst ra) = None \/ name_of (fst ra) = Some name))
    (snd (fst (run handler (transfer tok drive folder name data existing) w))).
Proof.
  destruct (Z.lt_ge_cases (Z.of_nat (List.length data)) small_limit) as [Hs|Hl].
  - destruct (transfer_small handler tok drive folder name data existing w Hs) as [a ->].
    constructor; [|constructor]. unfold single_request.
    destruct (truthy_opt existing); cbn; auto.
  - destruct (transfer_large handler tok drive folder name data existing w Hl)
      as (a & w1 & _ & ->).
    constructor.
    + unfold session_request. destruct (truthy_opt existing); cbn; auto.
    + destruct (session_url a) as [url|]; [|constructor].
      eapply Forall_impl; [|apply chunk_run_chunks].
      intros [r ans] H. cbn in *. destruct r; try discriminate H. cbn. auto.
Qed.

(** Every request of a call that carries a name carries the sanitized
    one, and nothing is written before the probe for it. *)
Lemma upload_requests (tok team path : string) (data : bytes) (filename folder : string) (w : W) :
  let safe := sanitize_filename filename in
  let trace :=
    snd (fst (run handler (upload_with_sharepoint_api tok team path data filename folder) w)) in
  Forall (fun ra : request * answer =>
            name_of (fst ra) = None \/ name_of (fst ra) = Some safe) trace
  /\ Forall (fun ra : request * answer => is_write (fst ra) = false) (firstn 3 trace)
  /\ Forall (fun ra : request * answer => is_write (fst ra) = true) (skipn 3 trace)
  /\ (skipn 3 trace <> [] ->
      exists a drive, nth_error trace 2 = Some (GetChildrenByName tok drive folder safe, a)).
Proof.
  intros safe trace. subst trace.
  destruct (upload_shape handler tok team path data filename folder w)
    as [(_ & Hlen & Hall) | (a1 & a2 & site & drive & probe & w3 & _ & Htrace & _ & _)].
  - fold safe in Hall.
    set (t := snd (fst (run handler _ w))) in *.
    assert (Hskip : skipn 3 t = []) by (apply skipn_all2; exact Hlen).
    rewrite Hskip. rewrite firstn_all2 by exact Hlen.
    repeat split.
    + eapply Forall_impl; [|exact Hall]. intros ra [_ H]. exact H.
    + eapply Forall_impl; [|exact Hall]. intros ra [H _]. exact H.
    + constructor.
    + intros H. contradiction.
  - fold safe in Htrace. rewrite Htrace. cbn [firstn skipn nth_error].
    pose proof (transfer_requests tok drive folder safe data (existing_of probe) w3) as Ht.
    repeat split.
    + repeat (constructor; [cbn; auto|]).
      eapply Forall_impl; [|exact Ht]. intros ra [_ H]. exact H.
    + repeat constructor.
    + eapply Forall_impl; [|exact Ht]. intros ra [H _]. exact H.
    + intros _. exists probe, drive. reflexivity.
Qed.

End NameFacts.

(** ** The store *)

Section StoreFacts.
Import PyStr Py teams_component GraphStore.

Lemma named_key (d f n : string) (it : drive_item) :
  named d f n it = true <-> key it = (d, f, n).
Proof.
  unfold named, key. rewrite !andb_true_iff, !String.eqb_eq.
  split; [intros [[-> ->] ->]; reflexivity | intros H; injection H as -> -> ->; auto].
Qed.

Lemma children_none (d f n : string) (l : list drive_item) :
  children_named d f n l = [] -> ~ In (d, f, n) (map key l).
Proof.
  unfold children_named. induction l as [|it l IH]; cbn; [tauto|].
  destruct (named d f n it) eqn:Hn; [discriminate|].
  intros H [Hk|Hin]; [|exact (IH H Hin)].
  apply named_key in Hk. congruence.
Qed.

Lemma children_absent (d f n : string) (l : list drive_item) :
  ~ In (d, f, n) (map key l) -> children_named d f n l = [].
Proof.
  unfold children_named. induction l as [|it l IH]; cbn; [reflexivity|].
  intros H. destruct (named d f n it) eqn:Hn.
  - exfalso. apply H. left. apply named_key. exact Hn.
  - apply IH. tauto.
Qed.

(** In a folder without duplicate names the probe finds at most one item. *)
Lemma children_at_most_one (d f n : string) (l : list drive_item) :
  NoDup (map key l) ->
  children_named d f n l = [] \/ exists it, children_named d f n l = [it].
Proof.
  induction l as [|it l IH]; cbn; [auto|].
  intros Hnd. inversion Hnd as [|k ks Hnotin Hnd']; subst.
  destruct (named d f n it) eqn:Hn.
  - right. exists it. f_equal. apply children_absent.
    apply named_key in Hn. rewrite <- Hn. exact Hnotin.
  - apply IH. exact Hnd'.
Qed.

Lemma children_in (d f n : string) (l : list drive_item) (it : drive_item) (r : list drive_item) :
  children_named d f n l = it :: r -> In it l /\ named d f n it = true.
Proof.
  intros H. assert (Hin : In it (children_named d f n l)) by (rewrite H; left; reflexivity).
  unfold children_named in Hin. apply filter_In in Hin. exact Hin.
Qed.

Lemma write_where_keys (p : drive_item -> bool) (data : bytes) (l : list drive_item) :
  map key (write_where p data l) = map key l.
Proof.
  unfold write_where. rewrite map_map. apply map_ext.
  intros it. destruct (p it); reflexivity.
Qed.

Lemma write_where_ids (p : drive_item -> bool) (data : bytes) (l : list drive_item) :
  Forall (fun it => item_id it <> EmptyString) l ->
  Forall (fun it => item_id it <> EmptyString) (write_where p data l).
Proof.
  unfold write_where. intros H. rewrite Forall_map.
  eapply Forall_impl; [|exact H]. intros it Hit. destruct (p it); exact Hit.
Qed.

Lemma write_where_children (p : drive_item -> bool) (d f n : string) (data : bytes)
  (l : list drive_item) :
  children_named d f n (write_where p data l)
  = map (fun it => if p it then set_content data it else it) (children_named d f n l).
Proof.
  unfold children_named, write_where.
  induction l as [|it l IH]; cbn; [reflexivity|].
  assert (Hn : named d f n (if p it then set_content data it else it) = named d f n it)
    by (destruct (p it); reflexivity).
  rewrite Hn. destruct (named d f n it); cbn; rewrite IH; reflexivity.
Qed.

Lemma set_content_same (it : drive_item) :
  set_content (item_content it) it = it.
Proof. destruct it; reflexivity. Qed.

(** What a write leaves in the folder: the name is there once, with the
    content written; no name is added when it was there already. *)
Lemma written_post (d f n : string) (data : bytes) (fresh : string) (l : list drive_item) :
  items_ok l -> fresh <> EmptyString ->
  let l' := written (target_of d f n (probed d f n l)) data fresh l in
  items_ok l'
  /\ (exists it, children_named d f n l' = [it] /\ item_content it = data)
  /\ (forall it0, children_named d f n l = [it0] ->
        map key l' = map key l
        /\ children_named d f n l' = [set_content data it0]
        /\ target_of d f n (probed d f n l) = ById d (item_id it0)).
Proof.
  intros [Hnd Hids] Hfresh. unfold probed, target_of.
  destruct (children_at_most_one d f n l Hnd) as [Hnone | [it0 Hone]].
  - rewrite Hnone. cbn [truthy_opt written]. rewrite Hnone.
    split; [split|split].
    + rewrite map_app. cbn [map key item_drive item_parent item_name].
      assert (G : NoDup ((d, f, n) :: map key l))
        by (constructor; [apply children_none; exact Hnone | exact Hnd]).
      apply (Permutation_NoDup (l := (d, f, n) :: map key l)); [|exact G].
      apply Permutation_cons_append.
    + apply Forall_app. split; [exact Hids|]. constructor; [exact Hfresh | constructor].
    + unfold children_named in *. rewrite filter_app, Hnone. cbn.
      assert (Hn : named d f n (mkItem d f n fresh data) = true)
        by (apply named_key; reflexivity).
      rewrite Hn. eexists. split; reflexivity.
    + intros it0 H. discriminate H.
  - rewrite Hone. destruct (children_in d f n l it0 [] Hone) as [Hin Hnamed].
    assert (Hid : item_id it0 <> EmptyString)
      by (rewrite Forall_forall in Hids; apply Hids; exact Hin).
    cbn [truthy_opt or_none].
    destruct (String.eqb_spec (item_id it0) ""); [contradiction|]. cbn [negb written].
    assert (Hhas : has_id d (item_id it0) it0 = true).
    { unfold has_id. rewrite String.eqb_refl, andb_true_r.
      apply named_key in Hnamed. unfold key in Hnamed. injection Hnamed as -> _ _.
      apply String.eqb_refl. }
    assert (Hch : children_named d f n (write_where (has_id d (item_id it0)) data l)
                  = [set_content data it0])
      by (rewrite write_where_children, Hone; cbn; rewrite Hhas; reflexivity).
    split; [split|split].
    + rewrite write_where_keys. exact Hnd.
    + apply write_where_ids. exact Hids.
    + exists (set_content data it0). split; [exact Hch | reflexivity].
    + intros it1 H1. injection H1 as <-.
      split; [apply write_where_keys|]. split; [exact Hch | reflexivity].
Qed.

End StoreFacts.

Section StoreRun.
Import PyStr Py teams_component GraphStore.

Lemma commit_replace (tgt : target) (data : bytes) (s : store) :
  writable tgt (items s) ->
  exists code b s',
    commit tgt "replace" data s = (reply code b, s')
    /\ (code = 200 \/ code = 201)%Z
    /\ sites s' = sites s /\ drives s' = drives s
    /\ items s' = written tgt data (fresh_id s) (items s).
Proof.
  intros Hw. destruct tgt as [d i | d f n]; cbn [commit writable] in *.
  - rewrite Hw. do 3 eexists. split; [reflexivity|]. cbn. auto.
  - destruct (children_named d f n (items s)) as [|it r] eqn:Hc.
    + do 3 eexists. split; [reflexivity|]. cbn. auto.
    + cbn [String.eqb Ascii.eqb Bool.eqb andb]. do 3 eexists.
      split; [reflexivity|]. cbn. auto.
Qed.

(** The store's answer to the chunk at offset [up] of a session that
    has received the bytes before it. *)
Lemma handle_chunk (url : string) (tgt : target) (data : bytes) (up : nat) (s : store) :
  find_session url (sessions s) = Some (mkSession url tgt "replace" (firstn up data)) ->
  (up < List.length data)%nat ->
  let c := firstn chunk_size (skipn up data) in
  handle (PutChunk url (Z.of_nat (List.length c)) (Z.of_nat up)
            (Z.of_nat up + Z.of_nat (List.length c) - 1)
            (Z.of_nat (List.length data)) c) s
  = if (up + List.length c =? List.length data)%nat then
      commit tgt "replace" data
        (mkStore (sites s) (drives s) (items s) (drop_session url (sessions s)) (issued s))
    else
      (reply 202 (NoJson EmptyString),
       mkStore (sites s) (drives s) (items s)
         (mkSession url tgt "replace" (firstn (up + List.length c) data)
            :: drop_session url (sessions s)) (issued s)).
Proof.
  intros Hfind Hlt c. cbn [handle]. rewrite Hfind.
  cbn [received session_target session_conflict].
  pose proof (chunk_length_eq data up) as Hlen. fold c in Hlen.
  pose proof chunk_size_pos as Hpos.
  assert (Hrecv : List.length (firstn up data) = up) by (rewrite length_firstn; lia).
  rewrite Hrecv.
  rewrite (proj2 (Z.eqb_eq (Z.of_nat up) (Z.of_nat up)) eq_refl).
  rewrite (proj2 (Z.eqb_eq (Z.of_nat (List.length c)) (Z.of_nat (List.length c))) eq_refl).
  rewrite (proj2 (Z.eqb_eq _ _) eq_refl).
  rewrite (proj2 (Z.ltb_lt 0 (Z.of_nat (List.length c)))) by lia.
  rewrite (proj2 (Z.ltb_lt (Z.of_nat up + Z.of_nat (List.length c) - 1)
                    (Z.of_nat (List.length data)))) by lia.
  cbn [andb]. subst c. rewrite chunk_appends.
  set (m := List.length (firstn chunk_size (skipn up data))) in *.
  assert (Hgot : List.length (firstn (up + m) data) = (up + m)%nat)
    by (rewrite length_firstn; lia).
  rewrite Hgot.
  destruct (Nat.eqb_spec (up + m) (List.length data)) as [He|Hne].
  - rewrite (proj2 (Z.eqb_eq _ _)) by lia.
    rewrite He, firstn_all. reflexivity.
  - rewrite (proj2 (Z.eqb_neq _ _)) by lia. reflexivity.
Qed.

Lemma find_session_head (url : string) (ses : session) (l : list session) :
  session_url ses = url -> find_session url (ses :: l) = Some ses.
Proof. intros H. unfold find_session. cbn. rewrite H, String.eqb_refl. reflexivity. Qed.

(** On the store the chunk loop sends its whole plan and ends with the
    payload written to the session's target. *)
Lemma store_chunks (url : string) (tgt : target) (data : bytes) :
  forall (n up : nat) (s : store),
    (List.length data - up <= n)%nat -> (up < List.length data)%nat ->
    find_session url (sessions s) = Some (mkSession url tgt "replace" (firstn up data)) ->
    writable tgt (items s) ->
    exists t s',
      run handle (upload_chunks url data up) s = ((true, None), t, s')
      /\ sites s' = sites s /\ drives s' = drives s
      /\ items s' = written tgt data (fresh_id s) (items s)
      /\ map fst t = chunk_plan url data up.
Proof.
  induction n as [|n IH]; intros up s Hn Hlt Hfind Hw; [lia|].
  rewrite upload_chunks_eq, chunk_plan_eq.
  destruct (Nat.ltb_spec up (List.length data)) as [_|H]; [|lia].
  cbv zeta. unfold call. cbn [run].
  rewrite (handle_chunk url tgt data up s Hfind Hlt). cbv zeta.
  pose proof (chunk_length_eq data up) as Hlen.
  pose proof chunk_size_pos as Hpos.
  set (c := firstn chunk_size (skipn up data)) in *.
  destruct (Nat.eqb_spec (up + List.length c) (List.length data)) as [He|Hne].
  - set (s0 := mkStore (sites s) (drives s) (items s) (drop_session url (sessions s)) (issued s)).
    destruct (commit_replace tgt data s0 Hw) as (code & b & s' & Hc & Hcode & H1 & H2 & H3).
    rewrite Hc. unfold reply.
    assert (Hin3 : status_in (mkResponse code b "") [200; 201; 202]%Z = true)
      by (unfold status_in; cbn; destruct Hcode as [-> | ->]; reflexivity).
    assert (Hin2 : status_in (mkResponse code b "") [200; 201]%Z = true)
      by (unfold status_in; cbn; destruct Hcode as [-> | ->]; reflexivity).
    rewrite Hin3, Hin2. cbn [negb run].
    do 2 eexists. split; [reflexivity|].
    repeat split; try assumption.
    cbn [map fst]. rewrite (chunk_plan_done url data (up + List.length c)) by lia.
    reflexivity.
  - unfold reply.
    change (status_in (mkResponse 202 (NoJson "") "") [200; 201; 202]%Z) with true.
    change (status_in (mkResponse 202 (NoJson "") "") [200; 201]%Z) with false.
    cbn [negb].
    set (s1 := mkStore (sites s) (drives s) (items s) _ (issued s)).
    destruct (IH (up + List.length c)%nat s1) as (t & s' & Hrun & H1 & H2 & H3 & H4);
      [lia | lia | apply find_session_head; reflexivity | exact Hw |].
    rewrite Hrun. do 2 eexists. split; [reflexivity|].
    repeat split; try assumption.
    cbn [map fst]. rewrite H4. reflexivity.
Qed.

End StoreRun.

Section StoreTransfer.
Import PyStr Py teams_component GraphStore.

Lemma fresh_id_not_empty (s : store) : fresh_id s <> EmptyString.
Proof. unfold fresh_id. cbn. discriminate. Qed.

Lemma probed_target (d f n : string) (l : list drive_item) :
  items_ok l ->
  writable (target_of d f n (probed d f n l)) l
  /\ truthy_opt (probed d f n l)
     = match children_named d f n l with [] => false | _ => true end.
Proof.
  intros [_ Hids]. unfold probed, target_of.
  destruct (children_named d f n l) as [|it r] eqn:Hc; [cbn; auto|].
  destruct (children_in d f n l it r Hc) as [Hin Hnamed].
  assert (Hid : item_id it <> EmptyString)
    by (rewrite Forall_forall in Hids; apply Hids; exact Hin).
  cbn [truthy_opt or_none].
  destruct (String.eqb_spec (item_id it) ""); [contradiction|]. cbn [negb writable].
  split; [|reflexivity].
  apply existsb_exists. exists it. split; [exact Hin|].
  unfold has_id. rewrite String.eqb_refl, andb_true_r.
  apply named_key in Hnamed. unfold key in Hnamed. injection Hnamed as -> _ _.
  apply String.eqb_refl.
Qed.

Lemma status_in_ok (code : Z) (b : body) (codes : list Z) :
  (code = 200 \/ code = 201)%Z -> In 200%Z codes -> In 201%Z codes ->
  status_in (mkResponse code b "") codes = true.
Proof.
  intros Hcode H200 H201. unfold status_in. apply existsb_exists. cbn.
  destruct Hcode as [-> | ->];
    [exists 200%Z | exists 201%Z]; split; try assumption; reflexivity.
Qed.

(** On the store the transfer succeeds and writes the payload to the
    item the probe found, or to a new item of the given name. *)
Lemma store_transfer (tok d f n : string) (data : bytes) (s : store) :
  items_ok (items s) ->
  let existing := probed d f n (items s) in
  exists t s' fresh a rest,
    run handle (transfer tok d f n data existing) s = ((true, None), t, s')
    /\ sites s' = sites s /\ drives s' = drives s
    /\ items s' = written (target_of d f n existing) data fresh (items s)
    /\ fresh <> EmptyString
    /\ t = ((if (Z.of_nat (List.length data) <? small_limit)%Z
             then single_request tok d f n data existing
             else session_request tok d f n existing), a) :: rest
    /\ Forall (fun ra : request * answer => is_chunk (fst ra) = true) rest
    /\ (if (Z.of_nat (List.length data) <? small_limit)%Z then rest = []
        else exists url, map fst rest = chunk_plan url data 0).
Proof.
  intros Hok existing.
  destruct (probed_target d f n (items s) Hok) as [Hw _]. fold existing in Hw.
  unfold transfer, single_request, session_request, target_of in *.
  destruct (Z.ltb_spec (Z.of_nat (List.length data)) small_limit) as [Hs|Hl].
  - destruct (truthy_opt existing); unfold call; cbn [run handle];
      match goal with
      | |- context [commit ?tgt "replace" data s] =>
          destruct (commit_replace tgt data s Hw) as (code & b & s' & Hc & Hcode & H1 & H2 & H3)
      end;
      rewrite Hc; unfold reply;
      rewrite (status_in_ok code b [200; 201]%Z Hcode) by (cbn; auto);
      cbn [run];
      do 5 eexists; (split; [reflexivity|]);
      (split; [exact H1|]); (split; [exact H2|]); (split; [exact H3|]);
      (split; [apply fresh_id_not_empty|]); (split; [reflexivity|]);
      (split; [constructor | reflexivity]).
  - cbv zeta.
    set (tgt := if truthy_opt existing then ById d (or_none existing) else ByPath d f n) in *.
    set (req := if truthy_opt existing then PostSessionById tok d (or_none existing) "replace"
                else PostSessionByPath tok d f n "replace").
    assert (Hopen : handle req s = open_session tgt "replace" s).
    { subst req tgt. destruct (truthy_opt existing); cbn [handle writable] in *;
        [rewrite Hw|]; reflexivity. }
    unfold call. cbn [run]. rewrite Hopen. unfold open_session, reply.
    cbn [status_code Z.eqb Pos.eqb negb]. unfold with_json.
    cbn [payload upload_url_of truthy_opt].
    assert (Hurl : (fresh_url s =? "") = false) by reflexivity.
    rewrite Hurl. cbn [negb or_none].
    set (s1 := mkStore (sites s) (drives s) (items s)
                 (mkSession (fresh_url s) tgt "replace" [] :: sessions s) (S (issued s))).
    assert (Hpos : (0 < List.length data)%nat) by (unfold small_limit in Hl; lia).
    destruct (store_chunks (fresh_url s) tgt data (List.length data) 0 s1)
      as (t & s' & Hrun & H1 & H2 & H3 & H4);
      [lia | exact Hpos | apply find_session_head; reflexivity | exact Hw |].
    rewrite Hrun.
    do 5 eexists. split; [reflexivity|].
    split; [exact H1|]. split; [exact H2|]. split; [exact H3|].
    split; [apply fresh_id_not_empty|]. split; [reflexivity|]. split.
    + pose proof (chunk_plan_chunks (fresh_url s) data (List.length data) 0 ltac:(lia)) as Hall.
      rewrite <- H4 in Hall. rewrite Forall_map in Hall. exact Hall.
    + exists (fresh_url s). exact H4.
Qed.

End StoreTransfer.

Section StoreUpload.
Import PyStr Py teams_component GraphStore.

Lemma first_id_probed (d f n : string) (l : list drive_item) :
  first_id (Listing (Some (map item_id (children_named d f n l)))) = probed d f n l.
Proof.
  unfold first_id, probed. cbn [value_of].
  destruct (children_named d f n l); reflexivity.
Qed.

(** A call against the store: it fails when the team's drive cannot be
    found, and otherwise succeeds after the three lookups and the
    transfer. *)
Lemma store_upload (tok team path : string) (data : bytes) (filename folder : string)
  (s : store) :
  items_ok (items s) ->
  let safe := sanitize_filename filename in
  let result := run handle (upload_with_sharepoint_api tok team path data filename folder) s in
  match drive_of s team with
  | None => fst (fst result) <> (true, None)
  | Some drive =>
      exists t s' fresh site a1 a2 a3 a rest,
        result = ((true, None), t, s')
        /\ sites s' = sites s /\ drives s' = drives s
        /\ items s'
           = written (target_of drive folder safe (probed drive folder safe (items s)))
               data fresh (items s)
        /\ fresh <> EmptyString
        /\ t = (GetSite tok team, a1) :: (GetDrives tok site, a2)
               :: (GetChildrenByName tok drive folder safe, a3)
               :: ((if (Z.of_nat (List.length data) <? small_limit)%Z
                    then single_request tok drive folder safe data
                           (probed drive folder safe (items s))
                    else session_request tok drive folder safe
                           (probed drive folder safe (items s))), a) :: rest
        /\ Forall (fun ra : request * answer => is_chunk (fst ra) = true) rest
        /\ (if (Z.of_nat (List.length data) <? small_limit)%Z then rest = []
            else exists url, map fst rest = chunk_plan url data 0)
  end.
Proof.
  intros Hok safe result. subst result.
  unfold drive_of, upload_with_sharepoint_api, call, with_json.
  cbn [run handle].
  destruct (assoc team (sites s)) as [[url site]|];
    [|cbn; unfold http_error; intros H; discriminate H].
  unfold reply. cbn [status_code Z.eqb Pos.eqb negb payload site_url_of site_id_of
                     truthy truthy_opt].
  destruct (negb (url =? "")); cbn [negb orb andb];
    [|cbn; intros H; discriminate H].
  destruct (negb (site =? "")); cbn [negb orb andb];
    [|cbn; intros H; discriminate H].
  cbn [run handle or_none].
  destruct (assoc site (drives s)) as [[|drive ds]|];
    unfold reply; cbn [status_code Z.eqb Pos.eqb negb payload value_of];
    [cbn; intros H; discriminate H | | cbn; unfold http_error; intros H; discriminate H].
  cbn [run handle]. fold safe. unfold reply.
  cbn [status_code Z.eqb Pos.eqb negb payload].
  rewrite first_id_probed.
  destruct (store_transfer tok drive folder safe data s Hok)
    as (t & s' & fresh & a & rest & Hrun & H1 & H2 & H3 & H4 & H5 & H6 & H7).
  rewrite Hrun. subst t.
  do 9 eexists. split; [reflexivity|].
  repeat split; try eassumption.
Qed.

End StoreUpload.

(** C1.  On a store in good order, when a delivery has succeeded, the
    same delivery made again succeeds too; after the first call the
    folder holds exactly one item of the sanitized name and its content
    is the payload, and after the second call it holds the same single
    item and no name has been added.  The second call probes for the
    sanitized name and then writes to the item found, by its id: one
    content request for a small payload, a session on that item with
    conflict behaviour [replace] followed by chunk requests for a large
    one.  Against any store whatever, nothing is written before the
    probe for the sanitized name has been made. *)
Theorem idempotent_delivery :
  forall (s : GraphStore.store) (tok team path : string) (data : bytes)
         (filename folder : string)
         (t1 : list (teams_component.request * teams_component.answer))
         (s1 : GraphStore.store),
    GraphStore.well_formed s ->
    teams_component.run GraphStore.handle
      (teams_component.upload_with_sharepoint_api tok team path data filename folder) s
    = ((true, None), t1, s1) ->
    let safe := teams_component.sanitize_filename filename in
    (exists drive it t2 s2,
        teams_component.run GraphStore.handle
          (teams_component.upload_with_sharepoint_api tok team path data filename folder) s1
        = ((true, None), t2, s2)
        /\ GraphStore.children_named drive folder safe (GraphStore.items s1) = [it]
        /\ GraphStore.item_content it = data
        /\ GraphStore.children_named drive folder safe (GraphStore.items s2) = [it]
        /\ map GraphStore.key (GraphStore.items s2) = map GraphStore.key (GraphStore.items s1)
        /\ GraphStore.well_formed s2
        /\ exists site a1 a2 a3 a rest,
             t2 = (teams_component.GetSite tok team, a1)
                  :: (teams_component.GetDrives tok site, a2)
                  :: (teams_component.GetChildrenByName tok drive folder safe, a3)
                  :: ((if (Z.of_nat (List.length data) <? teams_component.small_limit)%Z
                       then teams_component.PutContentById tok drive
                              (GraphStore.item_id it) data
                       else teams_component.PostSessionById tok drive
                              (GraphStore.item_id it) "replace"), a)
                  :: rest
             /\ Forall (fun ra : teams_component.request * teams_component.answer =>
                          teams_component.is_chunk (fst ra) = true) rest)
    /\ (forall (W : Type)
               (handler : teams_component.request -> W -> teams_component.answer * W)
               (w : W),
          let trace :=
            snd (fst (teams_component.run handler
                        (teams_component.upload_with_sharepoint_api
                           tok team path data filename folder) w)) in
          Forall (fun ra => teams_component.is_write (fst ra) = false) (firstn 3 trace)
          /\ Forall (fun ra => teams_component.is_write (fst ra) = true) (skipn 3 trace)
          /\ (skipn 3 trace <> [] ->
              exists a drive,
                nth_error trace 2
                = Some (teams_component.GetChildrenByName tok drive folder safe, a))).
Proof.
  intros s tok team path data filename folder t1 s1 Hwf Hrun safe.
  split.
  2:{ intros W handler w trace.
      destruct (upload_requests handler tok team path data filename folder w)
        as (_ & H1 & H2 & H3).
      repeat split; assumption. }
  pose proof (store_upload tok team path data filename folder s Hwf) as Hfirst.
  cbv zeta in Hfirst. fold safe in Hfirst. rewrite Hrun in Hfirst.
  destruct (GraphStore.drive_of s team) as [drive|] eqn:Hdrive;
    [|cbn in Hfirst; contradiction].
  destruct Hfirst as (t & s' & fresh & site & a1 & a2 & a3 & a & rest
                      & Hres & Hsites & Hdrives & Hitems & Hfresh & _ & _ & _).
  injection Hres as <- <-.
  destruct (written_post drive folder safe data fresh (GraphStore.items s) Hwf Hfresh)
    as (Hok1 & (it & Hch1 & Hcontent) & _).
  rewrite <- Hitems in Hok1, Hch1.
  assert (Hdrive1 : GraphStore.drive_of s1 team = Some drive)
    by (unfold GraphStore.drive_of in *; rewrite Hsites, Hdrives; exact Hdrive).
  pose proof (store_upload tok team path data filename folder s1 Hok1) as Hsecond.
  cbv zeta in Hsecond. fold safe in Hsecond. rewrite Hdrive1 in Hsecond.
  destruct Hsecond as (t2 & s2 & fresh2 & site2 & b1 & b2 & b3 & b & rest2
                       & Hres2 & _ & _ & Hitems2 & Hfresh2 & Ht2 & Hrest2 & _).
  destruct (written_post drive folder safe data fresh2 (GraphStore.items s1) Hok1 Hfresh2)
    as (Hok2 & _ & Hsame).
  destruct (Hsame it Hch1) as (Hkeys & Hch2 & _).
  rewrite <- Hitems2 in Hok2, Hkeys, Hch2.
  rewrite <- Hcontent in Hch2 at 1. rewrite set_content_same in Hch2.
  exists drive, it, t2, s2.
  split; [exact Hres2|]. split; [exact Hch1|]. split; [exact Hcontent|].
  split; [exact Hch2|]. split; [exact Hkeys|]. split; [exact Hok2|].
  exists site2, b1, b2, b3, b, rest2. split; [|exact Hrest2].
  rewrite Ht2. do 3 f_equal.
  assert (Hprobed : GraphStore.probed drive folder safe (GraphStore.items s1)
                    = Some (GraphStore.item_id it))
    by (unfold GraphStore.probed; rewrite Hch1; reflexivity).
  rewrite Hprobed.
  assert (Hid : GraphStore.item_id it <> EmptyString).
  { destruct Hok1 as [_ Hids]. rewrite Forall_forall in Hids. apply Hids.
    destruct (children_in drive folder safe (GraphStore.items s1) it [] Hch1) as [Hin _].
    exact Hin. }
  unfold teams_component.single_request, teams_component.session_request.
  cbn [Py.truthy_opt teams_component.or_none].
  destruct (String.eqb_spec (GraphStore.item_id it) ""); [contradiction|].
  reflexivity.
Qed.

(** The theorem on a two-byte payload delivered twice to an empty
    folder. *)
Lemma idempotent_delivery_witness :
  exists drive it t2 s2,
    teams_component.run GraphStore.handle
      (teams_component.upload_with_sharepoint_api
         "tok" "team" "Finance" Demo.two_bytes "a:b.pdf" "F")
      (snd (teams_component.run GraphStore.handle
              (teams_component.upload_with_sharepoint_api
                 "tok" "team" "Finance" Demo.two_bytes "a:b.pdf" "F")
              Demo.empty_store))
    = ((true, None), t2, s2)
    /\ GraphStore.children_named drive "F"
         (teams_component.sanitize_filename "a:b.pdf") (GraphStore.items s2) = [it]
    /\ GraphStore.item_content it = Demo.two_bytes.
Proof.
  destruct (idempotent_delivery Demo.empty_store
              "tok" "team" "Finance" Demo.two_bytes "a:b.pdf" "F"
              (snd (fst (teams_component.run GraphStore.handle
                           (teams_component.upload_with_sharepoint_api
                              "tok" "team" "Finance" Demo.two_bytes "a:b.pdf" "F")
                           Demo.empty_store)))
              (snd (teams_component.run GraphStore.handle
                      (teams_component.upload_with_sharepoint_api
                         "tok" "team" "Finance" Demo.two_bytes "a:b.pdf" "F")
                      Demo.empty_store)))
    as [(drive & it & t2 & s2 & Hrun & Hch1 & Hc & Hch2 & _) _].
  - split; constructor.
  - vm_compute. reflexivity.
  - exists drive, it, t2, s2. split; [exact Hrun|]. split; [exact Hch2 | exact Hc].
Defined.



(** C7, evaluated.  A sanitized name never holds a character of the
    forbidden class, and against any store every request of a call that
    carries a name carries the sanitized one.  But a name that starts
    with a dot and a space keeps the space in front; a name whose
    extension alone is longer than 240 characters comes out longer than
    240 characters and starts with a dot; and a long name without
    extension can be cut right after a space. *)
Theorem sanitize_filename_defects :
  (forall filename : string,
      PyStr.any_char teams_component.invalid_char
        (teams_component.sanitize_filename filename) = false)
  /\ (forall (W : Type)
             (handler : teams_component.request -> W -> teams_component.answer * W)
             (tok team path : string) (data : bytes) (filename folder : string) (w : W),
        Forall (fun ra : teams_component.request * teams_component.answer =>
                  teams_component.name_of (fst ra) = None
                  \/ teams_component.name_of (fst ra)
                     = Some (teams_component.sanitize_filename filename))
          (snd (fst (teams_component.run handler
                       (teams_component.upload_with_sharepoint_api
                          tok team path data filename folder) w))))
  /\ teams_component.sanitize_filename Demo.dotted_name = " a.pdf"
  /\ PyStr.lstrip (teams_component.sanitize_filename Demo.dotted_name)
     <> teams_component.sanitize_filename Demo.dotted_name
  /\ teams_component.sanitize_filename Demo.long_extension
     = "." ++ PyStr.replicate 300 "b"%char
  /\ PyStr.len (teams_component.sanitize_filename Demo.long_extension) = 301%Z
  /\ PyStr.len (teams_component.sanitize_filename Demo.long_name) = 240%Z
  /\ PyStr.rstrip (teams_component.sanitize_filename Demo.long_name)
     <> teams_component.sanitize_filename Demo.long_name.
Proof.
  split; [apply sanitize_no_invalid|].
  split.
  - intros W handler tok team path data filename folder w.
    apply (upload_requests handler tok team path data filename folder w).
  - vm_compute. repeat split; try reflexivity; intros H; discriminate H.
Qed.

(** * Further properties of the components *)

(** ** Strings *)

Section StringFacts.
Import PyStr.

Lemma length_append (a b : string) :
  String.length (a ++ b) = (String.length a + String.length b)%nat.
Proof. induction a as [|c a IH]; cbn; [reflexivity | rewrite IH; reflexivity]. Qed.

Lemma drop_append (a b : string) : drop (String.length a) (a ++ b) = b.
Proof. induction a as [|c a IH]; cbn; [destruct b; reflexivity | exact IH]. Qed.

Lemma take_append (a b : string) : take (String.length a) (a ++ b) = a.
Proof.
  induction a as [|c a IH]; cbn; [destruct b; reflexivity | rewrite IH; reflexivity].
Qed.

Lemma take_drop (n : nat) (s : string) : take n s ++ drop n s = s.
Proof.
  revert n. induction s as [|c s IH]; intros [|n]; cbn; try reflexivity.
  rewrite IH. reflexivity.
Qed.

Lemma take_length (n : nat) (s : string) :
  String.length (take n s) = Nat.min n (String.length s).
Proof.
  revert n. induction s as [|c s IH]; intros [|n]; cbn; try reflexivity.
  rewrite IH. reflexivity.
Qed.

Lemma drop_length (n : nat) (s : string) :
  String.length (drop n s) = (String.length s - n)%nat.
Proof.
  revert n. induction s as [|c s IH]; intros [|n]; cbn; try reflexivity.
  apply IH.
Qed.

Lemma take_all (n : nat) (s : string) : (String.length s <= n)%nat -> take n s = s.
Proof.
  revert n. induction s as [|c s IH]; intros [|n] H; cbn in *; try reflexivity; try lia.
  rewrite IH by lia. reflexivity.
Qed.

Lemma endswith_append (a b : string) : endswith (a ++ b) b = true.
Proof.
  unfold endswith. rewrite length_append.
  replace (String.length a + String.length b - String.length b)%nat
    with (String.length a) by lia.
  rewrite drop_append, String.eqb_refl.
  replace (String.length b <=? String.length a + String.length b)%nat with true
    by (symmetry; apply Nat.leb_le; lia).
  reflexivity.
Qed.

Lemma prefix_append (a b : string) : String.prefix a (a ++ b) = true.
Proof.
  induction a as [|c a IH]; cbn; [destruct b; reflexivity|].
  destruct (ascii_dec c c) as [_|n]; [exact IH | contradiction].
Qed.

Lemma sub_class_length (cls : ascii -> bool) (r : ascii) (s : string) :
  String.length (sub_class cls r s) = String.length s.
Proof. induction s as [|c s IH]; cbn; [reflexivity | rewrite IH; reflexivity]. Qed.

Lemma sub_class_clean (cls : ascii -> bool) (r : ascii) (s : string) :
  any_char cls s = false -> sub_class cls r s = s.
Proof.
  induction s as [|c s IH]; cbn; [reflexivity|].
  intros H. apply orb_false_iff in H as [Hc Hs]. rewrite Hc, IH by exact Hs. reflexivity.
Qed.

(** Replacing a class leaves the string free of whatever it and the
    replacement are free of. *)
Lemma sub_class_free (p cls : ascii -> bool) (r : ascii) (s : string) :
  p r = false -> any_char p s = false -> any_char p (sub_class cls r s) = false.
Proof.
  intros Hr. induction s as [|c s IH]; cbn; [reflexivity|].
  intros H. apply orb_false_iff in H as [Hc Hs]. rewrite IH by exact Hs.
  destruct (cls c); [rewrite Hr | rewrite Hc]; reflexivity.
Qed.

End StringFacts.

(** ** The naming sanitizer *)

(** X1.  [sanitize_filename] of the processing component keeps the
    length of the name, leaves no character of its class (slash, star,
    question mark, colon, double quote, angle brackets, bar), keeps a
    name that has none of them as it is, and so changes nothing when it
    is applied again; a backslash is not in the class and stays. *)
Theorem naming_sanitizer :
  forall s : string,
    String.length (processing_component.sanitize_filename s) = String.length s
    /\ PyStr.any_char processing_component.invalid_char
         (processing_component.sanitize_filename s) = false
    /\ processing_component.sanitize_filename (processing_component.sanitize_filename s)
       = processing_component.sanitize_filename s
    /\ (PyStr.any_char processing_component.invalid_char s = false <->
        processing_component.sanitize_filename s = s)
    /\ processing_component.invalid_char (PyStr.chr 92) = false.
Proof.
  intros s. unfold processing_component.sanitize_filename.
  assert (Hfree : PyStr.any_char processing_component.invalid_char
                    (PyStr.sub_class processing_component.invalid_char "_" s) = false)
    by (apply sub_class_none; reflexivity).
  split; [apply sub_class_length|].
  split; [exact Hfree|].
  split; [apply sub_class_clean; exact Hfree|].
  split; [|reflexivity].
  split; [apply sub_class_clean|].
  intros H. rewrite <- H. exact Hfree.
Qed.

(** ** From a generated name to its folder *)

Section RouteFacts.
Import PyStr Py teams_component Route.

Lemma skip_digits_append (k r : string) :
  all_chars is_digit k = true -> starts_with_digit r = false ->
  skip_digits (k ++ r) = r.
Proof.
  intros Hk Hr. induction k as [|c k IH]; cbn in *.
  - destruct r as [|d r]; [reflexivity|]. cbn in Hr. cbn. rewrite Hr. reflexivity.
  - apply andb_true_iff in Hk as [Hc Hk]. rewrite Hc. apply IH. exact Hk.
Qed.

Lemma starts_with_digit_append (k r : string) :
  k <> EmptyString -> starts_with_digit (k ++ r) = starts_with_digit k.
Proof. destruct k as [|c k]; [congruence | reflexivity]. Qed.

Lemma all_digits_start (k : string) :
  k <> EmptyString -> all_chars is_digit k = true -> starts_with_digit k = true.
Proof.
  destruct k as [|c k]; [congruence|]. cbn. intros _ H.
  apply andb_true_iff in H as [H _]. exact H.
Qed.

Lemma endswith_newline_pdf (a : string) :
  endswith (a ++ ".pdf") (String (chr 10) EmptyString) = false.
Proof.
  unfold endswith. rewrite length_append. cbn [String.length].
  replace (String.length a + 4 - 1)%nat with (String.length (a ++ ".pd"))
    by (rewrite length_append; cbn; lia).
  replace (a ++ ".pdf") with ((a ++ ".pd") ++ "f")
    by (rewrite append_assoc; reflexivity).
  rewrite drop_append. apply andb_false_r.
Qed.

(** A name without newline that ends in [.pdf] matches the tail of both
    patterns. *)
Lemma matches_any_pdf_append (a : string) :
  any_char newline a = false -> matches_any_pdf (a ++ ".pdf") = true.
Proof.
  intros Ha. unfold matches_any_pdf.
  rewrite endswith_newline_pdf, endswith_append.
  change (Ascii.eqb (chr 10)) with newline.
  rewrite any_char_append, Ha. reflexivity.
Qed.

Lemma digit_not_upper (c : ascii) : is_digit c = true -> is_upper c = false.
Proof.
  unfold is_digit, is_upper. intros H.
  apply andb_true_iff in H as [_ H]. apply Nat.leb_le in H.
  apply andb_false_iff. left. apply Nat.leb_gt. lia.
Qed.

Lemma upper_not_digit (c : ascii) : is_upper c = true -> is_digit c = false.
Proof.
  intros H. destruct (is_digit c) eqn:Hd; [|reflexivity].
  apply digit_not_upper in Hd. congruence.
Qed.

(** A name that starts with a digit never goes to the trust-account
    folder. *)
Lemma digit_name_folder (name team tok : string) :
  starts_with_digit name = true ->
  determine_target_folder name team tok = wmc_folder.
Proof.
  intros H. unfold determine_target_folder.
  destruct (matches_wmc name); [reflexivity|].
  destruct name as [|c name]; [discriminate H|]. cbn in H.
  unfold matches_nominee.
  destruct name as [|b [|c' [|sp r]]]; try reflexivity.
  rewrite (digit_not_upper c H). reflexivity.
Qed.

(** A name that starts with three upper-case letters, a space, digits
    and a space, has no newline after that and ends in [.pdf] goes to the
    trust-account folder. *)
Lemma nominee_name_folder (cur key body team tok : string) :
  String.length cur = 3%nat -> all_chars is_upper cur = true ->
  key <> EmptyString -> all_chars is_digit key = true ->
  any_char newline body = false ->
  determine_target_folder (cur ++ " " ++ key ++ " " ++ body ++ ".pdf") team tok
  = nominee_folder.
Proof.
  intros Hlen Hup Hne Hdig Hnl.
  destruct cur as [|a [|b [|c [|d cur]]]]; try discriminate Hlen.
  cbn in Hup. apply andb_true_iff in Hup as [Ha Hup].
  apply andb_true_iff in Hup as [Hb Hup]. apply andb_true_iff in Hup as [Hc _].
  unfold determine_target_folder.
  replace (matches_wmc _) with false
    by (unfold matches_wmc; cbn; rewrite (upper_not_digit a Ha); reflexivity).
  replace (matches_nominee _) with true; [reflexivity|].
  symmetry. cbn. rewrite Ha, Hb, Hc. cbn.
  rewrite starts_with_digit_append by exact Hne.
  rewrite (all_digits_start key Hne Hdig). cbn.
  rewrite skip_digits_append by (try exact Hdig; reflexivity).
  cbn. destruct (ascii_dec " " " ") as [_|n]; [|contradiction].
  replace (String.prefix "" (body ++ ".pdf")) with true by (destruct body; reflexivity).
  apply matches_any_pdf_append. exact Hnl.
Qed.

Lemma fee_suffix_cases (f : Spec.FeeClass) :
  any_char newline (Spec.fee_suffix f) = false.
Proof. destruct f; reflexivity. Qed.

End RouteFacts.

(** X2.  A document drawn on the trust account whose currency is three
    upper-case letters, whose key is a non-empty run of digits and whose
    payee holds no newline gets a name that [determine_target_folder]
    sends to the folder [E cheque WMC Nominee], whatever the fee flags
    are. *)
Theorem nominee_routing :
  forall (format_value : json -> string) (key cur payee team tok : string) (t m : json),
    String.length cur = 3%nat ->
    PyStr.all_chars PyStr.is_upper cur = true ->
    key <> EmptyString ->
    PyStr.all_chars PyStr.is_digit key = true ->
    PyStr.any_char Route.newline payee = false ->
    exists name : string,
      processing_component.generate_filename format_value key
        processing_component.NOMINEE payee cur t m = inl name
      /\ teams_component.determine_target_folder name team tok = Route.nominee_folder.
Proof.
  intros fv key cur payee team tok t m Hlen Hup Hne Hdig Hnl.
  eexists. split; [apply generate_filename_stem|].
  unfold processing_component.filename_stem.
  change (Py.eq_str processing_component.NOMINEE processing_component.WMC) with false.
  change (Py.eq_str processing_component.NOMINEE processing_component.NOMINEE) with true.
  cbn iota. cbn [processing_component.fmt].
  rewrite !append_assoc.
  rewrite <- (append_assoc (processing_component.sanitize_filename payee)).
  apply nominee_name_folder; try assumption.
  rewrite any_char_append, fee_suffix_cases, orb_false_r.
  apply sub_class_free; [reflexivity | exact Hnl].
Qed.

(** The theorem on scenario B with the trailer flag set. *)
Lemma nominee_routing_witness :
  exists name : string,
    processing_component.generate_filename (fun _ => "") "100671"
      processing_component.NOMINEE "Cheung Wilma Veronica" "HKD" true false = inl name
    /\ teams_component.determine_target_folder name "team" "token" = Route.nominee_folder.
Proof.
  apply (nominee_routing (fun _ => "") "100671" "HKD" "Cheung Wilma Veronica"
           "team" "token" true false).
  - reflexivity.
  - reflexivity.
  - discriminate.
  - reflexivity.
  - reflexivity.
Defined.

(** X3.  A document drawn on the first payer whose key starts with a
    digit gets a name that [determine_target_folder] sends to the folder
    [WMC E-cheque], whatever the payee and the fee flags are. *)
Theorem wmc_routing :
  forall (format_value : json -> string) (key payee team tok : string)
         (cur t m : json),
    teams_component.starts_with_digit key = true ->
    exists name : string,
      processing_component.generate_filename format_value key
        processing_component.WMC payee cur t m = inl name
      /\ teams_component.determine_target_folder name team tok = Route.wmc_folder.
Proof.
  intros fv key payee team tok cur t m Hk.
  eexists. split; [apply generate_filename_stem|].
  apply digit_name_folder.
  unfold processing_component.filename_stem.
  change (Py.eq_str processing_component.WMC processing_component.WMC) with true.
  cbn iota. cbn [processing_component.fmt].
  destruct key as [|c key]; [discriminate Hk|]. exact Hk.
Qed.

(** The theorem on scenario A. *)
Lemma wmc_routing_witness :
  exists name : string,
    processing_component.generate_filename (fun _ => "") "000495"
      processing_component.WMC "AAM Advisory" "HKD" false false = inl name
    /\ teams_component.determine_target_folder name "team" "token" = Route.wmc_folder.
Proof.
  apply (wmc_routing (fun _ => "") "000495" "AAM Advisory" "team" "token" "HKD" false false).
  reflexivity.
Defined.

(** ** The code fence of a response *)

Section FenceFacts.
Import PyStr.

Lemma lstrip_spaces (pre s : string) :
  all_chars is_space pre = true -> lstrip (pre ++ s) = lstrip s.
Proof.
  induction pre as [|c pre IH]; cbn; [reflexivity|].
  intros H. apply andb_true_iff in H as [Hc Hp]. rewrite Hc. apply IH. exact Hp.
Qed.

Lemma rstrip_all_spaces (post : string) :
  all_chars is_space post = true -> rstrip post = EmptyString.
Proof.
  induction post as [|c post IH]; cbn; [reflexivity|].
  intros H. apply andb_true_iff in H as [Hc Hp]. rewrite IH, Hc by exact Hp. reflexivity.
Qed.

(** A string that ends in a character that is not whitespace is its own
    [rstrip]. *)
Lemma rstrip_end (b : string) (c : ascii) :
  is_space c = false -> rstrip (b ++ String c EmptyString) = b ++ String c EmptyString.
Proof.
  intros Hc. induction b as [|d b IH]; cbn; [rewrite Hc; reflexivity|].
  rewrite IH. destruct b; reflexivity.
Qed.

Lemma rstrip_spaces (a post : string) (c : ascii) :
  is_space c = false -> all_chars is_space post = true ->
  rstrip ((a ++ String c EmptyString) ++ post) = a ++ String c EmptyString.
Proof.
  intros Hc Hp. induction a as [|d a IH]; cbn.
  - rewrite (rstrip_all_spaces post Hp), Hc. reflexivity.
  - cbn in IH. rewrite IH. destruct a; reflexivity.
Qed.

End FenceFacts.

(** X4.  A response that consists of a fenced block -- the opening
    fence with the tag [json], a body, the closing fence -- with
    whitespace around it is cleaned to exactly the body. *)
Theorem fence_round_trip :
  forall pre body post : string,
    PyStr.all_chars PyStr.is_space pre = true ->
    PyStr.all_chars PyStr.is_space post = true ->
    processing_component.clean_response_of (pre ++ "```json" ++ body ++ "```" ++ post)
    = body.
Proof.
  intros pre body post Hpre Hpost.
  unfold processing_component.clean_response_of, PyStr.strip.
  rewrite lstrip_spaces by exact Hpre.
  change (PyStr.lstrip ("```json" ++ body ++ "```" ++ post))
    with ("```json" ++ body ++ "```" ++ post).
  replace ("```json" ++ body ++ "```" ++ post)
    with ((("```json" ++ body ++ "``") ++ "`") ++ post)
    by (rewrite !append_assoc; reflexivity).
  rewrite rstrip_spaces by (try exact Hpost; reflexivity).
  replace (("```json" ++ body ++ "``") ++ "`") with ("```json" ++ (body ++ "```"))
    by (rewrite !append_assoc; reflexivity).
  unfold PyStr.startswith. rewrite prefix_append.
  unfold PyStr.slice, PyStr.len.
  rewrite length_append, length_append.
  change (String.length "```json") with 7%nat.
  change (String.length "```") with 3%nat.
  change (0 <=? -3)%Z with false. cbn iota.
  change (PyStr.drop (Z.to_nat 7) ("```json" ++ body ++ "```")) with (body ++ "```").
  replace (Z.to_nat (Z.max 0 (Z.of_nat (7 + (String.length body + 3)) + -3) - 7))
    with (String.length body) by lia.
  apply take_append.
Qed.

(** The theorem on a response with a newline after the closing fence. *)
Lemma fence_round_trip_witness :
  processing_component.clean_response_of
    (" " ++ "```json" ++ "{}" ++ "```" ++ String (PyStr.chr 10) EmptyString)
  = "{}".
Proof.
  apply (fence_round_trip " " "{}" (String (PyStr.chr 10) EmptyString)); reflexivity.
Defined.

(** ** What a document returns *)

Section OutcomeFacts.
Import PyStr Py processing_component Aux.

Variable E : env.

(** Every failure a batch records carries a text, and every record the
    name of its file. *)
Lemma process_loop_failures (key : string) (files : list file_info) :
  forall i acc errs st,
    Forall (fun f => error_text f <> EmptyString) errs ->
    Forall (fun r => exists name, original_filename r = Some name) acc ->
    Forall (fun f => error_text f <> EmptyString)
      (snd (fst (process_loop E key i files acc errs st)))
    /\ Forall (fun r => exists name, original_filename r = Some name)
         (fst (fst (process_loop E key i files acc errs st))).
Proof.
  induction files as [|f files IH]; intros i acc errs st Herrs Hacc; cbn [process_loop].
  - split; assumption.
  - set (st0 := if (0 <? i)%nat then time_sleep 2 st else st).
    destruct (process_echeque_shape E (content f) key st0)
      as [(r & Hr & _) | (msg & Hr & Hmsg)];
      destruct (process_echeque E (content f) key st0) as [[result err] st1];
      cbn [fst] in Hr; injection Hr as -> ->.
    + cbn [truthy_opt]. apply IH; [exact Herrs|].
      apply Forall_app. split; [exact Hacc|].
      constructor; [|constructor]. eexists. reflexivity.
    + cbn [truthy_opt]. apply String.eqb_neq in Hmsg. rewrite Hmsg. cbn [negb].
      apply IH; [|exact Hacc].
      apply Forall_app. split; [exact Herrs|].
      constructor; [|constructor]. cbn. apply String.eqb_neq. exact Hmsg.
Qed.

End OutcomeFacts.

(** X5.  [process_echeque] returns either a record and no error, or no
    record and an error text that is not empty, never both and never
    neither; the record carries the bytes of the document as they were
    passed in.  So in a batch every failure record has a text, and every
    processed record has the name of its file. *)
Theorem document_outcome :
  forall (E : processing_component.env),
    (forall (pdf : bytes) (key : string) (st : processing_component.pstate),
        (exists r, fst (processing_component.process_echeque E pdf key st) = (Some r, None)
                   /\ processing_component.pdf_data r = pdf)
        \/ (exists msg,
              fst (processing_component.process_echeque E pdf key st) = (None, Some msg)
              /\ msg <> EmptyString))
    /\ (forall (loaded : processing_component.DataFrame + string)
               (files : list processing_component.file_info) (key : string),
          Forall (fun f => processing_component.error_text f <> EmptyString)
            (snd (fst (processing_component.process_echeques E loaded files key)))
          /\ Forall (fun r => exists name,
                       processing_component.original_filename r = Some name)
               (fst (fst (processing_component.process_echeques E loaded files key)))).
Proof.
  intros E. split.
  - intros pdf key st.
    destruct (process_echeque_shape E pdf key st) as [(r & H1 & H2 & _) | H].
    + left. exists r. split; assumption.
    + right. exact H.
  - intros loaded files key. unfold processing_component.process_echeques.
    apply process_loop_failures; constructor.
Qed.

(** ** What a document costs *)

Section CostFacts.
Import PyStr Py processing_component Aux Cost.

Variable E : env.

Lemma quiet_ret {A} (a : A) : quiet (ret a).
Proof. intros st. split; reflexivity. Qed.

Lemma quiet_lift {A} (r : A + exn) : quiet (lift r).
Proof. intros st. split; reflexivity. Qed.

Lemma quiet_bind {A B} (c : Result A) (k : A -> Result B) :
  quiet c -> (forall a, quiet (k a)) -> quiet (bind c k).
Proof.
  intros Hc Hk st. unfold bind. specialize (Hc st).
  destruct (c st) as [[a|e] st1]; cbn [snd] in *; [|exact Hc].
  destruct Hc as [Hc1 Hc2]. destruct (Hk a st1) as [Hk1 Hk2].
  split; congruence.
Qed.

Lemma quiet_resolve_payee (payer payee : json) : quiet (resolve_payee payer payee).
Proof.
  intros st. unfold resolve_payee.
  destruct (negb (eq_str payer NOMINEE)); [|split; reflexivity].
  destruct (get_payee_shortform payee (frame st)) as [r df]. split; reflexivity.
Qed.

Lemma quiet_process_response (pdf : bytes) (raw : option string) :
  quiet (process_response E pdf raw).
Proof.
  unfold process_response. destruct raw as [raw|]; [|apply quiet_lift].
  apply quiet_bind; [apply quiet_lift | intros parsed].
  apply quiet_bind; [apply quiet_lift | intros complete].
  destruct complete; cbn [negb].
  - apply quiet_bind; [apply quiet_lift | intros original].
    apply quiet_bind; [apply quiet_lift | intros payer].
    apply quiet_bind; [apply quiet_resolve_payee | intros shortened].
    do 5 (apply quiet_bind; [apply quiet_lift | intros ?]).
    apply quiet_bind; [intros st; split; reflexivity | intros fname].
    apply quiet_bind; [apply quiet_lift | intros next].
    apply quiet_ret.
  - apply quiet_bind; [apply quiet_lift | intros missing]. apply quiet_ret.
Qed.

Lemma sum_Z_app (a b : list Z) : sum_Z (a ++ b) = (sum_Z a + sum_Z b)%Z.
Proof. unfold sum_Z. induction a as [|x a IH]; cbn; [reflexivity | rewrite IH; lia]. Qed.

(** The service call makes no call and no sleep, or sleeps one second
    and then makes one call more than it met rate limits, sleeping the
    backoff before each retry. *)
Lemma call_gemini_api_cost (key : string) (st : pstate) :
  snd (call_gemini_api E key st) = st
  \/ exists a : nat,
       (a <= 4)%nat
       /\ snd (call_gemini_api E key st)
          = advance st (S a) (1%Z :: firstn a [1; 2; 4; 8]%Z).
Proof.
  unfold call_gemini_api.
  destruct (key =? ""); [left; reflexivity|].
  destruct (configure E key); [left; reflexivity|].
  right. rewrite retry_run.
  set (a := leading _ 4). exists a. split; [apply leading_le|].
  assert (Hst : advance (time_sleep 1 st) (S a) (firstn a [1; 2; 4; 8]%Z)
                = advance st (S a) (1%Z :: firstn a [1; 2; 4; 8]%Z)).
  { unfold advance, time_sleep. cbn. rewrite <- app_assoc. reflexivity. }
  destruct (fst (call_gemini_api_attempt E _)) as [t|e];
    [|destruct (exn_class_eqb (exn_cls e) APIRateLimitError)]; exact Hst.
Qed.

Lemma process_echeque_cost (pdf : bytes) (key : string) (st : pstate) :
  let st' := snd (process_echeque E pdf key st) in
  (api_calls st' = api_calls st /\ slept st' = slept st)
  \/ exists a : nat,
       (a <= 4)%nat
       /\ api_calls st' = (api_calls st + S a)%nat
       /\ slept st' = (slept st ++ 1%Z :: firstn a [1; 2; 4; 8]%Z)%list.
Proof.
  cbv zeta. unfold process_echeque.
  destruct (pdf_to_image E pdf) as [img err].
  destruct (truthy_opt err); [left; split; reflexivity|].
  pose proof (call_gemini_api_cost key st) as Hc.
  destruct (call_gemini_api E key st) as [[raw err2] st1]. cbn [snd] in Hc.
  assert (Hq : forall st2, api_calls st2 = api_calls st1 /\ slept st2 = slept st1 ->
               (api_calls st2 = api_calls st /\ slept st2 = slept st)
               \/ exists a : nat,
                    (a <= 4)%nat
                    /\ api_calls st2 = (api_calls st + S a)%nat
                    /\ slept st2 = (slept st ++ 1%Z :: firstn a [1; 2; 4; 8]%Z)%list).
  { intros st2 [H1 H2]. destruct Hc as [->|(a & Ha & ->)].
    - left. split; assumption.
    - right. exists a. split; [exact Ha|]. split; assumption. }
  destruct (truthy_opt err2); cbn [snd]; [apply Hq; split; reflexivity|].
  pose proof (quiet_process_response pdf raw st1) as Hk.
  destruct (process_response E pdf raw st1) as [[r|e] st2]; cbn [snd] in *;
    [apply Hq; exact Hk|].
  destruct (exn_class_eqb (exn_cls e) JSONDecodeError); apply Hq; exact Hk.
Qed.

Lemma backoff_prefix_sum (a : nat) :
  (a <= 4)%nat -> (0 <= sum_Z (firstn a [1; 2; 4; 8]%Z) <= 15)%Z.
Proof.
  intros H. destruct a as [|[|[|[|[|a]]]]]; cbn; lia.
Qed.

(** One document: at most five calls and sixteen seconds of sleep. *)
Lemma process_echeque_bounds (pdf : bytes) (key : string) (st : pstate) :
  let st' := snd (process_echeque E pdf key st) in
  (0 <= calls_between st st' <= 5)%Z /\ (0 <= slept_between st st' <= 16)%Z.
Proof.
  cbv zeta. unfold calls_between, slept_between.
  destruct (process_echeque_cost pdf key st) as [[H1 H2]|(a & Ha & H1 & H2)];
    rewrite H1, H2.
  - lia.
  - rewrite sum_Z_app. change (sum_Z (1%Z :: ?l)) with (1 + sum_Z l)%Z.
    pose proof (backoff_prefix_sum a Ha).
    change (sum_Z (1%Z :: firstn a [1; 2; 4; 8]%Z))
      with (1 + sum_Z (firstn a [1; 2; 4; 8]%Z))%Z.
    lia.
Qed.

(** The loop from [st]: per file at most five calls and eighteen
    seconds, and two seconds at least for every file but the first of
    the batch. *)
Lemma process_loop_bounds (key : string) (files : list file_info) :
  forall i acc errs st,
    let st' := snd (process_loop E key i files acc errs st) in
    let n := Z.of_nat (List.length files) in
    (0 <= calls_between st st' <= 5 * n)%Z
    /\ (slept_between st st' <= 18 * n)%Z
    /\ (2 * (if (0 <? i)%nat then n else Z.max 0 (n - 1)) <= slept_between st st')%Z.
Proof.
  induction files as [|f files IH]; intros i acc errs st; cbv zeta;
    cbn [process_loop List.length].
  - unfold calls_between, slept_between. cbn [snd].
    destruct (0 <? i)%nat; lia.
  - set (st0 := if (0 <? i)%nat then time_sleep 2 st else st).
    pose proof (process_echeque_bounds (content f) key st0) as Hb. cbv zeta in Hb.
    destruct (process_echeque E (content f) key st0) as [[result err] st1].
    cbn [snd] in Hb.
    assert (H0 : calls_between st st0 = 0%Z
                 /\ slept_between st st0 = if (0 <? i)%nat then 2%Z else 0%Z).
    { subst st0. unfold calls_between, slept_between.
      destruct (0 <? i)%nat; cbn [time_sleep api_calls slept]; rewrite ?sum_Z_app;
        cbn; lia. }
    assert (Hstep : forall acc' errs',
      let st' := snd (process_loop E key (S i) files acc' errs' st1) in
      let n := Z.of_nat (S (List.length files)) in
      (0 <= calls_between st st' <= 5 * n)%Z
      /\ (slept_between st st' <= 18 * n)%Z
      /\ (2 * (if (0 <? i)%nat then n else Z.max 0 (n - 1)) <= slept_between st st')%Z).
    { intros acc' errs'. cbv zeta.
      specialize (IH (S i) acc' errs' st1). cbv zeta in IH.
      change (0 <? S i)%nat with true in IH. cbn iota in IH.
      unfold calls_between, slept_between in *.
      destruct H0 as [H0 H0'].
      destruct (0 <? i)%nat; lia. }
    destruct (truthy_opt err); [|destruct result]; apply Hstep.
Qed.

End CostFacts.

(** X6.  What a document and a batch cost.  [process_echeque] makes no
    call of the recognition service and no sleep at all, or sleeps one
    second and then makes between one and five calls, with the backoff
    sleeps 1, 2, 4, 8 before the retries.
    A batch of [n] documents therefore makes at most [5 n] calls and
    sleeps at most [18 n] seconds, and at least two seconds for every
    document after the first. *)
Theorem processing_cost :
  forall (E : processing_component.env),
    (forall (pdf : bytes) (key : string) (st : processing_component.pstate),
        let st' := snd (processing_component.process_echeque E pdf key st) in
        (processing_component.api_calls st' = processing_component.api_calls st
         /\ processing_component.slept st' = processing_component.slept st)
        \/ exists a : nat,
             (a <= 4)%nat
             /\ processing_component.api_calls st'
                = (processing_component.api_calls st + S a)%nat
             /\ processing_component.slept st'
                = (processing_component.slept st
                   ++ 1%Z :: firstn a [1; 2; 4; 8]%Z)%list)
    /\ (forall (loaded : processing_component.DataFrame + string)
               (files : list processing_component.file_info) (key : string),
          let st' := snd (processing_component.process_echeques E loaded files key) in
          let n := Z.of_nat (List.length files) in
          (Z.of_nat (processing_component.api_calls st') <= 5 * n)%Z
          /\ (2 * (n - 1) <= Aux.sum_Z (processing_component.slept st') <= 18 * n)%Z).
Proof.
  intros E. split; [apply process_echeque_cost|].
  intros loaded files key. cbv zeta.
  unfold processing_component.process_echeques.
  pose proof (process_loop_bounds E key files 0 [] []
                (processing_component.mkPState
                   (processing_component.initial_frame loaded) 0 [] [])) as H.
  cbv zeta in H. unfold Cost.calls_between, Cost.slept_between in H.
  cbn [processing_component.api_calls processing_component.slept Aux.sum_Z fold_right
       Nat.ltb Nat.leb] in H.
  lia.
Qed.

(** ** What a record holds *)

Section RecordNames.
Import PyStr Py processing_component Aux.

Variable E : env.

Lemma generate_filename_pdf (fv : json -> string) (k payer payee cur t m : json)
  (name : string) :
  generate_filename fv k payer payee cur t m = inl name ->
  (exists p, payee = JStr p) /\ endswith name ".pdf" = true.
Proof.
  destruct payee as [|b|n z|p|l|l]; try discriminate.
  rewrite generate_filename_stem. intros H. injection H as <-.
  split; [exists p; reflexivity|].
  rewrite <- append_assoc. apply endswith_append.
Qed.

Lemma resolve_payee_namings (payer payee : json) (st : pstate) :
  namings (snd (resolve_payee payer payee st)) = namings st.
Proof.
  unfold resolve_payee. destruct (negb (eq_str payer NOMINEE)); [|reflexivity].
  destruct (get_payee_shortform payee (frame st)); reflexivity.
Qed.

Lemma process_echeque_steps (pdf : bytes) (key : string)
  (st st2 : pstate) (r : processed) (err : option string) :
  process_echeque E pdf key st = ((Some r, err), st2) ->
  exists raw : option string,
    process_response E pdf raw (snd (call_gemini_api E key st))
    = (inl (Some r, err), st2).
Proof.
  unfold process_echeque.
  destruct (pdf_to_image E pdf) as [img e1].
  destruct (truthy_opt e1); [discriminate|].
  destruct (call_gemini_api E key st) as [[raw e2] st1]. cbn [snd].
  destruct (truthy_opt e2); [discriminate|].
  destruct (process_response E pdf raw st1) as [[res|e] st3] eqn:Hp.
  - intros H. injection H as -> ->. exists raw. exact Hp.
  - destruct (exn_class_eqb (exn_cls e) JSONDecodeError); discriminate.
Qed.

End RecordNames.

(** X7.  When [process_echeque] returns a record, it returns no error
    with it; the payee the name was built from is a string; the
    generated name ends in [.pdf]; the record holds the bytes passed in;
    and exactly one name was generated on the way. *)
Theorem record_names :
  forall (E : processing_component.env) (pdf : bytes) (key : string)
         (st st2 : processing_component.pstate)
         (r : processing_component.processed) (err : option string),
    processing_component.process_echeque E pdf key st = ((Some r, err), st2) ->
    err = None
    /\ (exists p : string, processing_component.mapped_payee r = JStr p)
    /\ PyStr.endswith (processing_component.generated_filename r) ".pdf" = true
    /\ processing_component.pdf_data r = pdf
    /\ List.length (processing_component.namings st2)
       = S (List.length (processing_component.namings st)).
Proof.
  intros E pdf key st st2 r err H.
  pose proof (process_echeque_shape E pdf key st) as Hs.
  rewrite H in Hs. cbn [fst] in Hs.
  destruct Hs as [(r' & Hr & Hpdf & _) | (msg & Hr & _)]; [|discriminate Hr].
  injection Hr as <- ->.
  destruct (process_echeque_steps E pdf key st st2 r None H) as (raw & Hp).
  destruct (process_response_record E pdf raw _ st2 r None Hp)
    as (payer & k & cur & t & m & st' & _ & _ & _ & _ & _ & _ & Hres & Hg & Hst).
  destruct (generate_filename_pdf _ _ _ _ _ _ _ _ Hg) as [Hstr Hend].
  repeat split; try assumption.
  rewrite Hst. cbn [processing_component.log_naming processing_component.namings].
  rewrite length_app. cbn [List.length].
  pose proof (resolve_payee_namings payer (processing_component.original_payee r)
                (snd (processing_component.call_gemini_api E key st))) as Hn.
  rewrite Hres in Hn. cbn [snd] in Hn. rewrite Hn.
  pose proof (call_gemini_api_frame E key st) as [_ Hn1].
  rewrite Hn1. lia.
Qed.

(** The theorem on scenario A. *)
Lemma record_names_witness :
  exists r : processing_component.processed,
    fst (processing_component.process_echeque (Demo.env_text "<A>") [] "key" Demo.start)
    = (Some r, None)
    /\ PyStr.endswith (processing_component.generated_filename r) ".pdf" = true.
Proof.
  eexists. split; [vm_compute; reflexivity|].
  refine (proj1 (proj2 (proj2
            (record_names (Demo.env_text "<A>") [] "key" Demo.start _ _ None _)))).
  vm_compute. reflexivity.
Defined.

(** ** A blank cell in the alias table *)

Section BlankFacts.
Import PyStr Py processing_component Aux.

Lemma standardize_cells_blank (col : list cell) :
  In CNaN col ->
  standardize_cells col
  = inr (mkExn AttributeError "'float' object has no attribute 'split'").
Proof.
  induction col as [|c col IH]; [contradiction|].
  intros [->|H]; [reflexivity|].
  destruct c as [s|]; [|reflexivity]. cbn. rewrite IH by exact H. reflexivity.
Qed.

(** A column with a blank cell is rejected: by the [.str] accessor when
    it has no string at all, by the lambda otherwise. *)
Lemma standardize_column_blank (col : list cell) :
  In CNaN col ->
  standardize_column col
  = inr (mkExn AttributeError
           (if forallb is_nan col
            then "Can only use .str accessor with string values!"
            else "'float' object has no attribute 'split'")).
Proof.
  intros H. unfold standardize_column.
  destruct col as [|c col]; [contradiction|].
  destruct (forallb is_nan (c :: col)); [reflexivity|].
  apply standardize_cells_blank. exact H.
Qed.

(** With a blank [Full Name] cell every lookup of a string fails and
    leaves the table as it is. *)
Lemma get_payee_shortform_blank (p : string) (df : DataFrame) (full : list cell) :
  df_empty df = false -> assoc "Full Name" df = Some full -> In CNaN full ->
  get_payee_shortform (JStr p) df
  = (inr (mkExn AttributeError
            (if forallb is_nan full
             then "Can only use .str accessor with string values!"
             else "'float' object has no attribute 'split'")), df).
Proof.
  intros He Hfull Hin. unfold get_payee_shortform.
  rewrite He, Hfull, standardize_column_blank by exact Hin. reflexivity.
Qed.

End BlankFacts.

(** X8.  One blank [Full Name] cell in a table with rows makes every
    document fail whose payer is not the trust account: when the
    response parses to an object with all the required fields and a
    string payee, [process_echeque] returns the error that quotes the
    attribute error of the lookup, no record, and the state the service
    call left.  When the column has a name as well, the attribute error
    is that of the call of [split] on the blank cell.  When the column
    has no name at all it is a column of numbers, and the attribute
    error is that of the [.str] accessor, whose text begins with
    [Can only use .str accessor with string values]. *)
Theorem blank_name_cell :
  forall (E : processing_component.env) (pdf : bytes) (key raw : string)
         (st st1 : processing_component.pstate) (fields : list (string * json))
         (p : string) (payer : json) (full : list processing_component.cell),
    Py.truthy_opt (snd (processing_component.pdf_to_image E pdf)) = false ->
    processing_component.call_gemini_api E key st = ((Some raw, None), st1) ->
    processing_component.json_loads E (processing_component.clean_response_of raw)
    = inl (JObj fields) ->
    Aux.lacking fields = [] ->
    Py.assoc "payee" fields = Some (JStr p) ->
    Py.assoc "payer" fields = Some payer ->
    Py.eq_str payer processing_component.NOMINEE = false ->
    processing_component.df_empty (processing_component.frame st) = false ->
    Py.assoc "Full Name" (processing_component.frame st) = Some full ->
    In processing_component.CNaN full ->
    exists msg : string,
      processing_component.process_echeque E pdf key st
      = ((None, Some ("Error processing e-cheque: " ++ msg)), st1)
      /\ processing_component.standardize_column full
         = inr (mkExn AttributeError msg)
      /\ (if forallb processing_component.is_nan full
          then PyStr.startswith msg "Can only use .str accessor with string values" = true
          else msg = "'float' object has no attribute 'split'").
Proof.
  intros E pdf key raw st st1 fields p payer full
    Himg Hcall Hjson Hlack Hpayee Hpayer Hnom Hrows Hfull Hblank.
  exists (if forallb processing_component.is_nan full
          then "Can only use .str accessor with string values!"
          else "'float' object has no attribute 'split'").
  split; [|split; [apply standardize_column_blank; exact Hblank
                  | destruct (forallb processing_component.is_nan full); reflexivity]].
  pose proof (call_gemini_api_frame E key st) as [Hframe _].
  rewrite Hcall in Hframe. cbn [snd] in Hframe.
  unfold processing_component.process_echeque.
  destruct (processing_component.pdf_to_image E pdf) as [img err].
  cbn [snd] in Himg. rewrite Himg, Hcall. cbn [Py.truthy_opt].
  unfold processing_component.process_response.
  rewrite Hjson, bind_lift_inl, all_present_obj, bind_lift_inl.
  apply forallb_filter_nil in Hlack. rewrite Hlack. cbn [negb].
  unfold Py.getitem at 1. rewrite Hpayee, bind_lift_inl.
  unfold Py.getitem at 1. rewrite Hpayer, bind_lift_inl.
  unfold processing_component.bind at 1.
  unfold processing_component.resolve_payee. rewrite Hnom. cbn [negb].
  rewrite Hframe.
  rewrite (get_payee_shortform_blank p _ full Hrows Hfull Hblank).
  rewrite <- Hframe.
  replace (processing_component.set_frame (processing_component.frame st1) st1) with st1
    by (destruct st1; reflexivity).
  reflexivity.
Qed.

(** The theorem on scenario A with a table whose second row has no full
    name, and with a table in which no row has one. *)
Lemma blank_name_cell_witness :
  (exists msg : string,
     processing_component.process_echeque (Demo.env_text "<A>") [] "key"
       (processing_component.mkPState Table.blank_row 0 [] [])
     = ((None, Some ("Error processing e-cheque: " ++ msg)),
        processing_component.mkPState Table.blank_row 1 [1%Z] [])
     /\ processing_component.standardize_column
          [processing_component.CStr "Oreana Financial Services Limited";
           processing_component.CNaN]
        = inr (mkExn AttributeError msg)
     /\ msg = "'float' object has no attribute 'split'")
  /\ (exists msg : string,
        processing_component.process_echeque (Demo.env_text "<A>") [] "key"
          (processing_component.mkPState Table.blank_column 0 [] [])
        = ((None, Some ("Error processing e-cheque: " ++ msg)),
           processing_component.mkPState Table.blank_column 1 [1%Z] [])
        /\ processing_component.standardize_column
             [processing_component.CNaN; processing_component.CNaN]
           = inr (mkExn AttributeError msg)
        /\ PyStr.startswith msg "Can only use .str accessor with string values" = true).
Proof.
  split.
  - refine (blank_name_cell (Demo.env_text "<A>") [] "key" "```json<A>```"
              (processing_component.mkPState Table.blank_row 0 [] [])
              (processing_component.mkPState Table.blank_row 1 [1%Z] [])
              _ "AAM Advisory" "WEALTH MANAGEMENT CUBE LIMITED"
              [processing_component.CStr "Oreana Financial Services Limited";
               processing_component.CNaN] _ _ _ _ _ _ _ _ _ _).
    + reflexivity.
    + vm_compute. reflexivity.
    + vm_compute. reflexivity.
    + vm_compute. reflexivity.
    + reflexivity.
    + reflexivity.
    + reflexivity.
    + reflexivity.
    + reflexivity.
    + right. left. reflexivity.
  - refine (blank_name_cell (Demo.env_text "<A>") [] "key" "```json<A>```"
              (processing_component.mkPState Table.blank_column 0 [] [])
              (processing_component.mkPState Table.blank_column 1 [1%Z] [])
              _ "AAM Advisory" "WEALTH MANAGEMENT CUBE LIMITED"
              [processing_component.CNaN; processing_component.CNaN] _ _ _ _ _ _ _ _ _ _).
    + reflexivity.
    + vm_compute. reflexivity.
    + vm_compute. reflexivity.
    + vm_compute. reflexivity.
    + reflexivity.
    + reflexivity.
    + reflexivity.
    + reflexivity.
    + reflexivity.
    + left. reflexivity.
Defined.

(** ** Normal forms of names *)

Section NormalFormFacts.
Import PyStr Py processing_component Aux.

Lemma space_fixed (c : ascii) :
  is_space c = true ->
  Ascii.eqb c (ascii_of_nat 223) = false /\ upper_char c = c.
Proof.
  destruct c as [[] [] [] [] [] [] [] []]; intros H; try discriminate H;
    split; reflexivity.
Qed.

Lemma upper_append (a b : string) : upper (a ++ b) = upper a ++ upper b.
Proof.
  induction a as [|c a IH]; [reflexivity|].
  cbn [append upper]. rewrite IH.
  destruct (Ascii.eqb c (ascii_of_nat 223)); reflexivity.
Qed.

Lemma upper_spaces (s : string) : all_chars is_space s = true -> upper s = s.
Proof.
  induction s as [|c s IH]; [reflexivity|]. intros H.
  cbn in H. apply andb_true_iff in H as [Hc Hs].
  destruct (space_fixed c Hc) as [H1 H2].
  cbn [upper]. rewrite H1, H2, IH by exact Hs. reflexivity.
Qed.

Lemma collapse_join (s : string) :
  Spec.collapse false false s = join " " (split s).
Proof. rewrite collapse_split. destruct (split s); reflexivity. Qed.

Lemma rstrip_app_spaces (a post : string) :
  all_chars is_space post = true -> rstrip (a ++ post) = rstrip a.
Proof.
  intros Hp. induction a as [|c a IH]; cbn.
  - apply rstrip_all_spaces. exact Hp.
  - rewrite IH. reflexivity.
Qed.

Lemma strip_padding (pre s post : string) :
  all_chars is_space pre = true -> all_chars is_space post = true ->
  strip (pre ++ s ++ post) = strip s.
Proof.
  intros Hpre Hpost. unfold strip. rewrite lstrip_spaces by exact Hpre.
  induction s as [|c s IH]; cbn.
  - rewrite (rstrip_all_spaces (lstrip post)); [reflexivity|].
    clear - Hpost. induction post as [|c post IH]; cbn in *; [reflexivity|].
    apply andb_true_iff in Hpost as [Hc Hp]. rewrite Hc. apply IH. exact Hp.
  - destruct (is_space c); [exact IH|].
    change (String c (s ++ post)) with (String c s ++ post).
    apply rstrip_app_spaces. exact Hpost.
Qed.

(** A word without whitespace is one word for [split]. *)
Lemma split_word (w : string) :
  w <> EmptyString -> any_char is_space w = false -> split w = [w].
Proof.
  induction w as [|c w IH]; [congruence|]. intros _ H.
  cbn in H. apply orb_false_iff in H as [Hc Hw]. cbn [split]. rewrite Hc.
  destruct w as [|d w']; [reflexivity|].
  assert (Hd : is_space d = false)
    by (cbn in Hw; apply orb_false_iff in Hw as [Hd _]; exact Hd).
  rewrite Hd, IH by (try exact Hw; discriminate). reflexivity.
Qed.

Lemma split_word_cons (w rest : string) (sp : ascii) :
  w <> EmptyString -> any_char is_space w = false -> is_space sp = true ->
  split (w ++ String sp rest) = w :: split rest.
Proof.
  intros Hne Hw Hsp. induction w as [|c w IH]; [congruence|].
  cbn in Hw. apply orb_false_iff in Hw as [Hc Hw].
  change (String c w ++ String sp rest) with (String c (w ++ String sp rest)).
  rewrite split_cons, Hc.
  destruct w as [|d w'].
  - cbn [append]. rewrite Hsp, split_cons, Hsp. reflexivity.
  - assert (Hd : is_space d = false)
      by (cbn in Hw; apply orb_false_iff in Hw as [Hd _]; exact Hd).
    rewrite IH by (try exact Hw; discriminate).
    cbn [append]. rewrite Hd. reflexivity.
Qed.

(** Joining words with single spaces and splitting again gives the
    words back. *)
Lemma split_join (ws : list string) :
  Forall key_word ws -> split (join " " ws) = ws.
Proof.
  induction ws as [|w ws IH]; intros H; [reflexivity|].
  inversion H as [|? ? (Hne & Hsp & _) Hws]; subst.
  cbn [join]. destruct ws as [|w' ws'].
  - apply split_word; assumption.
  - change (w ++ " " ++ join " " (w' :: ws'))
      with (w ++ String " " (join " " (w' :: ws'))).
    rewrite split_word_cons by (try assumption; reflexivity).
    rewrite IH by exact Hws. reflexivity.
Qed.

End NormalFormFacts.

(** X9.  The normal form used for the lookup keys is stable: normalizing
    a normalized name changes nothing, and a name has the same normal
    form as its upper-case version and as itself with whitespace put in
    front of it or after it.  Upper case and whitespace are those of
    Python on the code points 0 to 255: the sharp s (223) becomes [SS],
    the letters 224-254 have upper-case forms, and 133 and 160 are
    whitespace. *)
Theorem standardize_stable :
  forall s : string,
    processing_component.standardize (processing_component.standardize s)
    = processing_component.standardize s
    /\ processing_component.standardize (PyStr.upper s)
       = processing_component.standardize s
    /\ (forall pre post : string,
          PyStr.all_chars PyStr.is_space pre = true ->
          PyStr.all_chars PyStr.is_space post = true ->
          processing_component.standardize (pre ++ s ++ post)
          = processing_component.standardize s).
Proof.
  intros s. split; [|split].
  - rewrite !standardize_normalize. unfold Spec.normalize.
    rewrite upper_collapse, upper_twice, !collapse_join.
    rewrite split_join; [reflexivity|].
    apply split_words, upper_no_lower.
  - unfold processing_component.standardize. rewrite upper_twice. reflexivity.
  - intros pre post Hpre Hpost. unfold processing_component.standardize.
    rewrite !upper_append.
    rewrite (upper_spaces pre Hpre), (upper_spaces post Hpost).
    rewrite strip_padding by assumption. reflexivity.
Qed.

(** The theorem on a name with a sharp s (223) and an e with acute
    accent (233) in it, a blank and a no-break space (160) in front of
    it and a next-line character (133) after it. *)
Lemma standardize_stable_witness :
  processing_component.standardize
    ((" " ++ String (PyStr.chr 160) EmptyString)
     ++ ("stra" ++ String (PyStr.chr 223) ("e  caf" ++ String (PyStr.chr 233) EmptyString))
     ++ String (PyStr.chr 133) EmptyString)
  = processing_component.standardize
      ("stra" ++ String (PyStr.chr 223) ("e  caf" ++ String (PyStr.chr 233) EmptyString)).
Proof.
  apply (proj2 (proj2 (standardize_stable
                         ("stra" ++ String (PyStr.chr 223)
                                      ("e  caf" ++ String (PyStr.chr 233) EmptyString)))));
    reflexivity.
Defined.

(** ** The table after a lookup *)

Section SettleFacts.
Import PyStr Py processing_component Aux.

Lemma set_column_twice (name : string) (col : list cell) (df : DataFrame) :
  set_column name col (set_column name col df) = set_column name col df.
Proof.
  induction df as [|[n c] df IH]; cbn.
  - rewrite String.eqb_refl. reflexivity.
  - destruct (n =? name) eqn:Hn; cbn; rewrite Hn; [reflexivity|].
    rewrite IH. reflexivity.
Qed.

Lemma assoc_set_column_eq (name : string) (col : list cell) (df : DataFrame) :
  assoc name (set_column name col df) = Some col.
Proof.
  induction df as [|[n c] df IH]; cbn.
  - rewrite String.eqb_refl. reflexivity.
  - destruct (n =? name) eqn:Hn; cbn; rewrite Hn; [reflexivity | exact IH].
Qed.

(** The frame a lookup of a string leaves: the one it got, or the one
    it got with the normalized names of [Full Name] as the column
    [Standardized_Name]. *)
Lemma get_payee_shortform_column (p : string) (df : DataFrame) :
  snd (get_payee_shortform (JStr p) df) = df
  /\ (df_empty df = true \/ assoc "Full Name" df = None
      \/ exists full e, assoc "Full Name" df = Some full
                        /\ standardize_column full = inr e)
  \/ exists full names,
       df_empty df = false
       /\ assoc "Full Name" df = Some full
       /\ standardize_column full = inl names
       /\ snd (get_payee_shortform (JStr p) df)
          = set_column "Standardized_Name" (map CStr names) df.
Proof.
  unfold get_payee_shortform.
  destruct (df_empty df) eqn:He; [left; split; [reflexivity | left; reflexivity]|].
  destruct (assoc "Full Name" df) as [full|];
    [|left; split; [reflexivity | right; left; reflexivity]].
  destruct (standardize_column full) as [names|e] eqn:Hs.
  - right. exists full, names.
    split; [reflexivity|]. split; [reflexivity|]. split; [exact Hs|].
    destruct (first_match (standardize p) names); [|reflexivity].
    destruct (assoc "Short Form" _); reflexivity.
  - left. split; [reflexivity|]. right. right. exists full, e.
    split; [reflexivity | exact Hs].
Qed.

Lemma get_payee_shortform_settled (q : json) (df : DataFrame) (full : list cell)
  (names : list string) :
  assoc "Full Name" df = Some full ->
  standardize_column full = inl names ->
  let df' := set_column "Standardized_Name" (map CStr names) df in
  snd (get_payee_shortform q df') = df'.
Proof.
  intros Hfull Hs df'. unfold get_payee_shortform.
  destruct (df_empty df'); [reflexivity|].
  destruct q; try reflexivity.
  assert (Hfull' : assoc "Full Name" df' = Some full)
    by (subst df'; rewrite assoc_set_column_ne by discriminate; exact Hfull).
  rewrite Hfull', Hs.
  assert (Hset : set_column "Standardized_Name" (map CStr names) df' = df')
    by (subst df'; apply set_column_twice).
  rewrite Hset.
  destruct (first_match (standardize s) names); [|reflexivity].
  destruct (assoc "Short Form" df'); reflexivity.
Qed.

Lemma get_payee_shortform_failed (q : json) (df : DataFrame) :
  df_empty df = true \/ assoc "Full Name" df = None
  \/ (exists full e, assoc "Full Name" df = Some full /\ standardize_column full = inr e) ->
  snd (get_payee_shortform q df) = df.
Proof.
  intros H. unfold get_payee_shortform.
  destruct (df_empty df); [reflexivity|].
  destruct q; try reflexivity.
  destruct H as [H|[H|(full & e & Hf & Hs)]]; [discriminate H | rewrite H; reflexivity|].
  rewrite Hf, Hs. reflexivity.
Qed.

End SettleFacts.

(** X10.  After one lookup of a string the table has settled: whatever
    is looked up next leaves it exactly as the first lookup left it.
    The first lookup leaves the table as it got it, or sets the column
    [Standardized_Name] to the normalized names of the column
    [Full Name]. *)
Theorem lookup_settles :
  forall (p : string) (q : json) (df : processing_component.DataFrame),
    let df1 := snd (processing_component.get_payee_shortform (JStr p) df) in
    snd (processing_component.get_payee_shortform q df1) = df1
    /\ (df1 = df
        \/ exists full names,
             Py.assoc "Full Name" df = Some full
             /\ processing_component.standardize_column full = inl names
             /\ Py.assoc "Standardized_Name" df1
                = Some (map processing_component.CStr names)).
Proof.
  intros p q df df1. subst df1.
  destruct (get_payee_shortform_column p df)
    as [[Hsame Hwhy] | (full & names & He & Hfull & Hs & Hset)].
  - rewrite Hsame. split; [|left; reflexivity].
    apply get_payee_shortform_failed. exact Hwhy.
  - rewrite Hset. split.
    + apply (get_payee_shortform_settled q df full names Hfull Hs).
    + right. exists full, names. repeat split; try assumption.
      apply assoc_set_column_eq.
Qed.

(** ** The length of a delivery name *)

Section LengthFacts.
Import PyStr Py teams_component Names.

Lemma lstrip_length (s : string) : (String.length (lstrip s) <= String.length s)%nat.
Proof.
  induction s as [|c s IH]; cbn; [lia|]. destruct (is_space c); cbn; lia.
Qed.

Lemma rstrip_length (s : string) : (String.length (rstrip s) <= String.length s)%nat.
Proof.
  induction s as [|c s IH]; cbn; [lia|].
  destruct (rstrip s) as [|d r]; [destruct (is_space c)|]; cbn in *; lia.
Qed.

Lemma strip_leading_dots_length (s : string) :
  (String.length (strip_leading_dots s) <= String.length s)%nat.
Proof.
  induction s as [|c s IH]; cbn; [lia|]. destruct (Ascii.eqb c "."); cbn; lia.
Qed.

Lemma cleaned_length (filename : string) :
  (String.length (cleaned filename) <= String.length filename)%nat.
Proof.
  unfold cleaned, strip.
  pose proof (strip_leading_dots_length
                (rstrip (lstrip (sub_class invalid_char "_" filename)))).
  pose proof (rstrip_length (lstrip (sub_class invalid_char "_" filename))).
  pose proof (lstrip_length (sub_class invalid_char "_" filename)).
  pose proof (sub_class_length invalid_char "_" filename).
  lia.
Qed.

(** [splitext] cuts its argument in two. *)
Lemma splitext_append (p : string) : fst (splitext p) ++ snd (splitext p) = p.
Proof.
  unfold splitext.
  destruct (rfind "/" p <? rfind "." p)%Z; [destruct (all_chars _ _)|]; cbn [fst snd].
  - apply append_nil_r.
  - apply take_drop.
  - apply append_nil_r.
Qed.

Lemma slice_to_length (k : Z) (s : string) :
  len (slice_to k s)
  = if (0 <=? k)%Z then Z.min k (len s) else Z.max 0 (len s + k).
Proof.
  unfold slice_to, len. destruct (0 <=? k)%Z eqn:Hk; rewrite take_length.
  - apply Z.leb_le in Hk. lia.
  - apply Z.leb_gt in Hk. lia.
Qed.

Lemma len_append (a b : string) : len (a ++ b) = (len a + len b)%Z.
Proof. unfold len. rewrite length_append. lia. Qed.

Lemma sanitize_filename_cut (filename : string) :
  sanitize_filename filename
  = if (240 <? len (cleaned filename))%Z
    then slice_to (240 - len (extension filename)) (fst (splitext (cleaned filename)))
         ++ extension filename
    else cleaned filename.
Proof.
  unfold sanitize_filename, extension. fold (cleaned filename).
  destruct (240 <? len (cleaned filename))%Z; [|reflexivity].
  destruct (splitext (cleaned filename)); reflexivity.
Qed.

End LengthFacts.

(** X11.  A delivery name is never longer than the name it was made
    from; it ends with the extension of the cleaned name; and it is at
    most 240 characters long unless that extension alone is longer than
    240 characters -- exactly 240 when the cleaned name was longer. *)
Theorem delivery_name_length :
  forall filename : string,
    (PyStr.len (teams_component.sanitize_filename filename) <= PyStr.len filename)%Z
    /\ PyStr.endswith (teams_component.sanitize_filename filename)
         (Names.extension filename) = true
    /\ ((PyStr.len (teams_component.sanitize_filename filename) <= 240)%Z
        \/ (240 < PyStr.len (Names.extension filename))%Z)
    /\ ((PyStr.len (Names.cleaned filename) <= 240)%Z
        \/ (240 < PyStr.len (Names.extension filename))%Z
        \/ PyStr.len (teams_component.sanitize_filename filename) = 240%Z).
Proof.
  intros filename.
  pose proof (cleaned_length filename) as Hc.
  pose proof (splitext_append (Names.cleaned filename)) as Hsplit.
  fold (Names.extension filename) in Hsplit.
  assert (Hlen : (PyStr.len (fst (teams_component.splitext (Names.cleaned filename)))
                  + PyStr.len (Names.extension filename)
                  = PyStr.len (Names.cleaned filename))%Z)
    by (rewrite <- len_append, Hsplit; reflexivity).
  rewrite sanitize_filename_cut.
  destruct (240 <? PyStr.len (Names.cleaned filename))%Z eqn:Hlong.
  - apply Z.ltb_lt in Hlong.
    rewrite endswith_append, len_append, slice_to_length.
    unfold PyStr.len in *.
    destruct (0 <=? _)%Z eqn:Hk;
      [apply Z.leb_le in Hk | apply Z.leb_gt in Hk]; repeat split; lia.
  - apply Z.ltb_ge in Hlong. rewrite <- Hsplit at 2. rewrite endswith_append.
    unfold PyStr.len in *. repeat split; lia.
Qed.

(** ** What a delivery reports *)

Section HonestFacts.
Import PyStr Py teams_component Delivery.

Context {W : Type}.
Variable handler : request -> W -> answer * W.

(** An honest run ends in failure with a text, or in success with an
    acknowledged write as its last call. *)
Lemma honest_run (p : prog outcome) :
  honest p ->
  forall w : W,
    let result := run handler p w in
    (fst (fst result) = (true, None)
     /\ exists pre r a,
          snd (fst result) = (pre ++ [(r, a)])%list /\ confirms r a = true)
    \/ (exists msg, fst (fst result) = (false, Some msg) /\ msg <> EmptyString).
Proof.
  induction p as [[[] [msg|]]|r k IH]; cbn [honest]; intros H w; try contradiction.
  - right. exists msg. split; [reflexivity | exact H].
  - cbv zeta. cbn [run].
    destruct (handler r w) as [a w1].
    destruct (H a) as [[Hk Hc]|Hh].
    + rewrite Hk. cbn. left. split; [reflexivity|].
      exists [], r, a. split; [reflexivity | exact Hc].
    + specialize (IH a Hh w1). cbv zeta in IH.
      destruct (run handler (k a) w1) as [[res t] w2]. cbn [fst snd] in *.
      destruct IH as [[Hres (pre & r' & a' & Ht & Hc)]|Hf]; [left|right; exact Hf].
      split; [exact Hres|].
      exists ((r, a) :: pre), r', a'. rewrite Ht. split; [reflexivity | exact Hc].
Qed.

End HonestFacts.

Section HonestUpload.
Import PyStr Py teams_component Delivery.

Lemma honest_chunks (url : string) (data : bytes) :
  forall (n up : nat),
    (List.length data - up <= n)%nat -> honest (upload_chunks url data up).
Proof.
  induction n as [|n IH]; intros up Hn; rewrite upload_chunks_eq;
    destruct (Nat.ltb_spec up (List.length data)) as [Hlt|Hge];
    try lia; try (cbn; discriminate).
  cbv zeta. pose proof (chunk_length_eq data up) as Hlen.
  pose proof chunk_size_pos as Hpos.
  unfold call. cbn [honest]. intros [resp|msg]; [|right; cbn; discriminate].
  unfold confirms. cbn [carries_data andb].
  destruct (status_in resp [200; 201; 202]%Z); cbn [negb];
    [|right; cbn; discriminate].
  destruct (status_in resp [200; 201]%Z); [left; split; reflexivity|].
  right. apply IH. lia.
Qed.

Lemma honest_transfer (tok drive folder name : string) (data : bytes)
  (existing : option string) :
  honest (transfer tok drive folder name data existing).
Proof.
  unfold transfer.
  destruct (Z.of_nat (List.length data) <? small_limit)%Z.
  - destruct (truthy_opt existing); unfold call; cbn [honest];
      intros [resp|msg]; try (right; cbn; discriminate);
      unfold confirms; cbn [carries_data andb];
      (destruct (status_in resp [200; 201]%Z);
       [left; split; reflexivity | right; cbn; discriminate]).
  - unfold call, with_json. cbn [honest].
    intros [resp|msg]; right; [|cbn; discriminate].
    destruct (negb (status_code resp =? 200)%Z); [cbn; discriminate|].
    destruct (payload resp) as [e|u i|v|u]; try (cbn; discriminate).
    cbn [upload_url_of].
    destruct (negb (truthy_opt u)); [cbn; discriminate|].
    apply (honest_chunks _ data (List.length data)). lia.
Qed.

Lemma honest_upload (tok team path : string) (data : bytes) (filename folder : string) :
  honest (upload_with_sharepoint_api tok team path data filename folder).
Proof.
  unfold upload_with_sharepoint_api, call, with_json. cbn [honest].
  intros [r1|m1]; right; [|cbn; discriminate].
  destruct (negb (status_code r1 =? 200)%Z); [cbn; discriminate|].
  destruct (payload r1) as [e|u i|v|u]; try (cbn; discriminate).
  match goal with
  | |- honest (if ?b then _ else _) => destruct b
  end; [cbn; discriminate|].
  cbn [honest]. intros [r2|m2]; right; [|cbn; discriminate].
  destruct (negb (status_code r2 =? 200)%Z); [cbn; discriminate|].
  destruct (payload r2) as [e|u2 i2|v|u2]; cbn [value_of]; try (cbn; discriminate).
  destruct v as [[|drive ds]|]; try (cbn; discriminate).
  cbn [honest]. intros [r3|m3]; right; [|cbn; discriminate].
  destruct (status_code r3 =? 200)%Z; [|apply honest_transfer].
  destruct (payload r3) as [e|u3 i3|v3|u3]; try (cbn; discriminate);
    apply honest_transfer.
Qed.

End HonestUpload.

(** X12.  Whatever the store answers, a call of
    [upload_with_sharepoint_api] reports success without an error only
    when its last request carried bytes of the payload (the file content
    or a chunk) and was answered with status 200 or 201; in every other
    case it reports failure together with an error text that is not
    empty. *)
Theorem honest_delivery :
  forall (W : Type) (handler : teams_component.request -> W -> teams_component.answer * W)
         (tok team path : string) (data : bytes) (filename folder : string) (w : W),
    let result :=
      teams_component.run handler
        (teams_component.upload_with_sharepoint_api tok team path data filename folder) w in
    (fst (fst result) = (true, None)
     /\ exists pre r a,
          snd (fst result) = (pre ++ [(r, a)])%list
          /\ Delivery.confirms r a = true)
    \/ (exists msg, fst (fst result) = (false, Some msg) /\ msg <> EmptyString).
Proof.
  intros W handler tok team path data filename folder w.
  apply honest_run. apply honest_upload.
Qed.

Section BatchRecords.
Import PyStr Py teams_component Delivery Batch.

Context {W : Type}.
Variable handler : request -> W -> answer * W.

Lemma upload_consistent (tok team path : string) (data : bytes)
  (filename folder : string) (w : W) :
  let out := fst (fst (run handler
                         (upload_with_sharepoint_api tok team path data filename folder) w)) in
  consistent (fst out) (snd out).
Proof.
  cbv zeta.
  destruct (honest_run handler _ (honest_upload tok team path data filename folder) w)
    as [[-> _]|(msg & -> & Hmsg)].
  - left. split; reflexivity.
  - right. split; [reflexivity|]. exists msg. split; [reflexivity | exact Hmsg].
Qed.

Lemma upload_loop_records (token team : string)
  (files : list processing_component.processed) :
  forall (acc : list upload_result) (w : W),
  exists rs : list upload_result,
    fst (fst (run handler (upload_loop token team files acc) w)) = (acc ++ rs)%list
    /\ Forall2 (record_of token team) files rs.
Proof.
  induction files as [|f files IH]; intros acc w; cbn [upload_loop].
  - exists []. cbn. rewrite app_nil_r. split; [reflexivity | constructor].
  - pose proof (fun path folder =>
                  upload_consistent token team path (processing_component.pdf_data f)
                    (processing_component.generated_filename f) folder w) as Hc.
    destruct (determine_target_folder (processing_component.generated_filename f) team token)
      as [[fid fpath] fname] eqn:Hfolder.
    specialize (Hc fpath fid). cbv zeta in Hc.
    rewrite run_bind. unfold upload_file.
    destruct (run handler
                (upload_with_sharepoint_api token team fpath
                   (processing_component.pdf_data f)
                   (processing_component.generated_filename f) fid) w)
      as [[[ok err] t1] w1].
    cbn [fst snd] in Hc.
    match goal with
    | |- context [run handler (upload_loop token team files (acc ++ [?r])%list) w1] =>
        destruct (IH (acc ++ [r])%list w1) as (rs & Hrs & Hall);
        destruct (run handler (upload_loop token team files (acc ++ [r])%list) w1)
          as [[res t2] w2];
        exists (r :: rs)
    end.
    cbn [fst snd] in *. rewrite Hrs, <- app_assoc. split; [reflexivity|].
    constructor; [|exact Hall].
    unfold record_of. cbn [res_filename res_original_filename res_folder_id
                             target_folder success error].
    rewrite Hfolder. cbn [fst snd]. repeat split. exact Hc.
Qed.

End BatchRecords.

(** X13.  With a token at hand, [upload_files_to_teams] returns one
    result record per file, in input order, and each record holds the
    generated name of its file, the name of the source file, the folder
    that [determine_target_folder] gives for the generated name, and an
    outcome that is success without error or failure with an error
    text. *)
Theorem delivery_records :
  forall (W : Type) (handler : teams_component.request -> W -> teams_component.answer * W)
         (w : W) (files : list processing_component.processed)
         (team : string) (token : option string) (expires_at : Z),
    exists results trace w',
      teams_component.run handler
        (teams_component.upload_files_to_teams files team (token, expires_at, None)) w
      = ((Some results, None, token, expires_at), trace, w')
      /\ Forall2 (Batch.record_of (teams_component.or_none token) team) files results.
Proof.
  intros W handler w files team token expires_at.
  unfold teams_component.upload_files_to_teams. cbn [Py.truthy_opt].
  rewrite run_bind.
  destruct (upload_loop_records handler (teams_component.or_none token) team files [] w)
    as (rs & Hrs & Hall).
  destruct (teams_component.run handler
              (teams_component.upload_loop (teams_component.or_none token) team files []) w)
    as [[results t1] w1].
  cbn [fst snd app] in *. subst results.
  exists rs, (t1 ++ [])%list, w1. split; [reflexivity | exact Hall].
Qed.

(** ** A session that is never completed *)

Section UnfinishedFacts.
Import PyStr Py teams_component Delivery.

Context {W : Type}.
Variable handler : request -> W -> answer * W.
Hypothesis accepts : forall (r : request) (w : W),
  is_chunk r = true -> accepted (fst (handler r w)) = true.

Lemma accepted_status (a : answer) :
  accepted a = true ->
  exists resp, a = inl resp
               /\ status_in resp [200; 201; 202]%Z = true
               /\ status_in resp [200; 201]%Z = false.
Proof.
  destruct a as [resp|msg]; [|discriminate]. cbn. intros H.
  exists resp. apply Z.eqb_eq in H. unfold status_in. rewrite H.
  repeat split.
Qed.

Lemma chunks_all_accepted (url : string) (data : bytes) :
  forall (n up : nat) (w : W),
    (List.length data - up <= n)%nat ->
    fst (fst (run handler (upload_chunks url data up) w))
    = (false, Some "Upload completed but unexpected response received")
    /\ map fst (snd (fst (run handler (upload_chunks url data up) w)))
       = chunk_plan url data up.
Proof.
  induction n as [|n IH]; intros up w Hn; rewrite chunk_plan_eq, upload_chunks_eq;
    destruct (Nat.ltb_spec up (List.length data)) as [Hlt|Hge];
    try lia; try (split; reflexivity).
  cbv zeta. pose proof (chunk_length_eq data up) as Hlen.
  pose proof chunk_size_pos as Hpos.
  set (c := firstn chunk_size (skipn up data)) in *.
  set (req := PutChunk url _ _ _ _ c).
  pose proof (accepts req w eq_refl) as Ha.
  unfold call. cbn [run].
  destruct (handler req w) as [a w1]. cbn [fst] in Ha.
  destruct (accepted_status a Ha) as (resp & -> & H1 & H2).
  rewrite H1, H2. cbn [negb].
  destruct (IH (up + List.length c)%nat w1) as [Hres Hplan]; [lia|].
  destruct (run handler (upload_chunks url data (up + List.length c)) w1)
    as [[res t] w2].
  cbn [fst snd map] in *. rewrite Hres, Hplan. split; reflexivity.
Qed.

End UnfinishedFacts.

(** X14.  When the store answers every chunk, the last one included,
    with status 202, the chunk loop sends the whole plan -- chunks that
    together are the payload -- and then reports failure with the text
    [Upload completed but unexpected response received]. *)
Theorem unfinished_session :
  forall (W : Type) (handler : teams_component.request -> W -> teams_component.answer * W)
         (url : string) (data : bytes) (w : W),
    (forall (r : teams_component.request) (w' : W),
        teams_component.is_chunk r = true ->
        teams_component.accepted (fst (handler r w')) = true) ->
    let result := teams_component.run handler (teams_component.upload_chunks url data 0) w in
    fst (fst result) = (false, Some "Upload completed but unexpected response received")
    /\ map fst (snd (fst result)) = teams_component.chunk_plan url data 0
    /\ concat (map teams_component.data_of (map fst (snd (fst result)))) = data.
Proof.
  intros W handler url data w Hacc result. subst result.
  destruct (chunks_all_accepted handler Hacc url data (List.length data) 0 w) as [H1 H2];
    [lia|].
  split; [exact H1|]. split; [exact H2|].
  rewrite H2. apply (chunk_plan_covers url data (List.length data) 0). lia.
Qed.

(** The theorem on a payload of two bytes and a store that answers 202
    to everything. *)
Lemma unfinished_session_witness :
  fst (fst (teams_component.run Delivery.always_202
              (teams_component.upload_chunks "u" Demo.two_bytes 0) 0%nat))
  = (false, Some "Upload completed but unexpected response received").
Proof.
  refine (proj1 (unfinished_session nat Delivery.always_202 "u" Demo.two_bytes 0%nat _)).
  intros r w' _. reflexivity.
Defined.

(** ** Tokens *)

Section TokenFacts.
Import PyStr Py teams_component teams_token.

Variable P : provider.
Variable now : Z.

Lemma stale_iff (tok : option string) (exp : Z) :
  negb (truthy_opt tok) || (exp <? now + 300)%Z = negb (still_valid now tok exp).
Proof.
  unfold still_valid. rewrite negb_andb. f_equal.
  rewrite Z.leb_antisym. rewrite negb_involutive. reflexivity.
Qed.

(** An error of the token step is a text that is not empty. *)
Lemma ensure_valid_token_error (cid sec ten : string) (tok : option string) (exp : Z)
  (n n' : nat) (t : option string) (e : Z) (app : option msal_app) (msg : string) :
  ensure_valid_token P now cid sec ten tok exp n = (inl (t, e, app, Some msg), n') ->
  msg <> EmptyString.
Proof.
  unfold ensure_valid_token.
  destruct (negb (truthy_opt tok) || (exp <? now + 300)%Z); [|discriminate].
  destruct (P _ n) as [res|ex]; [|discriminate].
  destruct (access_token res); [discriminate|].
  destruct (error res); [|discriminate].
  intros H. injection H as _ _ _ <- _. discriminate.
Qed.

End TokenFacts.

(** X15.  [ensure_valid_token] contacts the identity provider exactly
    when the current token is missing, empty, or expires within 300
    seconds, and then exactly once.  Without contact it returns the
    current token and expiry.  After a contact it returns: the
    provider's exception; or the new token with expiry [now] plus the
    lifetime given (3600 when none is given) and no error; or, when the
    answer has an error and no token, no token, expiry 0 and an error
    text; or, when the answer has neither, the current token and expiry
    again, without error, although they were not good any more. *)
Theorem token_refresh :
  forall (P : teams_token.provider) (now : Z) (cid sec ten : string)
         (tok : option string) (exp : Z) (n : nat),
    let r := teams_token.ensure_valid_token P now cid sec ten tok exp n in
    (snd r = n <-> teams_token.still_valid now tok exp = true)
    /\ (snd r = S n <-> teams_token.still_valid now tok exp = false)
    /\ (teams_token.still_valid now tok exp = true ->
        fst r = inl (tok, exp, None, None))
    /\ match fst r with
       | inr e => exists app, P app n = inr e
       | inl (t, e, Some app, err) =>
           err = None /\ snd r = S n
           /\ exists res new,
                P app n = inl res /\ teams_token.access_token res = Some new
                /\ t = Some new
                /\ e = (now + match teams_token.expires_in res with
                              | Some d => d
                              | None => 3600
                              end)%Z
       | inl (t, e, None, Some msg) =>
           t = None /\ e = 0%Z /\ msg <> EmptyString /\ snd r = S n
           /\ exists app res,
                P app n = inl res /\ teams_token.access_token res = None
                /\ teams_token.error res <> None
       | inl (t, e, None, None) =>
           t = tok /\ e = exp
           /\ (snd r = S n ->
               exists app res,
                 P app n = inl res /\ teams_token.access_token res = None
                 /\ teams_token.error res = None)
       end.
Proof.
  intros P now cid sec ten tok exp n r. subst r.
  unfold teams_token.ensure_valid_token. rewrite stale_iff.
  destruct (teams_token.still_valid now tok exp) eqn:Hv; cbn [negb].
  - cbn [fst snd]. repeat split; try reflexivity; try discriminate.
    + intros H. exfalso. lia.
    + intros H. exfalso. lia.
  - set (app := teams_token.ConfidentialClientApplication cid
                  ("https://login.microsoftonline.com/" ++ ten) sec).
    assert (Hn : (S n = n <-> false = true) /\ (S n = S n <-> false = false))
      by (split; split; intros H; try reflexivity; try discriminate H; lia).
    destruct (P app n) as [res|e] eqn:HP.
    + destruct (teams_token.access_token res) as [new|] eqn:Hacc.
      * cbn [fst snd]. destruct Hn as [Hn1 Hn2].
        split; [exact Hn1|]. split; [exact Hn2|]. split; [discriminate|].
        split; [reflexivity|]. split; [reflexivity|].
        exists res, new. repeat split; assumption.
      * destruct (teams_token.error res) as [err|] eqn:Herr; cbn [fst snd];
          destruct Hn as [Hn1 Hn2].
        -- split; [exact Hn1|]. split; [exact Hn2|]. split; [discriminate|].
           repeat split; try discriminate.
           exists app, res. rewrite Herr. repeat split; try assumption. discriminate.
        -- split; [exact Hn1|]. split; [exact Hn2|]. split; [discriminate|].
           repeat split. intros _. exists app, res. repeat split; assumption.
    + cbn [fst snd]. destruct Hn as [Hn1 Hn2].
      split; [exact Hn1|]. split; [exact Hn2|]. split; [discriminate|].
      exists app. exact HP.
Qed.

(** The theorem on a token that expires in four minutes and a provider
    that issues a new one. *)
Lemma token_refresh_witness :
  teams_token.ensure_valid_token teams_token.issuing 1000 "id" "secret" "tenant"
    (Some "old") 1240 0
  = (inl (Some "fresh", 4600%Z,
          Some (teams_token.ConfidentialClientApplication "id"
                  "https://login.microsoftonline.com/tenant" "secret"), None), 1%nat)
  /\ fst (teams_token.ensure_valid_token teams_token.issuing 1000 "id" "secret" "tenant"
            (Some "old") 1300 0)
     = inl (Some "old", 1300%Z, None, None).
Proof.
  split; [reflexivity|].
  apply (token_refresh teams_token.issuing 1000 "id" "secret" "tenant" (Some "old") 1300 0).
  reflexivity.
Defined.

(** X16.  [authenticate_teams] never raises and contacts the identity
    provider exactly once.  It returns a token (with the application
    object and no error) exactly when the provider's answer has an
    access token; it returns an error text -- with no token and expiry
    0 -- when the provider raises or answers with an error and no
    token; and when the answer has neither, it returns neither a token
    nor an error. *)
Theorem authentication_outcome :
  forall (P : teams_token.provider) (now : Z) (cid sec ten : string) (n : nat),
    let app := teams_token.ConfidentialClientApplication cid
                 ("https://login.microsoftonline.com/" ++ ten) sec in
    let r := teams_token.authenticate_teams P now cid sec ten n in
    snd r = S n
    /\ match P app n with
       | inr e => fst r = (None, 0%Z, None, Some ("Authentication error: " ++ exn_str e))
       | inl res =>
           match teams_token.access_token res, teams_token.error res with
           | Some new, _ =>
               fst r = (Some new,
                        (now + match teams_token.expires_in res with
                               | Some d => d
                               | None => 3600
                               end)%Z,
                        Some app, None)
           | None, Some err =>
               exists msg, fst r = (None, 0%Z, None, Some msg)
                           /\ PyStr.startswith msg "Authentication error: " = true
           | None, None => fst r = (None, 0%Z, None, None)
           end
       end.
Proof.
  intros P now cid sec ten n app r. subst r.
  unfold teams_token.authenticate_teams, teams_token.ensure_valid_token.
  cbn [Py.truthy_opt negb orb]. fold app.
  destruct (P app n) as [res|e]; [|split; reflexivity].
  destruct (teams_token.access_token res) as [new|].
  - cbn. split; reflexivity.
  - destruct (teams_token.error res) as [err|]; cbn [Py.truthy_opt].
    + split; [reflexivity|]. eexists. split; [reflexivity|].
      unfold PyStr.startswith. apply prefix_append.
    + split; reflexivity.
Qed.

Section BearerFacts.
Import PyStr Py teams_component teams_token.

Lemma bears_bind {A B} (tok : string) (p : prog A) (f : A -> prog B) :
  bears tok p -> (forall a, bears tok (f a)) -> bears tok (bind p f).
Proof.
  induction p as [a|r k IH]; cbn; intros Hp Hf; [apply Hf|].
  destruct Hp as [Hr Hk]. split; [exact Hr|]. intros a. apply IH; [apply Hk | exact Hf].
Qed.

Lemma bears_run {A W} (handler : request -> W -> answer * W) (tok : string) (p : prog A) :
  bears tok p ->
  forall w : W,
    Forall (fun ra : request * answer =>
              token_of (fst ra) = None \/ token_of (fst ra) = Some tok)
      (snd (fst (run handler p w))).
Proof.
  induction p as [a|r k IH]; cbn [bears run]; intros H w; [constructor|].
  destruct H as [Hr Hk]. destruct (handler r w) as [a w1].
  specialize (IH a (Hk a) w1).
  destruct (run handler (k a) w1) as [[res t] w2]. cbn [fst snd] in *.
  constructor; [exact Hr | exact IH].
Qed.

Lemma bears_chunks (tok url : string) (data : bytes) :
  forall (n up : nat),
    (List.length data - up <= n)%nat -> bears tok (upload_chunks url data up).
Proof.
  induction n as [|n IH]; intros up Hn; rewrite upload_chunks_eq;
    destruct (Nat.ltb_spec up (List.length data)) as [Hlt|Hge];
    try lia; try exact I.
  cbv zeta. pose proof (chunk_length_eq data up) as Hlen.
  pose proof chunk_size_pos as Hpos.
  unfold call. cbn [bears token_of]. split; [left; reflexivity|].
  intros [resp|msg]; [|exact I].
  destruct (negb (status_in resp [200; 201; 202]%Z)); [exact I|].
  destruct (status_in resp [200; 201]%Z); [exact I|].
  apply IH. lia.
Qed.

Lemma bears_transfer (tok drive folder name : string) (data : bytes)
  (existing : option string) :
  bears tok (transfer tok drive folder name data existing).
Proof.
  unfold transfer.
  destruct (Z.of_nat (List.length data) <? small_limit)%Z.
  - destruct (truthy_opt existing); unfold call; cbn [bears token_of];
      (split; [right; reflexivity|]); intros [resp|msg]; try exact I;
      destruct (status_in resp [200; 201]%Z); exact I.
  - unfold call, with_json.
    destruct (truthy_opt existing); cbn [bears token_of];
      (split; [right; reflexivity|]); intros [resp|msg]; try exact I;
      (destruct (negb (status_code resp =? 200)%Z); [exact I|]);
      (destruct (payload resp) as [e|u i|v|u]; try exact I);
      cbn [upload_url_of];
      (destruct (negb (truthy_opt u)); [exact I|]);
      apply (bears_chunks tok _ data (List.length data)); lia.
Qed.

Lemma bears_upload (tok team path : string) (data : bytes) (filename folder : string) :
  bears tok (upload_with_sharepoint_api tok team path data filename folder).
Proof.
  unfold upload_with_sharepoint_api, call, with_json. cbn [bears token_of].
  split; [right; reflexivity|]. intros [r1|m1]; [|exact I].
  destruct (negb (status_code r1 =? 200)%Z); [exact I|].
  destruct (payload r1) as [e|u i|v|u]; try exact I.
  match goal with
  | |- bears tok (if ?b then _ else _) => destruct b
  end; [exact I|].
  cbn [bears token_of]. split; [right; reflexivity|]. intros [r2|m2]; [|exact I].
  destruct (negb (status_code r2 =? 200)%Z); [exact I|].
  destruct (payload r2) as [e|u2 i2|v|u2]; cbn [value_of]; try exact I.
  destruct v as [[|drive ds]|]; try exact I.
  cbn [bears token_of]. split; [right; reflexivity|]. intros [r3|m3]; [|exact I].
  destruct (status_code r3 =? 200)%Z; [|apply bears_transfer].
  destruct (payload r3) as [e|u3 i3|v3|u3]; try exact I; apply bears_transfer.
Qed.

Lemma bears_loop (tok team : string) (files : list processing_component.processed) :
  forall acc : list upload_result, bears tok (upload_loop tok team files acc).
Proof.
  induction files as [|f files IH]; intros acc; cbn [upload_loop]; [exact I|].
  destruct (determine_target_folder (processing_component.generated_filename f) team tok)
    as [[fid fpath] fname].
  apply bears_bind; [apply bears_upload|].
  intros [ok err]. apply IH.
Qed.

Lemma bears_batch (files : list processing_component.processed) (team : string)
  (token : option string) (exp : Z) (err : option string) :
  bears (or_none token) (teams_component.upload_files_to_teams files team (token, exp, err)).
Proof.
  unfold teams_component.upload_files_to_teams.
  destruct (truthy_opt err); [exact I|].
  apply bears_bind; [apply bears_loop|]. intros rs. exact I.
Qed.

End BearerFacts.

(** X17.  The token of a batch.  When the token step of
    [upload_files_to_teams] raises, the call raises and nothing is sent.
    When it returns an error, the call returns that error with no
    result list and makes no request at all.  Otherwise every request
    of the batch that has an [Authorization] header carries the token
    the step returned ([None] printed as a word when there is none),
    and the call returns that token and its expiry. *)
Theorem batch_token :
  forall (P : teams_token.provider) (now : Z)
         (files : list processing_component.processed)
         (cid sec ten team : string) (tok : option string) (exp : Z) (n : nat)
         (W : Type) (handler : teams_component.request -> W -> teams_component.answer * W)
         (w : W),
    match teams_token.ensure_valid_token P now cid sec ten tok exp n with
    | (inr e, n') =>
        teams_token.upload_files_to_teams P now files cid sec ten team tok exp n
        = (inr e, n')
    | (inl (token, expires_at, _, err), n') =>
        exists p,
          teams_token.upload_files_to_teams P now files cid sec ten team tok exp n
          = (inl p, n')
          /\ match err with
             | Some msg =>
                 teams_component.run handler p w = ((None, Some msg, token, expires_at), [], w)
             | None =>
                 Forall (fun ra : teams_component.request * teams_component.answer =>
                           teams_token.token_of (fst ra) = None
                           \/ teams_token.token_of (fst ra)
                              = Some (teams_component.or_none token))
                   (snd (fst (teams_component.run handler p w)))
                 /\ exists results,
                      fst (fst (teams_component.run handler p w))
                      = (Some results, None, token, expires_at)
             end
    end.
Proof.
  intros P now files cid sec ten team tok exp n W handler w.
  unfold teams_token.upload_files_to_teams.
  destruct (teams_token.ensure_valid_token P now cid sec ten tok exp n)
    as [[[[[token expires_at] app] err]|e] n'] eqn:Hstep; [|reflexivity].
  eexists. split; [reflexivity|].
  destruct err as [msg|].
  - pose proof (ensure_valid_token_error P now cid sec ten tok exp n n' token expires_at
                  app msg Hstep) as Hmsg.
    unfold teams_component.upload_files_to_teams. cbn [Py.truthy_opt].
    apply String.eqb_neq in Hmsg. rewrite Hmsg. reflexivity.
  - split; [apply bears_run, bears_batch|].
    unfold teams_component.upload_files_to_teams. cbn [Py.truthy_opt].
    rewrite run_bind.
    destruct (teams_component.run handler
                (teams_component.upload_loop (teams_component.or_none token) team files []) w)
      as [[results t1] w1].
    cbn. exists results. reflexivity.
Qed.

(** ** Sorting by key *)

Section SortFacts.
Import PyStr Py PyObj.

Lemma leb_trans (a b c : string) :
  (a <=? b)%string = true -> (b <=? c)%string = true -> (a <=? c)%string = true.
Proof.
  unfold String.leb. revert b c.
  induction a as [|x a IH]; intros [|y b] [|z c]; cbn; try reflexivity; try discriminate.
  unfold Ascii.compare.
  destruct (N.compare_spec (N_of_ascii x) (N_of_ascii y)) as [Hxy|Hxy|Hxy];
    destruct (N.compare_spec (N_of_ascii y) (N_of_ascii z)) as [Hyz|Hyz|Hyz];
    destruct (N.compare_spec (N_of_ascii x) (N_of_ascii z)) as [Hxz|Hxz|Hxz];
    try reflexivity; try discriminate; try lia.
  apply IH.
Qed.

Lemma leb_false_flip (a b : string) :
  (a <=? b)%string = false -> (b <=? a)%string = true.
Proof.
  intros H. destruct (String.leb_total a b) as [H'|H']; [congruence | exact H'].
Qed.

Context {A : Type}.

Lemma insert_perm (kx : string * A) (l : list (string * A)) :
  Permutation (kx :: l) (insert kx l).
Proof.
  induction l as [|ky l IH]; cbn; [reflexivity|].
  destruct (fst kx <=? fst ky)%string; [reflexivity|].
  rewrite perm_swap. constructor. exact IH.
Qed.

Lemma sort_pairs_perm (l : list (string * A)) : Permutation l (sort_pairs l).
Proof.
  induction l as [|kx l IH]; cbn; [constructor|].
  rewrite <- insert_perm. constructor. exact IH.
Qed.

Lemma insert_sorted (kx : string * A) (l : list (string * A)) :
  StronglySorted key_le l -> StronglySorted key_le (insert kx l).
Proof.
  induction l as [|ky l IH]; intros Hs; cbn.
  - constructor; constructor.
  - inversion Hs as [|? ? Hl Hall]; subst.
    destruct (fst kx <=? fst ky)%string eqn:Hle.
    + constructor; [exact Hs|]. constructor; [exact Hle|].
      eapply Forall_impl; [|exact Hall]. intros kz Hz. unfold key_le in *.
      eapply leb_trans; eassumption.
    + constructor; [apply IH; exact Hl|].
      assert (Hin : Forall (key_le ky) (kx :: l))
        by (constructor; [apply leb_false_flip; exact Hle | exact Hall]).
      rewrite Forall_forall in *. intros kz Hz. apply Hin.
      eapply Permutation_in; [symmetry; apply insert_perm | exact Hz].
Qed.

Lemma sort_pairs_sorted (l : list (string * A)) : StronglySorted key_le (sort_pairs l).
Proof.
  induction l as [|kx l IH]; cbn; [constructor | apply insert_sorted; exact IH].
Qed.

Lemma map_raise_spec {B C : Type} (f : B -> C + exn) (l : list B) (ys : list C) :
  map_raise f l = inl ys -> Forall2 (fun x y => f x = inl y) l ys.
Proof.
  revert ys. induction l as [|x l IH]; cbn; intros ys H.
  - injection H as <-. constructor.
  - destruct (f x) as [y|e] eqn:Hx; [|discriminate].
    destruct (map_raise f l) as [zs|e]; [|discriminate].
    injection H as <-. constructor; [exact Hx | apply IH; reflexivity].
Qed.

Lemma filter_raise_spec {B : Type} (p : B -> bool + exn) (keep : bool) (l ys : list B) :
  filter_raise p keep l = inl ys ->
  Forall (fun x => p x = inl keep) ys
  /\ forall zs, filter_raise p (negb keep) l = inl zs -> Permutation l (ys ++ zs).
Proof.
  revert ys. induction l as [|x l IH]; cbn; intros ys H.
  - injection H as <-. split; [constructor|]. intros zs Hz. injection Hz as <-. constructor.
  - destruct (p x) as [b|e] eqn:Hx; [|discriminate].
    destruct (filter_raise p keep l) as [ys'|e]; [|discriminate].
    destruct (IH ys' eq_refl) as [Hall Hperm].
    injection H as <-. split.
    + destruct (Bool.eqb b keep) eqn:Hb; [|exact Hall].
      apply Bool.eqb_prop in Hb. subst b. constructor; assumption.
    + intros zs Hz.
      destruct (filter_raise p (negb keep) l) as [zs'|e]; [|discriminate].
      injection Hz as <-. specialize (Hperm zs' eq_refl).
      destruct b, keep; cbn.
      * constructor. exact Hperm.
      * rewrite <- Permutation_middle. constructor. exact Hperm.
      * rewrite <- Permutation_middle. constructor. exact Hperm.
      * constructor. exact Hperm.
Qed.

End SortFacts.

Section SortByFacts.
Import PyStr Py PyObj.

Context {A : Type}.
Variable key : A -> string + exn.

Lemma keyed_pairs (l : list A) (pairs : list (string * A)) :
  map_raise (fun x => and_then (key x) (fun k => inl (k, x))) l = inl pairs ->
  map snd pairs = l /\ Forall (fun p => key (snd p) = inl (fst p)) pairs.
Proof.
  intros H. apply map_raise_spec in H.
  induction H as [|x p l pairs Hxp _ [IH1 IH2]]; [split; constructor|].
  unfold and_then in Hxp. destruct (key x) as [k|e] eqn:Hk; [|discriminate].
  injection Hxp as <-. cbn. split; [f_equal; exact IH1|].
  constructor; [exact Hk | exact IH2].
Qed.

Lemma sorted_map_snd (ps : list (string * A)) :
  StronglySorted key_le ps ->
  Forall (fun p => key (snd p) = inl (fst p)) ps ->
  StronglySorted
    (fun a b => exists ka kb, key a = inl ka /\ key b = inl kb
                              /\ (ka <=? kb)%string = true)
    (map snd ps).
Proof.
  induction 1 as [|p ps Hs IH Hall]; intros Hk; cbn; [constructor|].
  inversion Hk as [|? ? Hp Hps]; subst.
  constructor; [apply IH; exact Hps|].
  rewrite Forall_map. rewrite Forall_forall in *.
  intros q Hq. exists (fst p), (fst q). repeat split; [exact Hp | apply Hps; exact Hq|].
  apply Hall. exact Hq.
Qed.

(** What [sort] with a key returns: the same elements, each with a key,
    in the order of the keys. *)
Lemma sort_by_spec (l l' : list A) :
  sort_by key l = inl l' ->
  Permutation l l'
  /\ StronglySorted
       (fun a b => exists ka kb, key a = inl ka /\ key b = inl kb
                                 /\ (ka <=? kb)%string = true) l'.
Proof.
  unfold sort_by.
  destruct (map_raise _ l) as [pairs|e] eqn:Hp; [|discriminate].
  intros H. injection H as <-.
  destruct (keyed_pairs l pairs Hp) as [Hl Hk].
  split.
  - rewrite <- Hl. apply Permutation_map. apply sort_pairs_perm.
  - apply sorted_map_snd; [apply sort_pairs_sorted|].
    eapply Permutation_Forall; [apply sort_pairs_perm | exact Hk].
Qed.

End SortByFacts.

Section ArrangeFacts.
Import PyStr Py PyObj teams_browse.

Lemma by_name_keys (a b : json) :
  (exists ka kb, name_key a = inl ka /\ name_key b = inl kb /\ (ka <=? kb)%string = true) ->
  by_name a b.
Proof.
  intros (ka & kb & Ha & Hb & H). unfold by_name, key_of. rewrite Ha, Hb. exact H.
Qed.

Lemma sorted_by_name (l : list json) :
  StronglySorted
    (fun a b => exists ka kb, name_key a = inl ka /\ name_key b = inl kb
                              /\ (ka <=? kb)%string = true) l ->
  StronglySorted by_name l.
Proof.
  induction 1 as [|x l Hs IH Hall]; constructor; [exact IH|].
  eapply Forall_impl; [|exact Hall]. intros b. apply by_name_keys.
Qed.

(** The listing: the elements of the answer, folders first, each group
    in the order of the lower-case names. *)
Lemma arrange_spec (items : json) (all_items : list json) :
  arrange items = inl all_items ->
  exists l folders files,
    py_iter items = inl l
    /\ all_items = (folders ++ files)%list
    /\ Permutation l all_items
    /\ Forall is_folder folders /\ Forall is_file files
    /\ StronglySorted by_name folders /\ StronglySorted by_name files.
Proof.
  unfold arrange, and_then.
  destruct (py_iter items) as [l|e]; [|discriminate].
  destruct (filter_raise (contains_key "folder") true l) as [fo|e] eqn:Hfo; [|discriminate].
  destruct (filter_raise (contains_key "folder") false l) as [fi|e] eqn:Hfi; [|discriminate].
  destruct (sort_by name_key fo) as [fo'|e] eqn:Hsfo; [|discriminate].
  destruct (sort_by name_key fi) as [fi'|e] eqn:Hsfi; [|discriminate].
  intros H. injection H as <-.
  destruct (filter_raise_spec _ _ _ _ Hfo) as [Hfolders Hperm].
  destruct (filter_raise_spec _ _ _ _ Hfi) as [Hfiles _].
  specialize (Hperm fi Hfi).
  destruct (sort_by_spec name_key fo fo' Hsfo) as [Pfo Sfo].
  destruct (sort_by_spec name_key fi fi' Hsfi) as [Pfi Sfi].
  exists l, fo', fi'. split; [reflexivity|]. split; [reflexivity|].
  split; [rewrite Hperm; apply Permutation_app; assumption|].
  split; [eapply Permutation_Forall; [exact Pfo | exact Hfolders]|].
  split; [eapply Permutation_Forall; [exact Pfi | exact Hfiles]|].
  split; apply sorted_by_name; assumption.
Qed.

End ArrangeFacts.

Section BrowseFacts.
Import PyStr Py PyObj Io teams_browse.

Context {W : Type}.
Variable service : request -> W -> answer * W.
Variable format_value : json -> string.

(** The two lookups end the call with a status message or an exception
    text, or hand the id of the first drive to what follows. *)
Lemma first_drive_run {A : Type} (tok team : string) (failed : exn -> A)
  (stopped : string -> A) (se de nd : string) (k : json -> prog A) (w : W) :
  let result := run service (first_drive format_value tok team failed stopped se de nd k) w in
  ((exists e, fst (fst result) = failed e)
   \/ (exists msg, fst (fst result) = stopped msg
                   /\ ((exists code, msg = se ++ code \/ msg = de ++ code) \/ msg = nd)))
  \/ exists site_id drive_id a1 a2 w2,
       snd (fst result)
       = ((Get (graph ++ "/groups/" ++ team ++ "/sites/root") tok, a1)
          :: (Get (graph ++ "/sites/" ++ fmt format_value site_id ++ "/drives") tok, a2)
          :: snd (fst (run service (k drive_id) w2)))%list
       /\ fst (fst result) = fst (fst (run service (k drive_id) w2)).
Proof.
  cbv zeta. unfold first_drive, get, attempt. cbn [run].
  destruct (service (Get (graph ++ "/groups/" ++ team ++ "/sites/root") tok) w)
    as [[r1|e1] w1]; [|left; left; exists e1; reflexivity].
  destruct (negb (status_code r1 =? 200)%Z);
    [left; right; eexists; split; [reflexivity | left; eexists; left; reflexivity]|].
  destruct (and_then (json_of r1) (fun j => getitem j "id")) as [site_id|e];
    [|left; left; exists e; reflexivity].
  cbn [run].
  destruct (service (Get (graph ++ "/sites/" ++ fmt format_value site_id ++ "/drives") tok) w1)
    as [[r2|e2] w2]; [|left; left; exists e2; reflexivity].
  destruct (negb (status_code r2 =? 200)%Z);
    [left; right; eexists; split; [reflexivity | left; eexists; right; reflexivity]|].
  destruct (and_then (json_of r2) (fun j => getitem j "value")) as [drives|e];
    [|left; left; exists e; reflexivity].
  destruct (negb (truthy drives));
    [left; right; eexists; split; [reflexivity | right; reflexivity]|].
  destruct (and_then (py_first drives) (fun d => getitem d "id")) as [drive_id|e];
    [|left; left; exists e; reflexivity].
  right. exists site_id, drive_id, (inl r1), (inl r2), w2.
  destruct (run service (k drive_id) w2) as [[res t] w3]. split; reflexivity.
Qed.

End BrowseFacts.

(** X18.  When [get_team_drive_folders] returns a list of items, it
    returns the drive id and no error with it, having made exactly three
    requests: for the site of the team, for the drives of that site, and
    for the children of the parent folder in the first drive, the last
    answered with status 200.  The list holds exactly the elements of
    the [value] of that answer: first those with a [folder] key, then
    those without, each group in the order of the lower-case names. *)
Theorem folder_listing :
  forall (W : Type)
         (service : teams_browse.request -> W -> teams_browse.answer * W)
         (format_value : json -> string) (tok team parent : string) (w : W)
         (d : option json) (all_items : list json) (err : option string),
    fst (fst (Io.run service
                (teams_browse.get_team_drive_folders format_value tok team parent) w))
    = (d, Some all_items, err) ->
    err = None
    /\ exists drive_id site_id a1 a2 resp data items l folders files,
         d = Some drive_id
         /\ snd (fst (Io.run service
                        (teams_browse.get_team_drive_folders format_value tok team parent) w))
            = [(teams_browse.Get
                  (teams_browse.graph ++ "/groups/" ++ team ++ "/sites/root") tok, a1);
               (teams_browse.Get
                  (teams_browse.graph ++ "/sites/"
                   ++ teams_browse.fmt format_value site_id ++ "/drives") tok, a2);
               (teams_browse.Get
                  (teams_browse.graph ++ "/drives/"
                   ++ teams_browse.fmt format_value drive_id ++ "/items/" ++ parent
                   ++ "/children") tok, inl resp)]
         /\ teams_browse.status_code resp = 200%Z
         /\ teams_browse.json_of resp = inl data
         /\ Py.getitem data "value" = inl items
         /\ PyObj.py_iter items = inl l
         /\ all_items = (folders ++ files)%list
         /\ Permutation l all_items
         /\ Forall teams_browse.is_folder folders
         /\ Forall teams_browse.is_file files
         /\ StronglySorted teams_browse.by_name folders
         /\ StronglySorted teams_browse.by_name files.
Proof.
  intros W service fv tok team parent w d all_items err.
  unfold teams_browse.get_team_drive_folders.
  match goal with
  | |- context [teams_browse.first_drive fv tok team ?failed ?stopped ?se ?de ?nd ?k] =>
      destruct (first_drive_run service fv tok team failed stopped se de nd k w)
        as [[[e He]|(msg & He & _)] | (site_id & drive_id & a1 & a2 & w2 & Ht & Hr)]
  end.
  - rewrite He. discriminate.
  - rewrite He. discriminate.
  - rewrite Hr, Ht. clear Hr Ht.
    unfold teams_browse.get, teams_browse.attempt. cbn [Io.run].
    destruct (service _ w2) as [[resp|e3] w3]; [|cbn; discriminate].
    destruct (teams_browse.status_code resp =? 200)%Z eqn:Hcode; cbn [negb];
      [|cbn; discriminate].
    destruct (teams_browse.json_of resp) as [data|e] eqn:Hdata; cbn [PyObj.and_then];
      [|cbn; discriminate].
    destruct (Py.getitem data "value") as [items|e] eqn:Hitems; cbn [PyObj.and_then];
      [|cbn; discriminate].
    destruct (teams_browse.arrange items) as [arranged|e] eqn:Harr; [|cbn; discriminate].
    cbn. intros H. injection H as <- <- <-.
    split; [reflexivity|].
    destruct (arrange_spec items arranged Harr)
      as (l & folders & files & Hl & Hall & Hperm & Hfo & Hfi & Sfo & Sfi).
    exists drive_id, site_id, a1, a2, resp, data, items, l, folders, files.
    apply Z.eqb_eq in Hcode.
    repeat split; assumption.
Qed.

(** The theorem on a folder with a file and two folders. *)
Lemma folder_listing_witness :
  fst (fst (Io.run Listing.canned
              (teams_browse.get_team_drive_folders (fun _ => "") "token" "team" "root") 0%nat))
  = (Some (JStr "drive1"), Some [Listing.alpha; Listing.zeta; Listing.report], None)
  /\ exists folders files,
       [Listing.alpha; Listing.zeta; Listing.report] = (folders ++ files)%list
       /\ Forall teams_browse.is_folder folders
       /\ StronglySorted teams_browse.by_name folders.
Proof.
  assert (H : fst (fst (Io.run Listing.canned
                          (teams_browse.get_team_drive_folders (fun _ => "")
                             "token" "team" "root") 0%nat))
              = (Some (JStr "drive1"),
                 Some [Listing.alpha; Listing.zeta; Listing.report], None))
    by (vm_compute; reflexivity).
  split; [exact H|].
  destruct (folder_listing nat Listing.canned (fun _ => "") "token" "team" "root" 0%nat
              _ _ _ H)
    as (_ & _ & _ & _ & _ & _ & _ & _ & _ & folders & files & _ & _ & _ & _ & _ & _
        & Hall & _ & Hfo & _ & Sfo & _).
  exists folders, files. repeat split; assumption.
Defined.

Section TeamsFacts.
Import PyStr Py PyObj Io teams_browse.

Context {W : Type}.
Variable service : request -> W -> answer * W.

Lemma get_teams_loop_run (tok : string) (eps : list string) :
  forall w : W,
    let result := run service (get_teams_loop tok eps) w in
    (exists n, (n <= List.length eps)%nat
               /\ map fst (snd (fst result)) = map (fun u => Get u tok) (firstn n eps))
    /\ ((exists msg, fst (fst result) = (None, Some msg) /\ msg <> EmptyString)
        \/ exists value pre q resp data k,
             fst (fst result) = (Some value, None)
             /\ snd (fst result) = (pre ++ [(q, inl resp)])%list
             /\ status_code resp = 200%Z
             /\ json_of resp = inl data
             /\ getitem data "value" = inl value
             /\ py_len value = inl (S k)).
Proof.
  induction eps as [|ep eps IH]; intros w; cbv zeta; cbn [get_teams_loop].
  - cbn. split; [exists 0%nat; split; [lia | reflexivity]|].
    left. eexists. split; [reflexivity | discriminate].
  - unfold get, attempt. cbn [run].
    destruct (service (Get ep tok) w) as [a w1].
    assert (Hstop : forall msg : string,
      (exists n, (n <= S (List.length eps))%nat
                 /\ [Get ep tok] = map (fun u => Get u tok) (firstn n (ep :: eps)))
      /\ ((exists m, (@None json, Some ("Failed to get teams: " ++ msg)) = (None, Some m)
                     /\ m <> EmptyString)
          \/ exists value pre q resp data k,
               (@None json, Some ("Failed to get teams: " ++ msg)) = (Some value, None)
               /\ [(Get ep tok, a)] = (pre ++ [(q, inl resp)])%list
               /\ status_code resp = 200%Z
               /\ json_of resp = inl data
               /\ getitem data "value" = inl value
               /\ py_len value = inl (S k))).
    { intros msg. split; [exists 1%nat; split; [cbn; lia | reflexivity]|].
      left. eexists. split; [reflexivity | discriminate]. }
    assert (Hnext :
      let result := run service (get_teams_loop tok eps) w1 in
      (exists n, (n <= S (List.length eps))%nat
                 /\ Get ep tok :: map fst (snd (fst result))
                    = map (fun u => Get u tok) (firstn n (ep :: eps)))
      /\ ((exists msg, fst (fst result) = (None, Some msg) /\ msg <> EmptyString)
          \/ exists value pre q resp data k,
               fst (fst result) = (Some value, None)
               /\ (Get ep tok, a) :: snd (fst result) = (pre ++ [(q, inl resp)])%list
               /\ status_code resp = 200%Z
               /\ json_of resp = inl data
               /\ getitem data "value" = inl value
               /\ py_len value = inl (S k))).
    { cbv zeta. destruct (IH w1) as [(n & Hn & Ht) Hres]. split.
      - exists (S n). split; [lia|]. cbn [firstn map]. rewrite Ht. reflexivity.
      - destruct Hres as [Hm|(value & pre & q & resp & data & k & H1 & H2 & H3)];
          [left; exact Hm|].
        right. exists value, ((Get ep tok, a) :: pre), q, resp, data, k.
        rewrite H2. split; [exact H1|]. split; [reflexivity | exact H3]. }
    cbv zeta in Hnext.
    destruct a as [resp|e]; [|cbn [run fst snd map]; apply Hstop].
    destruct (status_code resp =? 200)%Z eqn:Hcode.
    2:{ destruct (run service (get_teams_loop tok eps) w1) as [[res t] w2].
        cbn [fst snd map] in *. exact Hnext. }
    destruct (json_of resp) as [data|e] eqn:Hdata; [|cbn [run fst snd map]; apply Hstop].
    destruct (contains_key "value" data) as [[]|e];
      [| |cbn [run fst snd map]; apply Hstop].
    2:{ destruct (run service (get_teams_loop tok eps) w1) as [[res t] w2].
        cbn [fst snd map] in *. exact Hnext. }
    destruct (getitem data "value") as [value|e] eqn:Hvalue;
      [|cbn [run fst snd map]; apply Hstop].
    destruct (py_len value) as [[|k]|e] eqn:Hlen; [| |cbn [run fst snd map]; apply Hstop].
    + cbn [Nat.ltb Nat.leb].
      destruct (run service (get_teams_loop tok eps) w1) as [[res t] w2].
      cbn [fst snd map] in *. exact Hnext.
    + cbn [Nat.ltb Nat.leb run fst snd map].
      split; [exists 1%nat; split; [cbn; lia | reflexivity]|].
      right. exists value, [], (Get ep tok), resp, data, k.
      apply Z.eqb_eq in Hcode. repeat split; assumption.
Qed.

End TeamsFacts.

(** X19.  Whatever the service answers, [get_teams] asks the three
    endpoints in their fixed order with the caller's token and stops at
    the first usable answer, so it makes at most three requests.  It
    returns either no teams and an error text, or, without error, the
    [value] of its last answer, which had status 200 and a [value] of
    positive length. *)
Theorem teams_lookup :
  forall (W : Type)
         (service : teams_browse.request -> W -> teams_browse.answer * W)
         (tok : string) (w : W),
    let result := Io.run service (teams_browse.get_teams tok) w in
    (exists n, (n <= 3)%nat
               /\ map fst (snd (fst result))
                  = map (fun u => teams_browse.Get u tok)
                        (firstn n teams_browse.endpoints))
    /\ ((exists msg, fst (fst result) = (None, Some msg) /\ msg <> EmptyString)
        \/ exists value pre q resp data k,
             fst (fst result) = (Some value, None)
             /\ snd (fst result) = (pre ++ [(q, inl resp)])%list
             /\ teams_browse.status_code resp = 200%Z
             /\ teams_browse.json_of resp = inl data
             /\ Py.getitem data "value" = inl value
             /\ PyObj.py_len value = inl (S k)).
Proof.
  intros W service tok w.
  apply (get_teams_loop_run service tok teams_browse.endpoints w).
Qed.

(** X20.  [get_finance_team_folders] and [determine_target_folder] agree
    on the folders.  The lookup ends with an error text and no ids at
    all, or with a drive id, no error, and two folder ids; and the
    folder id [determine_target_folder] gives for a name, any name, is
    one of these two: the second for a name that matches the
    trust-account pattern and not the first pattern, the first for
    every other name. *)
Theorem folder_ids_agree :
  forall (W : Type)
         (service : teams_browse.request -> W -> teams_browse.answer * W)
         (format_value : json -> string) (tok team : string) (w : W),
    let '(d, wmc, trust, err) :=
      fst (fst (Io.run service
                  (teams_browse.get_finance_team_folders format_value tok team) w)) in
    (d = None /\ wmc = None /\ trust = None
     /\ exists msg, err = Some msg /\ msg <> EmptyString)
    \/ (err = None
        /\ (exists drive_id, d = Some drive_id)
        /\ wmc <> trust
        /\ forall name team' tok' : string,
             let fid := fst (fst (teams_component.determine_target_folder name team' tok')) in
             if negb (teams_component.matches_wmc name)
                && teams_component.matches_nominee name
             then trust = Some fid
             else wmc = Some fid).
Proof.
  intros W service fv tok team w.
  unfold teams_browse.get_finance_team_folders.
  match goal with
  | |- context [teams_browse.first_drive fv tok team ?failed ?stopped ?se ?de ?nd ?k] =>
      destruct (first_drive_run service fv tok team failed stopped se de nd k w)
        as [[[e He]|(msg & He & Hmsg)] | (site_id & drive_id & a1 & a2 & w2 & _ & Hr)]
  end.
  - rewrite He. left. repeat split. eexists. split; [reflexivity | discriminate].
  - rewrite He. left. repeat split. exists msg. split; [reflexivity|].
    destruct Hmsg as [[code [->| ->]]| ->]; discriminate.
  - rewrite Hr. cbn. right. split; [reflexivity|].
    split; [exists drive_id; reflexivity|]. split; [discriminate|].
    intros name team' tok'. unfold teams_component.determine_target_folder.
    destruct (teams_component.matches_wmc name); [reflexivity|].
    destruct (teams_component.matches_nominee name); reflexivity.
Qed.

(** ** Paging through the mail listing *)

Section PagingFacts.
Import PyStr Py PyObj Io gmail_component.

Context {W : Type}.
Variable service : request -> W -> answer * W.
Variable q : string.

Lemma extend_items (messages page messages' : json) :
  extend messages (get page "messages" (JArr [])) = inl messages' ->
  exists l, messages = JArr l /\ messages' = JArr (l ++ page_items page)%list.
Proof.
  unfold extend, page_items, and_then.
  destruct messages as [|b|r nz|s|l|fs]; try discriminate.
  destruct (get page "messages" (JArr [])) as [m|e]; [|discriminate].
  destruct (py_iter m) as [ms|e]; [|discriminate].
  intros H. injection H as <-. exists l. split; reflexivity.
Qed.

Lemma has_next_true (page : json) :
  contains_key "nextPageToken" page = inl true -> has_next page = true.
Proof. unfold has_next. intros ->. reflexivity. Qed.

Lemma has_next_false (page : json) :
  contains_key "nextPageToken" page = inl false -> has_next page = false.
Proof. unfold has_next. intros ->. reflexivity. Qed.

Lemma more_pages_run (fuel : nat) :
  forall (result messages : json) (tok0 : option json) (w : W),
    let r := run service (more_pages fuel q result messages) w in
    match fst (fst r) with
    | None =>
        List.length (snd (fst r)) = fuel /\ has_next result = true
        /\ Forall (fun ra => exists page, snd ra = inl page /\ has_next page = true)
             (snd (fst r))
    | Some (Some ms, err) =>
        err = None
        /\ exists pages,
             map snd (snd (fst r)) = map inl pages
             /\ paged q tok0 (result :: pages) (ListMessages q tok0 :: map fst (snd (fst r)))
             /\ ((pages = [] /\ ms = messages)
                 \/ exists l, messages = JArr l
                              /\ ms = JArr (l ++ flat_map page_items pages)%list)
    | Some (None, err) =>
        exists msg, err = Some msg /\ startswith msg "Error searching emails: " = true
    end.
Proof.
  induction fuel as [|fuel IH]; intros result messages tok0 w; cbv zeta;
    cbn [more_pages]; unfold attempt, ask;
    destruct (contains_key "nextPageToken" result) as [[]|e] eqn:Hnext;
    try (cbn [run fst snd]; eexists; split; [reflexivity | apply prefix_append]).
  - cbn. split; [reflexivity|]. split; [apply has_next_true; exact Hnext | constructor].
  - cbn. split; [reflexivity|]. exists []. split; [reflexivity|].
    rewrite (has_next_false _ Hnext). repeat split. left. split; reflexivity.
  - destruct (getitem result "nextPageToken") as [t|e1] eqn:Htok;
      [|cbn [run fst snd]; eexists; split; [reflexivity | apply prefix_append]].
    cbn [run].
    destruct (service (ListMessages q (Some t)) w) as [[result'|e2] w1];
      [|cbn [run fst snd]; eexists; split; [reflexivity | apply prefix_append]].
    destruct (extend messages (get result' "messages" (JArr []))) as [messages'|e3] eqn:Hext;
      [|cbn [run fst snd]; eexists; split; [reflexivity | apply prefix_append]].
    destruct (extend_items _ _ _ Hext) as (l & -> & ->).
    specialize (IH result' (JArr (l ++ page_items result')%list) (Some t) w1).
    cbv zeta in IH.
    destruct (run service (more_pages fuel q result' (JArr (l ++ page_items result')%list)) w1)
      as [[res trace] w2].
    cbn [fst snd] in *.
    destruct res as [[[ms|] err]|].
    + destruct IH as (-> & pages & Hans & Hpaged & Hms). split; [reflexivity|].
      exists (result' :: pages). cbn [map]. rewrite Hans. split; [reflexivity|].
      split.
      * cbn [paged]. split; [reflexivity|].
        rewrite (has_next_true _ Hnext). exists t. split; [exact Htok | exact Hpaged].
      * right. exists l. split; [reflexivity|]. cbn [flat_map].
        destruct Hms as [[-> ->]|(l' & Hl & ->)].
        -- cbn. rewrite app_nil_r. reflexivity.
        -- injection Hl as <-. rewrite <- app_assoc. reflexivity.
    + exact IH.
    + destruct IH as (Hlen & Hn & Hall). cbn [List.length]. split; [f_equal; exact Hlen|].
      split; [apply has_next_true; exact Hnext|].
      constructor; [|exact Hall]. exists result'. split; [reflexivity | exact Hn].
  - cbn. split; [reflexivity|]. exists []. split; [reflexivity|].
    rewrite (has_next_false _ Hnext). repeat split. left. split; reflexivity.
Qed.

End PagingFacts.

(** X21.  [search_echeque_emails] goes through the pages of the listing:
    the first request has no page token and each further request the
    token of the page before; it stops at the first page without a next
    one and returns, without error, the messages of the first page
    extended by the elements of every later page, in order.  Any
    exception ends it with no messages and the search error text.  The
    embedded loop is cut short only when every page it was allowed to
    ask for named a next one. *)
Theorem paging :
  forall (W : Type)
         (service : gmail_component.request -> W -> gmail_component.answer * W)
         (fuel : nat) (start_date_str end_date_str : string) (w : W),
    let q := gmail_component.query start_date_str end_date_str in
    let r := Io.run service
               (gmail_component.search_echeque_emails fuel start_date_str end_date_str) w in
    match fst (fst r) with
    | None =>
        List.length (snd (fst r)) = S fuel
        /\ Forall (fun ra => exists page,
                     snd ra = inl page /\ gmail_component.has_next page = true)
             (snd (fst r))
    | Some (Some messages, err) =>
        err = None
        /\ exists pages,
             map snd (snd (fst r)) = map inl pages
             /\ gmail_component.paged q None pages (map fst (snd (fst r)))
             /\ messages = gmail_component.collected pages
    | Some (None, err) =>
        exists msg, err = Some msg
                    /\ PyStr.startswith msg "Error searching emails: " = true
    end.
Proof.
  intros W service fuel sd ed w q r. subst r.
  unfold gmail_component.search_echeque_emails, gmail_component.ask,
    gmail_component.attempt. fold q. cbn [Io.run].
  destruct (service (gmail_component.ListMessages q None) w) as [[result|e] w1];
    [|cbn [Io.run fst snd]; eexists; split; [reflexivity | apply prefix_append]].
  destruct (Py.get result "messages" (JArr [])) as [messages|e] eqn:Hget;
    [|cbn [Io.run fst snd]; eexists; split; [reflexivity | apply prefix_append]].
  pose proof (more_pages_run service q fuel result messages None w1) as H.
  cbv zeta in H.
  destruct (Io.run service (gmail_component.more_pages fuel q result messages) w1)
    as [[res trace] w2].
  cbn [fst snd] in *.
  destruct res as [[[ms|] err]|].
  - destruct H as (-> & pages & Hans & Hpaged & Hms). split; [reflexivity|].
    exists (result :: pages). cbn [map]. rewrite Hans. split; [reflexivity|].
    split; [exact Hpaged|].
    unfold gmail_component.collected. rewrite Hget.
    destruct Hms as [[-> ->]|(l & -> & ->)]; [destruct messages; reflexivity|].
    destruct pages; [cbn; rewrite app_nil_r|]; reflexivity.
  - exact H.
  - destruct H as (Hlen & Hn & Hall). cbn [List.length]. split; [f_equal; exact Hlen|].
    constructor; [|exact Hall]. exists result. split; [reflexivity | exact Hn].
Qed.

(** ** Downloaded attachments *)

Section DownloadFacts.
Import PyStr Py PyObj Io gmail_component.

Context {W : Type}.
Variable service : request -> W -> answer * W.
Variable decode : json -> bytes + exn.

Lemma io_run_bind {A B} (p : prog A) (f : A -> prog B) (w : W) :
  run service (gmail_component.bind p f) w
  = let '(a, t1, w1) := run service p w in
    let '(b, t2, w2) := run service (f a) w1 in
    (b, (t1 ++ t2)%list, w2).
Proof.
  revert w. induction p as [a|q k IH]; intros w; cbn.
  - destruct (run service (f a) w) as [[b t2] w2]. reflexivity.
  - destruct (service q w) as [r w1]. rewrite IH.
    destruct (run service (k r) w1) as [[a t1] w2].
    destruct (run service (f a) w2) as [[b t2] w3]. reflexivity.
Qed.

Lemma backed_more (dir : string) (t1 t2 t3 : list (request * answer))
  (name fp : string) (n : nat) (data : bytes) :
  backed dir t2 name fp n data -> backed dir (t1 ++ t2 ++ t3)%list name fp n data.
Proof.
  intros (H1 & H2 & H3 & H4). repeat split; try assumption.
  rewrite !map_app. apply in_or_app. right. apply in_or_app. left. exact H4.
Qed.

(** A part that passes the test of line 100 has a file name that is
    not empty, if it is a string. *)
Lemma is_attachment_name (part : json) (s : string) :
  is_attachment part = inl true -> getitem part "filename" = inl (JStr s) ->
  s <> EmptyString.
Proof.
  unfold is_attachment, and_then, get, getitem.
  destruct part as [|b|r nz|t|l|fields]; try discriminate.
  destruct (assoc "filename" fields) as [f|]; [|discriminate].
  intros H Hf. injection Hf as ->. cbn [truthy] in H.
  destruct (String.eqb_spec s ""); [discriminate H | assumption].
Qed.

Lemma download_parts_run (msg_id : json) (dir : string) (parts : list json) :
  forall (acc : list attachment) (w : W) (l : list attachment) (err : option string),
    fst (fst (run service (download_parts decode msg_id dir parts acc) w)) = (Some l, err) ->
    err = None
    /\ exists new,
         l = (acc ++ new)%list
         /\ Forall (backed_attachment dir
                      (snd (fst (run service (download_parts decode msg_id dir parts acc) w))))
              new.
Proof.
  induction parts as [|part parts IH]; intros acc w l err; cbn [download_parts].
  - cbn. intros H. injection H as <- <-. split; [reflexivity|].
    exists []. rewrite app_nil_r. split; [reflexivity | constructor].
  - unfold attempt, ask.
    destruct (is_attachment part) as [[]|e0] eqn:Hwanted; [| |cbn; discriminate].
    2:{ apply IH. }
    destruct (and_then (getitem part "body") (fun b => getitem b "attachmentId"))
      as [attachment_id|e1]; [|cbn; discriminate].
    destruct (getitem part "filename") as [fname|e2] eqn:Hname; [|cbn; discriminate].
    cbn [run].
    destruct (service (GetAttachment msg_id attachment_id) w) as [[att|e3] w1];
      [|cbn; discriminate].
    destruct (and_then (getitem att "data") decode) as [data|e4]; [|cbn; discriminate].
    destruct (as_path fname) as [name|e5] eqn:Hpath; [|cbn; discriminate].
    cbn [run].
    destruct (service (WriteFile (path_join dir name) data) w1) as [[v|e6] w2];
      [|cbn; discriminate].
    set (a := mkAttachment name (path_join dir name) (List.length data) data).
    specialize (IH (acc ++ [a])%list w2 l err).
    destruct (run service (download_parts decode msg_id dir parts (acc ++ [a])%list) w2)
      as [[res t] w3].
    cbn [fst snd] in *. intros H. destruct (IH H) as (-> & new & -> & Hnew).
    split; [reflexivity|]. exists (a :: new). rewrite <- app_assoc. split; [reflexivity|].
    assert (Hs : name <> EmptyString).
    { destruct fname as [|b|r nz|s|items|fs]; try discriminate Hpath.
      injection Hpath as <-. eapply is_attachment_name; eassumption. }
    constructor.
    + unfold backed_attachment, backed. cbn. repeat split; try assumption.
      right. left. reflexivity.
    + eapply Forall_impl; [|exact Hnew]. intros x Hx.
      apply (backed_more dir [(GetAttachment msg_id attachment_id, inl att);
                              (WriteFile (path_join dir name) data, inl v)] t []) in Hx.
      rewrite app_nil_r in Hx. exact Hx.
Qed.

Lemma download_attachments_run (details : email_details) (dir : string) (w : W)
  (l : list attachment) (err : option string) :
  fst (fst (run service (download_attachments decode details dir) w)) = (Some l, err) ->
  err = None
  /\ Forall (backed_attachment dir
               (snd (fst (run service (download_attachments decode details dir) w)))) l.
Proof.
  unfold download_attachments.
  assert (Hdata : forall (data : json) (w' : W),
    let p :=
      attempt (and_then (getitem data "payload") (contains_key "parts"))
        (fun e => (None, Some ("Error downloading attachments: " ++ exn_str e)))
        (fun has_parts =>
         if negb has_parts then Done (Some [], None)
         else attempt (and_then (and_then (getitem data "payload")
                                   (fun p => getitem p "parts")) py_iter)
                (fun e => (None, Some ("Error downloading attachments: " ++ exn_str e)))
                (fun parts => download_parts decode (id details) dir parts [])) in
    fst (fst (run service p w')) = (Some l, err) ->
    err = None /\ Forall (backed_attachment dir (snd (fst (run service p w')))) l).
  { intros data w'. cbv zeta. unfold attempt.
    destruct (and_then (getitem data "payload") (contains_key "parts")) as [[]|e];
      cbn [negb]; [| |cbn; discriminate].
    - destruct (and_then (and_then (getitem data "payload") (fun p => getitem p "parts"))
                  py_iter) as [parts|e]; [|cbn; discriminate].
      intros H. destruct (download_parts_run (id details) dir parts [] w' l err H)
        as (-> & new & -> & Hnew).
      split; [reflexivity | exact Hnew].
    - cbn. intros H. injection H as <- <-. split; [reflexivity | constructor]. }
  destruct (message details) as [|b|r nz|s|items|fields] eqn:Hm;
    try (unfold ask; cbn [run];
         destruct (service (GetMessage (id details)) w) as [[data|e] w1];
         [|cbn; discriminate];
         specialize (Hdata data w1); cbv zeta in Hdata;
         match goal with
         | |- context [run service ?p w1] =>
             destruct (run service p w1) as [[res t] w2]
         end;
         cbn [fst snd] in *; intros H; destruct (Hdata H) as [-> Hall];
         split; [reflexivity|];
         eapply Forall_impl; [|exact Hall]; intros x Hx;
         apply (backed_more dir [(GetMessage (id details), inl data)] t []) in Hx;
         rewrite app_nil_r in Hx; exact Hx).
  apply (Hdata (JObj fields) w).
Qed.

Lemma download_messages_run (dir : string) (messages : list json) :
  forall (acc : list download) (w : W) (files : list download) (err : option string),
    fst (fst (run service (download_messages decode dir messages acc) w))
    = inl (Some files, err) ->
    err = None
    /\ exists new,
         files = (acc ++ new)%list
         /\ Forall (backed_download dir
                      (snd (fst (run service (download_messages decode dir messages acc) w))))
              new.
Proof.
  induction messages as [|msg messages IH]; intros acc w files err; cbn [download_messages].
  - cbn. intros H. injection H as <- <-. split; [reflexivity|].
    exists []. rewrite app_nil_r. split; [reflexivity | constructor].
  - destruct (getitem msg "id") as [msg_id|e]; [|cbn; discriminate].
    rewrite io_run_bind.
    destruct (run service (get_email_details msg_id) w) as [[[details error] t1] w1].
    assert (Hskip : forall acc',
      let r := run service (download_messages decode dir messages acc') w1 in
      fst (fst (let '(b, t2, w2) := r in (b, (t1 ++ t2)%list, w2))) = inl (Some files, err) ->
      err = None
      /\ exists new,
           files = (acc' ++ new)%list
           /\ Forall (backed_download dir
                        (snd (fst (let '(b, t2, w2) := r in (b, (t1 ++ t2)%list, w2)))))
                new).
    { intros acc'. cbv zeta. specialize (IH acc' w1 files err).
      destruct (run service (download_messages decode dir messages acc') w1)
        as [[res t2] w2].
      cbn [fst snd] in *. intros H. destruct (IH H) as (-> & new & -> & Hnew).
      split; [reflexivity|]. exists new. split; [reflexivity|].
      eapply Forall_impl; [|exact Hnew]. intros x Hx.
      apply (backed_more dir t1 t2 []) in Hx. rewrite app_nil_r in Hx. exact Hx. }
    destruct (truthy_opt error); [apply Hskip|].
    destruct details as [details|]; [|apply Hskip].
    rewrite io_run_bind.
    pose proof (download_attachments_run details dir w1) as Hatt.
    destruct (run service (download_attachments decode details dir) w1)
      as [[[atts error2] t2] w2].
    cbn [fst snd] in Hatt.
    assert (Hskip2 : forall acc',
      (acc' = acc \/ exists l, atts = Some l /\ error2 = None
                               /\ acc' = (acc ++ map (record details) l)%list) ->
      let r := run service (download_messages decode dir messages acc') w2 in
      fst (fst (let '(b, t3, w3) :=
                  let '(b, t3, w3) := r in (b, (t2 ++ t3)%list, w3) in
                (b, (t1 ++ t3)%list, w3))) = inl (Some files, err) ->
      err = None
      /\ exists new,
           files = (acc ++ new)%list
           /\ Forall (backed_download dir
                        (snd (fst (let '(b, t3, w3) :=
                                     let '(b, t3, w3) := r in (b, (t2 ++ t3)%list, w3) in
                                   (b, (t1 ++ t3)%list, w3))))) new).
    { intros acc' Hacc. cbv zeta. specialize (IH acc' w2 files err).
      destruct (run service (download_messages decode dir messages acc') w2)
        as [[res t3] w3].
      cbn [fst snd] in *. intros H. destruct (IH H) as (-> & new & -> & Hnew).
      split; [reflexivity|].
      assert (Hnew' : Forall (backed_download dir (t1 ++ t2 ++ t3)) new).
      { eapply Forall_impl; [|exact Hnew]. intros x Hx.
        apply (backed_more dir (t1 ++ t2) t3 []) in Hx.
        rewrite app_nil_r, <- app_assoc in Hx. exact Hx. }
      destruct Hacc as [->|(l & -> & -> & ->)].
      - exists new. split; [reflexivity | exact Hnew'].
      - exists (map (record details) l ++ new)%list.
        rewrite <- app_assoc. split; [reflexivity|].
        apply Forall_app. split; [|exact Hnew'].
        destruct (Hatt l None eq_refl) as [_ Hl].
        rewrite Forall_map. eapply Forall_impl; [|exact Hl]. intros a Ha.
        apply (backed_more dir t1 t2 t3) in Ha. exact Ha. }
    destruct (truthy_opt error2) eqn:Herr2; [apply Hskip2; left; reflexivity|].
    destruct atts as [l|]; [|cbn; discriminate].
    apply Hskip2. right. exists l. repeat split.
    destruct (Hatt l error2 eq_refl) as [-> _]. reflexivity.
Qed.

End DownloadFacts.

(** X22.  Every record [search_and_download_echeques] returns is backed
    by the run: its size is the length of its content, its file name is
    not empty, its path is the temporary directory joined with the file
    name, and the content was written to that path.  Records come
    without an error text; the only pair with a list and a text is the
    empty list with the text that nothing was found. *)
Theorem downloads_backed :
  forall (W : Type)
         (service : gmail_component.request -> W -> gmail_component.answer * W)
         (decode : json -> bytes + exn) (fuel : nat) (build : option exn)
         (temp_dir start_date_str end_date_str : string) (w : W)
         (files : list gmail_component.download) (err : option string),
    let r := Io.run service
               (gmail_component.search_and_download_echeques decode fuel build temp_dir
                  start_date_str end_date_str) w in
    fst (fst r) = Some (inl (Some files, err)) ->
    Forall (gmail_component.backed_download temp_dir (snd (fst r))) files
    /\ (err = None
        \/ (files = [] /\ err = Some "No e-cheques found in the date range.")).
Proof.
  intros W service decode fuel build dir sd ed w files err r. subst r.
  unfold gmail_component.search_and_download_echeques, gmail_component.get_gmail_service.
  destruct build as [e|]; [cbn; discriminate|].
  cbn [Py.truthy_opt]. rewrite io_run_bind.
  destruct (Io.run service (gmail_component.search_echeque_emails fuel sd ed) w)
    as [[found t1] w1].
  destruct found as [[messages error]|]; [|cbn; discriminate].
  destruct (Py.truthy_opt error); [cbn; discriminate|].
  assert (Hnone : forall t : list (gmail_component.request * gmail_component.answer),
    (@Some gmail_component.outcome
       (inl (Some [], Some "No e-cheques found in the date range.")))
    = Some (inl (Some files, err)) ->
    Forall (gmail_component.backed_download dir t) files
    /\ (err = None \/ (files = [] /\ err = Some "No e-cheques found in the date range."))).
  { intros t H. injection H as <- <-. split; [constructor|]. right. split; reflexivity. }
  destruct messages as [messages|]; [|cbn; apply Hnone].
  destruct (negb (Py.truthy messages)); [cbn; apply Hnone|].
  destruct (PyObj.py_len messages) as [n|e]; [|cbn; discriminate].
  destruct (PyObj.py_iter messages) as [l|e]; [|cbn; discriminate].
  rewrite io_run_bind.
  pose proof (download_messages_run service decode dir l [] w1) as Hrun.
  destruct (Io.run service (gmail_component.download_messages decode dir l []) w1)
    as [[res t2] w2].
  cbn [Io.run fst snd] in *. intros H. injection H as ->.
  destruct (Hrun files err eq_refl) as (-> & new & -> & Hnew).
  split; [|left; reflexivity].
  cbn [app]. eapply Forall_impl; [|exact Hnew]. intros x Hx.
  apply (backed_more dir t1 t2 []) in Hx. exact Hx.
Qed.

(** The theorem on a mailbox of two pages with one message each. *)
Lemma downloads_backed_witness :
  exists a b : gmail_component.download,
    fst (fst (Io.run gmail_component.two_pages
                (gmail_component.search_and_download_echeques gmail_component.decode 5 None
                   "/tmp/x" "2024/05/01" "2024/05/31") 0%nat))
    = Some (inl (Some [a; b], None))
    /\ gmail_component.dl_path a = "/tmp/x/cheque.pdf"
    /\ gmail_component.dl_size a = List.length (gmail_component.dl_content a).
Proof.
  do 2 eexists. split; [vm_compute; reflexivity|]. split; [reflexivity|].
  match goal with
  | |- gmail_component.dl_size ?a = _ =>
      assert (H : Forall (gmail_component.backed_download "/tmp/x"
                            (snd (fst (Io.run gmail_component.two_pages
                                         (gmail_component.search_and_download_echeques
                                            gmail_component.decode 5 None
                                            "/tmp/x" "2024/05/01" "2024/05/31") 0%nat))))
                    [a; a])
  end.
  { refine (proj1 (downloads_backed nat gmail_component.two_pages gmail_component.decode
                     5 None "/tmp/x" "2024/05/01" "2024/05/31" 0%nat _ None _)).
    vm_compute. reflexivity. }
  inversion H as [|? ? Ha _]. exact (proj1 Ha).
Defined.

(** ** One message does not stop the others *)

Section IsolationFacts.
Import PyStr Py PyObj Io gmail_component Mailbox.

Context {W : Type}.
Variable service : request -> W -> answer * W.
Variable decode : json -> bytes + exn.






End IsolationFacts.


